(** * Remote-backed cache and reconciliation engine of ganeti_webmgr

    A shallow embedding of [ganeti/models.py]: the connection registry
    ([get_rapi]), the cached cluster object ([CachedClusterObject] and its
    subclasses [TestModel], [Job], [VirtualMachine], [Cluster]) and the
    inventory synchronisation ([Cluster.sync_virtual_machines]).

    Python objects are records, methods are computations in a state and
    exception monad over the receiver and the record store, and dynamic
    dispatch is a match on the class of the receiver. *)

From Stdlib Require Import Ascii String ZArith.
From stdpp Require Import gmap strings list fin_maps pretty.

Set Default Proof Using "Type".
Open Scope Z_scope.

(** ** Python values *)

(** The JSON-like values the remote API returns. A [dict] with string keys
    is a finite map. Numbers are integers: of a timestamp, which the remote
    API sends as a float, the whole seconds are kept. *)
#[warnings="-register-all"]
Inductive value :=
| VNone
| VNum (n : Z)
| VStr (s : string)
| VList (xs : list value)
| VDict (d : gmap string value).

(** A [datetime], counted in microseconds. *)
Definition datetime := Z.

Inductive exn :=
| GanetiApiError (msg : string)
| KeyError (key : string)
| TypeError
| ValueError
| AttributeError
| DoesNotExist
| IntegrityError.

(** [str(e)] for the exceptions above; only the text of a [GanetiApiError]
    is ever read. *)
Definition str_exn (e : exn) : string :=
  match e with
  | GanetiApiError msg => msg
  | KeyError key => key
  | TypeError => "TypeError"
  | ValueError => "ValueError"
  | AttributeError => "AttributeError"
  | DoesNotExist => "DoesNotExist"
  | IntegrityError => "IntegrityError"
  end.

Definition is_api_error (e : exn) : bool :=
  match e with GanetiApiError _ => true | _ => false end.

Inductive res (A : Type) :=
| Ok (a : A)
| Raise (e : exn).
Arguments Ok {A} a.
Arguments Raise {A} e.

(** Truth value of a Python object in a condition. *)
Definition truthy (v : value) : bool :=
  match v with
  | VNone => false
  | VNum n => negb (n =? 0)
  | VStr s => negb (String.eqb s "")
  | VList xs => match xs with [] => false | _ => true end
  | VDict d => negb (Nat.eqb (size d) 0)
  end.

Definition truthy_id (i : option Z) : bool :=
  match i with Some n => negb (n =? 0) | None => false end.

(** [v[key]] *)
Definition getitem (v : value) (key : string) : res value :=
  match v with
  | VDict d => match d !! key with Some x => Ok x | None => Raise (KeyError key) end
  | _ => Raise TypeError
  end.

(** The seconds since the epoch of the first and of the last second a
    [datetime] can hold, [0001-01-01 00:00:00] and [9999-12-31 23:59:59]. *)
Definition min_timestamp : Z := -62135596800.
Definition max_timestamp : Z := 253402300799.

(** [datetime.fromtimestamp(v)]: a [TypeError] on what is no number, a
    [ValueError] on a number of seconds no [datetime] can hold. *)
Definition fromtimestamp (v : value) : res datetime :=
  match v with
  | VNum n =>
      if (min_timestamp <=? n) && (n <=? max_timestamp) then Ok (1000000 * n)
      else Raise ValueError
  | _ => Raise TypeError
  end.

(** [timedelta(0, 0, 0, ms)]: the fourth positional argument of [timedelta]
    is a number of milliseconds. *)
Definition timedelta_ms (ms : Z) : Z := 1000 * ms.

(** ** Objects *)

Inductive kind := TestModel | Job | VirtualMachine | Cluster.

Global Instance kind_eq_dec : EqDecision kind.
Proof. solve_decision. Defined.

(** One record for the instances of the four concrete classes. The first
    block is [CachedClusterObject]; [mtime], [ctime], [error], [__info],
    [status] and [saved] are plain attributes (the class body rebinds
    [mtime] to [None] after the field declaration), the others are columns.
    [cluster_dot_hash] is the [hash] of the cluster object the instance
    holds, as the constructor call [VirtualMachine(cluster=c, ...)] leaves
    it, and [None] on an instance that was given no cluster; only the
    first save of a new instance reads it. *)
Record obj := {
  cls : kind;
  id : option Z;
  serialized_info : option value;
  cached : option datetime;
  ignore_cache : bool;
  __info : value;
  error : option string;
  mtime : option datetime;
  ctime : option datetime;
  (* Job *)
  status : value;
  (* TestModel *)
  saved : bool;
  (* VirtualMachine, Cluster *)
  hostname : string;
  owner_id : option Z;
  ram : value;
  virtual_cpus : value;
  disk_size : value;
  operating_system : value;
  cluster_id : option Z;
  cluster_hash : string;
  cluster_dot_hash : option string;
  hash : string;
  username : option string;
  password : option string;
  port : Z;
  (* Cluster *)
  slug : string
}.

Definition set_id (v : option Z) (o : obj) : obj :=
  {| cls := cls o; id := v; serialized_info := serialized_info o;
     cached := cached o; ignore_cache := ignore_cache o; __info := __info o;
     error := error o; mtime := mtime o; ctime := ctime o;
     status := status o; saved := saved o; hostname := hostname o;
     owner_id := owner_id o; ram := ram o; virtual_cpus := virtual_cpus o;
     disk_size := disk_size o; operating_system := operating_system o;
     cluster_id := cluster_id o; cluster_hash := cluster_hash o;
     cluster_dot_hash := cluster_dot_hash o; hash := hash o;
     username := username o; password := password o; port := port o;
     slug := slug o |}.

Definition set_serialized_info (v : option value) (o : obj) : obj :=
  {| cls := cls o; id := id o; serialized_info := v; cached := cached o;
     ignore_cache := ignore_cache o; __info := __info o; error := error o;
     mtime := mtime o; ctime := ctime o; status := status o;
     saved := saved o; hostname := hostname o; owner_id := owner_id o;
     ram := ram o; virtual_cpus := virtual_cpus o; disk_size := disk_size o;
     operating_system := operating_system o; cluster_id := cluster_id o;
     cluster_hash := cluster_hash o; cluster_dot_hash := cluster_dot_hash o;
     hash := hash o; username := username o; password := password o;
     port := port o; slug := slug o |}.

Definition set_cached (v : option datetime) (o : obj) : obj :=
  {| cls := cls o; id := id o; serialized_info := serialized_info o;
     cached := v; ignore_cache := ignore_cache o; __info := __info o;
     error := error o; mtime := mtime o; ctime := ctime o;
     status := status o; saved := saved o; hostname := hostname o;
     owner_id := owner_id o; ram := ram o; virtual_cpus := virtual_cpus o;
     disk_size := disk_size o; operating_system := operating_system o;
     cluster_id := cluster_id o; cluster_hash := cluster_hash o;
     cluster_dot_hash := cluster_dot_hash o; hash := hash o;
     username := username o; password := password o; port := port o;
     slug := slug o |}.

Definition set_ignore_cache (v : bool) (o : obj) : obj :=
  {| cls := cls o; id := id o; serialized_info := serialized_info o;
     cached := cached o; ignore_cache := v; __info := __info o;
     error := error o; mtime := mtime o; ctime := ctime o;
     status := status o; saved := saved o; hostname := hostname o;
     owner_id := owner_id o; ram := ram o; virtual_cpus := virtual_cpus o;
     disk_size := disk_size o; operating_system := operating_system o;
     cluster_id := cluster_id o; cluster_hash := cluster_hash o;
     cluster_dot_hash := cluster_dot_hash o; hash := hash o;
     username := username o; password := password o; port := port o;
     slug := slug o |}.

Definition set_info (v : value) (o : obj) : obj :=
  {| cls := cls o; id := id o; serialized_info := serialized_info o;
     cached := cached o; ignore_cache := ignore_cache o; __info := v;
     error := error o; mtime := mtime o; ctime := ctime o;
     status := status o; saved := saved o; hostname := hostname o;
     owner_id := owner_id o; ram := ram o; virtual_cpus := virtual_cpus o;
     disk_size := disk_size o; operating_system := operating_system o;
     cluster_id := cluster_id o; cluster_hash := cluster_hash o;
     cluster_dot_hash := cluster_dot_hash o; hash := hash o;
     username := username o; password := password o; port := port o;
     slug := slug o |}.

Definition set_error (v : option string) (o : obj) : obj :=
  {| cls := cls o; id := id o; serialized_info := serialized_info o;
     cached := cached o; ignore_cache := ignore_cache o; __info := __info o;
     error := v; mtime := mtime o; ctime := ctime o; status := status o;
     saved := saved o; hostname := hostname o; owner_id := owner_id o;
     ram := ram o; virtual_cpus := virtual_cpus o; disk_size := disk_size o;
     operating_system := operating_system o; cluster_id := cluster_id o;
     cluster_hash := cluster_hash o; cluster_dot_hash := cluster_dot_hash o;
     hash := hash o; username := username o; password := password o;
     port := port o; slug := slug o |}.

Definition set_mtime (v : option datetime) (o : obj) : obj :=
  {| cls := cls o; id := id o; serialized_info := serialized_info o;
     cached := cached o; ignore_cache := ignore_cache o; __info := __info o;
     error := error o; mtime := v; ctime := ctime o; status := status o;
     saved := saved o; hostname := hostname o; owner_id := owner_id o;
     ram := ram o; virtual_cpus := virtual_cpus o; disk_size := disk_size o;
     operating_system := operating_system o; cluster_id := cluster_id o;
     cluster_hash := cluster_hash o; cluster_dot_hash := cluster_dot_hash o;
     hash := hash o; username := username o; password := password o;
     port := port o; slug := slug o |}.

Definition set_ctime (v : option datetime) (o : obj) : obj :=
  {| cls := cls o; id := id o; serialized_info := serialized_info o;
     cached := cached o; ignore_cache := ignore_cache o; __info := __info o;
     error := error o; mtime := mtime o; ctime := v; status := status o;
     saved := saved o; hostname := hostname o; owner_id := owner_id o;
     ram := ram o; virtual_cpus := virtual_cpus o; disk_size := disk_size o;
     operating_system := operating_system o; cluster_id := cluster_id o;
     cluster_hash := cluster_hash o; cluster_dot_hash := cluster_dot_hash o;
     hash := hash o; username := username o; password := password o;
     port := port o; slug := slug o |}.

Definition set_status (v : value) (o : obj) : obj :=
  {| cls := cls o; id := id o; serialized_info := serialized_info o;
     cached := cached o; ignore_cache := ignore_cache o; __info := __info o;
     error := error o; mtime := mtime o; ctime := ctime o; status := v;
     saved := saved o; hostname := hostname o; owner_id := owner_id o;
     ram := ram o; virtual_cpus := virtual_cpus o; disk_size := disk_size o;
     operating_system := operating_system o; cluster_id := cluster_id o;
     cluster_hash := cluster_hash o; cluster_dot_hash := cluster_dot_hash o;
     hash := hash o; username := username o; password := password o;
     port := port o; slug := slug o |}.

Definition set_saved (v : bool) (o : obj) : obj :=
  {| cls := cls o; id := id o; serialized_info := serialized_info o;
     cached := cached o; ignore_cache := ignore_cache o; __info := __info o;
     error := error o; mtime := mtime o; ctime := ctime o;
     status := status o; saved := v; hostname := hostname o;
     owner_id := owner_id o; ram := ram o; virtual_cpus := virtual_cpus o;
     disk_size := disk_size o; operating_system := operating_system o;
     cluster_id := cluster_id o; cluster_hash := cluster_hash o;
     cluster_dot_hash := cluster_dot_hash o; hash := hash o;
     username := username o; password := password o; port := port o;
     slug := slug o |}.

Definition set_ram (v : value) (o : obj) : obj :=
  {| cls := cls o; id := id o; serialized_info := serialized_info o;
     cached := cached o; ignore_cache := ignore_cache o; __info := __info o;
     error := error o; mtime := mtime o; ctime := ctime o;
     status := status o; saved := saved o; hostname := hostname o;
     owner_id := owner_id o; ram := v; virtual_cpus := virtual_cpus o;
     disk_size := disk_size o; operating_system := operating_system o;
     cluster_id := cluster_id o; cluster_hash := cluster_hash o;
     cluster_dot_hash := cluster_dot_hash o; hash := hash o;
     username := username o; password := password o; port := port o;
     slug := slug o |}.

Definition set_virtual_cpus (v : value) (o : obj) : obj :=
  {| cls := cls o; id := id o; serialized_info := serialized_info o;
     cached := cached o; ignore_cache := ignore_cache o; __info := __info o;
     error := error o; mtime := mtime o; ctime := ctime o;
     status := status o; saved := saved o; hostname := hostname o;
     owner_id := owner_id o; ram := ram o; virtual_cpus := v;
     disk_size := disk_size o; operating_system := operating_system o;
     cluster_id := cluster_id o; cluster_hash := cluster_hash o;
     cluster_dot_hash := cluster_dot_hash o; hash := hash o;
     username := username o; password := password o; port := port o;
     slug := slug o |}.

Definition set_disk_size (v : value) (o : obj) : obj :=
  {| cls := cls o; id := id o; serialized_info := serialized_info o;
     cached := cached o; ignore_cache := ignore_cache o; __info := __info o;
     error := error o; mtime := mtime o; ctime := ctime o;
     status := status o; saved := saved o; hostname := hostname o;
     owner_id := owner_id o; ram := ram o; virtual_cpus := virtual_cpus o;
     disk_size := v; operating_system := operating_system o;
     cluster_id := cluster_id o; cluster_hash := cluster_hash o;
     cluster_dot_hash := cluster_dot_hash o; hash := hash o;
     username := username o; password := password o; port := port o;
     slug := slug o |}.

Definition set_operating_system (v : value) (o : obj) : obj :=
  {| cls := cls o; id := id o; serialized_info := serialized_info o;
     cached := cached o; ignore_cache := ignore_cache o; __info := __info o;
     error := error o; mtime := mtime o; ctime := ctime o;
     status := status o; saved := saved o; hostname := hostname o;
     owner_id := owner_id o; ram := ram o; virtual_cpus := virtual_cpus o;
     disk_size := disk_size o; operating_system := v;
     cluster_id := cluster_id o; cluster_hash := cluster_hash o;
     cluster_dot_hash := cluster_dot_hash o; hash := hash o;
     username := username o; password := password o; port := port o;
     slug := slug o |}.

Definition set_cluster_hash (v : string) (o : obj) : obj :=
  {| cls := cls o; id := id o; serialized_info := serialized_info o;
     cached := cached o; ignore_cache := ignore_cache o; __info := __info o;
     error := error o; mtime := mtime o; ctime := ctime o;
     status := status o; saved := saved o; hostname := hostname o;
     owner_id := owner_id o; ram := ram o; virtual_cpus := virtual_cpus o;
     disk_size := disk_size o; operating_system := operating_system o;
     cluster_id := cluster_id o; cluster_hash := v;
     cluster_dot_hash := cluster_dot_hash o; hash := hash o;
     username := username o; password := password o; port := port o;
     slug := slug o |}.

Definition set_hash (v : string) (o : obj) : obj :=
  {| cls := cls o; id := id o; serialized_info := serialized_info o;
     cached := cached o; ignore_cache := ignore_cache o; __info := __info o;
     error := error o; mtime := mtime o; ctime := ctime o;
     status := status o; saved := saved o; hostname := hostname o;
     owner_id := owner_id o; ram := ram o; virtual_cpus := virtual_cpus o;
     disk_size := disk_size o; operating_system := operating_system o;
     cluster_id := cluster_id o; cluster_hash := cluster_hash o;
     cluster_dot_hash := cluster_dot_hash o; hash := v;
     username := username o; password := password o; port := port o;
     slug := slug o |}.

(** ** The record store and the outside world *)

(** What an operation does to the outside: calls to the remote API, writes
    to the record store, and each encoding of [info]. *)
Inductive event :=
| Fetch (k : kind) (pk : option Z)
| Pickle (v : value)
| SaveRow (row : obj)
| UpdateCached (k : kind) (pk : option Z) (t : option datetime)
| UpdateIgnoreCache (k : kind) (pk : option Z)
| UpdateClusterHash (pk : option Z) (h : string)
| DeleteInstanceTags (host : string) (tags : list string)
| AddInstanceTags (host : string) (tags : list string)
| GetInstances
| DeleteRows (cluster : option Z) (hosts : list string).

(** The rows of all tables in insertion order, and the events so far. *)
Record world := {
  db : list obj;
  trace : list event
}.

(** Inputs an operation reads from its surroundings: the clock, the answer
    the remote API gives to the fetch of this entity, to the listing of
    instances and to the two tag calls ([None]: the call succeeds), and the
    constants [settings.LAZY_CACHE_REFRESH], [constants.OWNER_TAG] and
    [hashlib.sha1(...).hexdigest()], which the module imports. *)
Record env := {
  now : datetime;
  remote : res value;
  remote_instances : res (list string);
  delete_tags_error : option exn;
  add_tags_error : option exn;
  LAZY_CACHE_REFRESH : Z;
  OWNER_TAG : string;
  sha1_hexdigest : string → string
}.

(** ** The monad of methods

    A method runs on a receiver and a world, and either returns or raises;
    what it did to the receiver and the world before raising stays done. *)
Definition M (A : Type) : Type := obj * world → res A * (obj * world).

Global Instance M_ret : MRet M := λ A a st, (Ok a, st).
Global Instance M_bind : MBind M := λ A B f m st,
  match m st with
  | (Ok a, st') => f a st'
  | (Raise e, st') => (Raise e, st')
  end.

Definition get_self : M obj := λ st, (Ok st.1, st).
Definition get_world : M world := λ st, (Ok st.2, st).
Definition modify (f : obj → obj) : M unit := λ st, (Ok (), (f st.1, st.2)).
Definition modify_db (f : list obj → list obj) : M unit := λ st,
  (Ok (), (st.1, {| db := f (db st.2); trace := trace st.2 |})).
Definition emit (ev : event) : M unit := λ st,
  (Ok (), (st.1, {| db := db st.2; trace := trace st.2 ++ [ev] |})).
Definition raise {A} (e : exn) : M A := λ st, (Raise e, st).
Definition lift {A} (r : res A) : M A :=
  match r with Ok a => mret a | Raise e => raise e end.

(** [try: body except GanetiApiError, e: handler(str(e))] *)
Definition try_except_api {A} (body : M A) (handler : string → M A) : M A :=
  λ st,
    match body st with
    | (Raise (GanetiApiError msg), st') => handler (str_exn (GanetiApiError msg)) st'
    | r => r
    end.

(** [for x in xs: body(x)] *)
Fixpoint for_each {A} (xs : list A) (body : A → M unit) : M unit :=
  match xs with
  | [] => mret ()
  | x :: xs' => body x ;; for_each xs' body
  end.

(** Call a method on another object, in the same world. *)
Definition on_object {A} (o : obj) (m : M A) : M (A * obj) := λ st,
  match m (o, st.2) with
  | (Ok a, (o', w')) => (Ok (a, o'), (st.1, w'))
  | (Raise e, (o', w')) => (Raise e, (st.1, w'))
  end.

(** ** Strings *)

Fixpoint string_drop (n : nat) (s : string) : string :=
  match n, s with
  | O, _ => s
  | S n', String _ s' => string_drop n' s'
  | S _, EmptyString => EmptyString
  end.

Definition is_space (c : ascii) : bool :=
  let n := nat_of_ascii c in
  (Nat.eqb n 32 || (Nat.leb 9 n && Nat.leb n 13))%bool.

Definition digit_of (c : ascii) : option Z :=
  let n := nat_of_ascii c in
  if (Nat.leb 48 n && Nat.leb n 57)%bool then Some (Z.of_nat (n - 48)) else None.

Fixpoint lstrip (s : string) : string :=
  match s with
  | String c s' => if is_space c then lstrip s' else s
  | EmptyString => EmptyString
  end.

Definition strip (s : string) : string :=
  String.rev (lstrip (String.rev (lstrip s))).

Fixpoint digits (acc : Z) (s : string) : option Z :=
  match s with
  | EmptyString => Some acc
  | String c s' =>
      match digit_of c with
      | Some d => digits (10 * acc + d) s'
      | None => None
      end
  end.

Definition digits1 (s : string) : option Z :=
  match s with EmptyString => None | _ => digits 0 s end.

(** [int(s)] on a string: surrounding blanks, an optional sign, decimal
    digits; [None] is a [ValueError]. *)
Definition py_int (s : string) : option Z :=
  match strip s with
  | String "+" r => digits1 r
  | String "-" r => Z.opp <$> digits1 r
  | r => digits1 r
  end.

(** ['%s' % x] for an optional string. *)
Definition fmt_opt (x : option string) : string :=
  match x with Some s => s | None => "None" end.

(** ** The record store: [Model.save] and the narrow updates *)

(** The row a save writes: the object with its plain attributes at their
    class defaults, as a later instantiation from the store finds it. *)
Definition row_of (o : obj) : obj :=
  set_info VNone (set_error None (set_mtime None (set_ctime None
    (set_status VNone (set_saved false o))))).

Definition is_row (k : kind) (pk : option Z) (r : obj) : bool :=
  match pk with
  | Some n => bool_decide (cls r = k) && bool_decide (id r = Some n)
  | None => false
  end.

(** The key an insert assigns: one more than the largest in the table. *)
Definition fresh_pk (k : kind) (rows : list obj) : Z :=
  1 + foldr (λ r m, if bool_decide (cls r = k)
                    then Z.max (default 0 (id r)) m else m) 0 rows.

Definition update_rows (p : obj → bool) (f : obj → obj) (rows : list obj)
  : list obj :=
  (λ r, if p r then f r else r) <$> rows.

Definition upsert (row : obj) (rows : list obj) : list obj :=
  if existsb (is_row (cls row) (id row)) rows
  then update_rows (is_row (cls row) (id row)) (λ _, row) rows
  else rows ++ [row].

(** [update_cluster_hash], connected to [post_save] of [Cluster]. *)
Definition update_cluster_hash (instance : obj) : M unit :=
  modify_db (update_rows
    (λ r, (bool_decide (cls r = VirtualMachine) || bool_decide (cls r = Job))
          && bool_decide (cluster_id r = id instance))
    (set_cluster_hash (hash instance))) ;;
  emit (UpdateClusterHash (id instance) (hash instance)).

(** The columns [hostname] and [slug] of [Cluster] are declared
    [unique=True]: a row [r] stands against writing [o] under the key [pk]
    when it is another cluster with the same [hostname] or [slug]. *)
Definition clashes (o : obj) (pk : Z) (r : obj) : bool :=
  bool_decide (cls o = Cluster) && bool_decide (cls r = Cluster)
  && negb (bool_decide (id r = Some pk))
  && (bool_decide (hostname r = hostname o) || bool_decide (slug r = slug o)).

(** [models.Model.save]: update the row with this key or insert a new
    one, then run the [post_save] handlers of the class. The store refuses
    a write that breaks a unique column: nothing is written then, and the
    object keeps the key it had. *)
Definition Model_save : M unit :=
  o ← get_self;
  w ← get_world;
  let pk := match id o with Some n => n | None => fresh_pk (cls o) (db w) end in
  if existsb (clashes o pk) (db w) then raise IntegrityError
  else
    modify (set_id (Some pk)) ;;
    o' ← get_self;
    modify_db (upsert (row_of o')) ;;
    emit (SaveRow (row_of o')) ;;
    match cls o' with
    | Cluster => update_cluster_hash o'
    | _ => mret ()
    end.

(** [self.__class__.objects.filter(pk=self.id).update(cached=self.cached)] *)
Definition update_cached : M unit :=
  o ← get_self;
  modify_db (update_rows (is_row (cls o) (id o)) (set_cached (cached o))) ;;
  emit (UpdateCached (cls o) (id o) (cached o)).

(** [self.__class__.objects.filter(pk=self.id).update(ignore_cache=False)] *)
Definition update_ignore_cache : M unit :=
  o ← get_self;
  modify_db (update_rows (is_row (cls o) (id o)) (set_ignore_cache false)) ;;
  emit (UpdateIgnoreCache (cls o) (id o)).

(** ** Iteration and lists *)

Fixpoint chars (s : string) : list value :=
  match s with
  | EmptyString => []
  | String c s' => VStr (String c EmptyString) :: chars s'
  end.

(** The elements [for x in v] visits; numbers and [None] are not iterable. *)
Definition iter_value (v : value) : res (list value) :=
  match v with
  | VList xs => Ok xs
  | VStr s => Ok (chars s)
  | VDict d => Ok ((λ kv, VStr kv.1) <$> map_to_list d)
  | _ => Raise TypeError
  end.

Definition is_str (t : string) (v : value) : bool :=
  match v with VStr s => String.eqb s t | _ => false end.

(** [xs.remove(t)]: drop the first element equal to the string [t]. *)
Fixpoint remove_first (t : string) (xs : list value) : option (list value) :=
  match xs with
  | [] => None
  | x :: xs' => if is_str t x then Some xs' else (x ::.) <$> remove_first t xs'
  end.

Definition opt_or {A} (e : exn) (x : option A) : res A :=
  match x with Some a => Ok a | None => Raise e end.

Global Instance res_ret : MRet res := λ A a, Ok a.
Global Instance res_bind : MBind res := λ A B f r,
  match r with Ok a => f a | Raise e => Raise e end.

(** ** The cached cluster object and its subclasses *)

Section Methods.
Context (E : env).

(** The [info] property, getter: decode [serialized_info] on first use. *)
Definition info : M value :=
  o ← get_self;
  match __info o, serialized_info o with
  | VNone, Some blob => modify (set_info blob)
  | _, _ => mret ()
  end ;;
  o' ← get_self;
  mret (__info o').

(** [CachedClusterObject.parse_transient_info] *)
Definition CachedClusterObject_parse_transient_info : M unit :=
  info_ ← info;
  c ← lift (getitem info_ "ctime");
  match c with
  | VNone => mret ()
  | _ => t ← lift (fromtimestamp c); modify (set_ctime (Some t))
  end.

(** [CachedClusterObject.parse_persistent_info] *)
Definition CachedClusterObject_parse_persistent_info : M unit :=
  o ← get_self;
  t ← lift (getitem (__info o) "mtime" ≫= fromtimestamp);
  modify (set_mtime (Some t)).

(** [Job.parse_persistent_info] *)
Definition Job_parse_persistent_info : M unit :=
  o ← get_self;
  if ignore_cache o then
    info_ ← info;
    st ← lift (getitem info_ "status");
    modify (set_status st) ;;
    st' ← lift (getitem info_ "status");
    if is_str "error" st' || is_str "success" st' then
      modify (set_ignore_cache false) ;;
      update_ignore_cache
    else mret ()
  else mret ().

(** [Job.parse_transient_info] *)
Definition Job_parse_transient_info : M unit := mret ().

(** [disk_size = 0; for disk in sizes: disk_size += disk] *)
Fixpoint sum_disks (acc : Z) (sizes : list value) : res Z :=
  match sizes with
  | [] => Ok acc
  | VNum n :: rest => sum_disks (acc + n) rest
  | _ :: _ => Raise TypeError
  end.

(** [VirtualMachine.parse_persistent_info] *)
Definition VirtualMachine_parse_persistent_info : M unit :=
  CachedClusterObject_parse_persistent_info ;;
  i1 ← info;
  m ← lift (getitem i1 "beparams" ≫= λ be, getitem be "memory");
  modify (set_ram m) ;;
  i2 ← info;
  v ← lift (getitem i2 "beparams" ≫= λ be, getitem be "vcpus");
  modify (set_virtual_cpus v) ;;
  i3 ← info;
  sizes ← lift (getitem i3 "disk.sizes");
  disks ← lift (iter_value sizes);
  total ← lift (sum_disks 0 disks);
  modify (set_disk_size (VNum total)) ;;
  i4 ← info;
  os ← lift (getitem i4 "os");
  modify (set_operating_system os).

Definition parse_transient_info : M unit :=
  o ← get_self;
  match cls o with
  | Job => Job_parse_transient_info
  | _ => CachedClusterObject_parse_transient_info
  end.

Definition parse_persistent_info : M unit :=
  o ← get_self;
  match cls o with
  | Job => Job_parse_persistent_info
  | VirtualMachine => VirtualMachine_parse_persistent_info
  | _ => CachedClusterObject_parse_persistent_info
  end.

(** [CachedClusterObject.parse_info] *)
Definition parse_info : M unit :=
  parse_transient_info ;;
  parse_persistent_info.

(** The [info] property, setter. *)
Definition set_info_property (v : value) : M unit :=
  modify (set_info v) ;;
  parse_info ;;
  modify (set_serialized_info None).

(** [CachedClusterObject.save] *)
Definition CachedClusterObject_save : M unit :=
  o ← get_self;
  match serialized_info o with
  | None =>
      emit (Pickle (__info o)) ;;
      modify (set_serialized_info (Some (__info o)))
  | Some _ => mret ()
  end ;;
  Model_save.

(** [TestModel.save] *)
Definition TestModel_save : M unit :=
  modify (set_saved true) ;;
  CachedClusterObject_save.

(** [if self.id is None: self.cluster_hash = self.cluster.hash], on an
    instance that holds its cluster object or was given no cluster. *)
Definition set_cluster_hash_when_new : M unit :=
  o ← get_self;
  match id o with
  | None =>
      h ← lift (opt_or DoesNotExist (cluster_dot_hash o));
      modify (set_cluster_hash h)
  | Some _ => mret ()
  end.

(** [Job.save] *)
Definition Job_save : M unit :=
  set_cluster_hash_when_new ;;
  CachedClusterObject_save.

(** [Cluster.create_hash] *)
Definition create_hash (o : obj) : string :=
  sha1_hexdigest E
    (fmt_opt (username o) +:+ fmt_opt (password o) +:+ hostname o
     +:+ pretty (port o)).

(** [Cluster.save] *)
Definition Cluster_save : M unit :=
  o ← get_self;
  modify (set_hash (create_hash o)) ;;
  CachedClusterObject_save.

(** The owner tags of the loop in [VirtualMachine.save]: whether a tag for
    the current owner was found, and the other owner tags, to remove. *)
Definition scan_tag (owner : option Z) (acc : bool * list string) (tag : value)
  : res (bool * list string) :=
  match tag with
  | VStr t =>
      if String.prefix (OWNER_TAG E) t then
        match py_int (string_drop (String.length (OWNER_TAG E)) t) with
        | Some i =>
            if bool_decide (Some i = owner) then Ok (true, acc.2)
            else Ok (acc.1, acc.2 ++ [t])
        | None => Raise ValueError
        end
      else Ok acc
  | _ => Raise AttributeError
  end.

Fixpoint scan_tags (owner : option Z) (acc : bool * list string)
    (tags : list value) : res (bool * list string) :=
  match tags with
  | [] => Ok acc
  | tag :: rest =>
      match scan_tag owner acc tag with
      | Ok acc' => scan_tags owner acc' rest
      | Raise e => Raise e
      end
  end.

(** A call through [self.rapi] that changes the remote side. *)
Definition rapi_call (call : event) (failure : option exn) : M unit :=
  emit call ;;
  match failure with
  | Some e => raise e
  | None => mret ()
  end.

(** [info_['tags'].remove(tag)], on the dictionary [self.info] holds. *)
Definition tags_remove (tag : string) : M unit :=
  o ← get_self;
  tags ← lift (getitem (__info o) "tags");
  match __info o, tags with
  | VDict d, VList xs =>
      xs' ← lift (opt_or ValueError (remove_first tag xs));
      modify (set_info (VDict (<["tags" := VList xs']> d)))
  | _, _ => raise AttributeError
  end.

(** [self.info['tags'].append(tag)] *)
Definition tags_append (tag : string) : M unit :=
  info_ ← info;
  tags ← lift (getitem info_ "tags");
  match info_, tags with
  | VDict d, VList xs =>
      modify (set_info (VDict (<["tags" := VList (xs ++ [VStr tag])]> d)))
  | _, _ => raise AttributeError
  end.

(** The tag of an owner: ['%s%s' % (constants.OWNER_TAG, owner_id)]. *)
Definition owner_tag (owner : Z) : string := OWNER_TAG E +:+ pretty owner.

(** The block under [if info_:] in [VirtualMachine.save]. *)
Definition update_owner_tag (info_ : value) (o : obj) : M unit :=
  tags ← lift (getitem info_ "tags");
  elems ← lift (iter_value tags);
  fr ← lift (scan_tags (owner_id o) (false, []) elems);
  match fr.2 with
  | [] => mret ()
  | _ :: _ =>
      rapi_call (DeleteInstanceTags (hostname o) fr.2) (delete_tags_error E) ;;
      for_each fr.2 tags_remove
  end ;;
  if truthy_id (owner_id o) && negb fr.1 then
    let tag := owner_tag (default 0 (owner_id o)) in
    rapi_call (AddInstanceTags (hostname o) [tag]) (add_tags_error E) ;;
    tags_append tag
  else mret ().

(** [VirtualMachine.save] *)
Definition VirtualMachine_save : M unit :=
  set_cluster_hash_when_new ;;
  info_ ← info;
  o ← get_self;
  (if truthy info_ then update_owner_tag info_ o else mret ()) ;;
  CachedClusterObject_save.

Definition save : M unit :=
  o ← get_self;
  match cls o with
  | TestModel => TestModel_save
  | Job => Job_save
  | VirtualMachine => VirtualMachine_save
  | Cluster => Cluster_save
  end.

(** [self._refresh()]: each subclass asks the remote API for its own
    payload; the answer is the one the surroundings give. *)
Definition _refresh : M value :=
  o ← get_self;
  emit (Fetch (cls o) (id o)) ;;
  lift (remote E).

(** The block under [try:] in [CachedClusterObject.refresh]. *)
Definition refresh_try : M unit :=
  info_ ← _refresh;
  mtime_ ← lift (getitem info_ "mtime" ≫= fromtimestamp);
  modify (set_cached (Some (now E))) ;;
  o ← get_self;
  match mtime o with
  | Some old => if old <? mtime_ then set_info_property info_ ;; save
                else update_cached
  | None => set_info_property info_ ;; save
  end ;;
  modify (set_error None).

(** [CachedClusterObject.refresh] *)
Definition refresh : M unit :=
  try_except_api refresh_try (λ msg, modify (set_error (Some msg))).

(** [CachedClusterObject.load_info] *)
Definition CachedClusterObject_load_info : M unit :=
  o ← get_self;
  if truthy_id (id o) then
    if ignore_cache o then refresh
    else
      match cached o with
      | None => refresh
      | Some c =>
          if c + timedelta_ms (LAZY_CACHE_REFRESH E) <? now E then refresh
          else
            info_ ← info;
            if truthy info_ then parse_transient_info
            else modify (set_error (Some "No Cached Info"))
      end
  else mret ().

(** [Job.load_info] *)
Definition Job_load_info : M unit :=
  o ← get_self;
  if truthy_id (id o) && ignore_cache o then
    info_ ← _refresh;
    set_info_property info_ ;;
    save
  else mret ().

Definition load_info : M unit :=
  o ← get_self;
  match cls o with
  | Job => Job_load_info
  | _ => CachedClusterObject_load_info
  end.

End Methods.

(** ** Reasoning about methods *)

(** A method keeps [I] when the receiver satisfies [I] after it, returned
    or raised, whenever it did before. *)
Definition keeps {A} (I : obj → Prop) (m : M A) : Prop :=
  ∀ st, I st.1 → I (m st).2.1.

(** A method is quiet when it raises no [GanetiApiError]. *)
Definition quiet {A} (m : M A) : Prop :=
  ∀ st e st', m st = (Raise e, st') → is_api_error e = false.

(** What holds of the receiver whenever a method returns. *)
Definition returns_with {A} (Q : obj → Prop) (m : M A) : Prop :=
  ∀ st a st', m st = (Ok a, st') → Q st'.1.

(** ** Which exceptions the methods raise *)

(** No remote call of this environment fails with an API error. *)
Definition calm (E : env) : Prop :=
  (∀ e, remote E = Raise e → is_api_error e = false)
  ∧ (∀ e, delete_tags_error E = Some e → is_api_error e = false)
  ∧ (∀ e, add_tags_error E = Some e → is_api_error e = false).

(** ** Refreshing *)

(** The world once the fetch has been issued. *)
Definition fetched (s : obj) (w : world) : world :=
  {| db := db w; trace := trace w ++ [Fetch (cls s) (id s)] |}.

(** ** What parsing and saving leave alone *)

(** Parsing [info] writes the parsed attributes and nothing else. *)
Definition parse_frame (o0 o : obj) : Prop :=
  cls o = cls o0 ∧ id o = id o0 ∧ serialized_info o = serialized_info o0
  ∧ cached o = cached o0 ∧ error o = error o0 ∧ saved o = saved o0
  ∧ hostname o = hostname o0 ∧ owner_id o = owner_id o0.

(** Saving leaves the cache times, the flag, [error] and what was parsed. *)
Definition save_frame (o0 o : obj) : Prop :=
  cls o = cls o0 ∧ cached o = cached o0 ∧ mtime o = mtime o0
  ∧ ctime o = ctime o0 ∧ error o = error o0
  ∧ ignore_cache o = ignore_cache o0 ∧ status o = status o0
  ∧ hostname o = hostname o0 ∧ owner_id o = owner_id o0.

(** The test of [CachedClusterObject.load_info] for refreshing. *)
Definition needs_refresh (E : env) (s : obj) : bool :=
  ignore_cache s ||
  match cached s with
  | None => true
  | Some c => c + timedelta_ms (LAZY_CACHE_REFRESH E) <? now E
  end.

(** ** Loading on instantiation *)

(** The receiver once the [info] getter has run: [__info] decoded from
    [serialized_info] when it was [None]. *)
Definition loaded (s : obj) : obj :=
  match __info s, serialized_info s with
  | VNone, Some blob => set_info blob s
  | _, _ => s
  end.

(** ** Jobs *)

Definition terminal (st : value) : bool := is_str "error" st || is_str "success" st.

(** The key [Model.save] writes under. *)
Definition pk_of (s : obj) (w : world) : Z :=
  match id s with Some n => n | None => fresh_pk (cls s) (db w) end.

(** Whether the store refuses the row of [s]. *)
Definition refused (s : obj) (w : world) : bool :=
  existsb (clashes s (pk_of s w)) (db w).

Definition saved_row (s : obj) (w : world) : obj :=
  row_of (set_id (Some (pk_of s w)) s).

(** A pending job after [Job.load_info] has fetched [p] with status [st]. *)
Definition Job_after (s : obj) (p st : value) : obj :=
  set_serialized_info (Some p)
    ((if terminal st then set_ignore_cache false else λ o, o)
       (set_status st (set_info p s))).

Definition Job_world_after (s : obj) (w : world) (p st : value) : world :=
  {| db := upsert (row_of (Job_after s p st))
             (if terminal st
              then update_rows (is_row Job (id s)) (set_ignore_cache false) (db w)
              else db w);
     trace := trace w ++ Fetch Job (id s)
                :: (if terminal st then [UpdateIgnoreCache Job (id s)] else [])
                ++ [Pickle p; SaveRow (row_of (Job_after s p st))] |}.

(** ** Owner tags of a virtual machine *)

(** The owner a tag names: [Some (Some i)] for an owner tag of [i],
    [Some None] for a tag that is no owner tag, [None] where [int] fails. *)
Definition tag_owner (E : env) (t : string) : option (option Z) :=
  if String.prefix (OWNER_TAG E) t
  then Some <$> py_int (string_drop (String.length (OWNER_TAG E)) t)
  else Some None.

(** An owner tag of another owner than [owner]: the loop removes it. *)
Definition stale_tag (E : env) (owner : option Z) (t : string) : bool :=
  match tag_owner E t with
  | Some (Some i) => negb (bool_decide (Some i = owner))
  | _ => false
  end.

(** An owner tag of [owner]: the loop finds it. *)
Definition current_tag (E : env) (owner : option Z) (t : string) : bool :=
  match tag_owner E t with
  | Some (Some i) => bool_decide (Some i = owner)
  | _ => false
  end.

(** [for tag in rs: xs.remove(tag)] *)
Fixpoint remove_each (rs : list string) (xs : list value) : option (list value) :=
  match rs with
  | [] => Some xs
  | r :: rs' => remove_first r xs ≫= remove_each rs'
  end.

(** What [VirtualMachine.save] does about the owner tag, as data: the
    tags to delete, whether a tag is added, and the tags afterwards. *)
Definition tags_to_delete (E : env) (o : obj) (tags : list string) : list string :=
  List.filter (stale_tag E (owner_id o)) tags.

Definition adds_tag (E : env) (o : obj) (tags : list string) : bool :=
  truthy_id (owner_id o) && negb (existsb (current_tag E (owner_id o)) tags).

Definition tags_after (E : env) (o : obj) (tags : list string) : list string :=
  List.filter (λ t, negb (stale_tag E (owner_id o) t)) tags
  ++ (if adds_tag E o tags then [owner_tag E (default 0 (owner_id o))] else []).

Definition tag_calls (E : env) (o : obj) (tags : list string) : list event :=
  (match tags_to_delete E o tags with
   | [] => []
   | rs => [DeleteInstanceTags (hostname o) rs]
   end)
  ++ (if adds_tag E o tags
      then [AddInstanceTags (hostname o) [owner_tag E (default 0 (owner_id o))]]
      else []).

(** The receiver with [serialized_info] filled in as [save] does. *)
Definition encoded (s : obj) : obj :=
  match serialized_info s with
  | None => set_serialized_info (Some (__info s)) s
  | Some _ => s
  end.

Definition pickled (s : obj) : list event :=
  match serialized_info s with
  | None => [Pickle (__info s)]
  | Some _ => []
  end.

Definition is_tag_call (ev : event) : bool :=
  match ev with
  | DeleteInstanceTags _ _ | AddInstanceTags _ _ => true
  | _ => false
  end.

(** ** A refresh that finds a change *)

(** What each [save] does before [CachedClusterObject.save]. *)
Definition before_save (E : env) : M unit :=
  o ← get_self;
  match cls o with
  | TestModel => modify (set_saved true)
  | Job => set_cluster_hash_when_new
  | VirtualMachine =>
      set_cluster_hash_when_new ;;
      info_ ← info;
      o ← get_self;
      if truthy info_ then update_owner_tag E info_ o else mret ()
  | Cluster => modify (set_hash (create_hash E o))
  end.

(** The [post_save] handler of the class of [o], on the world. *)
Definition post_save (o : obj) (w : world) : world :=
  match cls o with
  | Cluster =>
      {| db := update_rows
                 (λ r, (bool_decide (cls r = VirtualMachine)
                        || bool_decide (cls r = Job))
                       && bool_decide (cluster_id r = id o))
                 (set_cluster_hash (hash o)) (db w);
         trace := trace w ++ [UpdateClusterHash (id o) (hash o)] |}
  | _ => w
  end.

(** What the part of [save] before the encoding leaves alone. *)
Definition before_frame (o0 o : obj) : Prop :=
  cls o = cls o0 ∧ id o = id o0 ∧ serialized_info o = serialized_info o0
  ∧ cached o = cached o0 ∧ mtime o = mtime o0 ∧ ctime o = ctime o0
  ∧ error o = error o0 ∧ ignore_cache o = ignore_cache o0.

(** The receiver once [parse_transient_info] has read the [ctime] entry
    [c] of the payload, [tc] being the time it stands for when it is not
    [None]. *)
Definition with_ctime (c : value) (tc : datetime) (o : obj) : obj :=
  match c with VNone => o | _ => set_ctime (Some tc) o end.

(** ** Inventory synchronisation *)

(** An instance as the constructor leaves it when given no field. *)
Definition instance (k : kind) : obj :=
  {| cls := k; id := None; serialized_info := None; cached := None;
     ignore_cache := false; __info := VNone; error := None; mtime := None;
     ctime := None; status := VNone; saved := false; hostname := "";
     owner_id := None; ram := VNum (-1); virtual_cpus := VNum (-1);
     disk_size := VNum (-1); operating_system := VStr ""; cluster_id := None;
     cluster_hash := ""; cluster_dot_hash := None; hash := "";
     username := None; password := None; port := 5080; slug := "" |}.

(** [VirtualMachine(cluster=c, hostname=h)], before [load_info] runs. *)
Definition new_virtual_machine (c : obj) (h : string) : obj :=
  {| cls := VirtualMachine; id := None; serialized_info := None; cached := None;
     ignore_cache := false; __info := VNone; error := None; mtime := None;
     ctime := None; status := VNone; saved := false; hostname := h;
     owner_id := None; ram := VNum (-1); virtual_cpus := VNum (-1);
     disk_size := VNum (-1); operating_system := VStr "";
     cluster_id := id c; cluster_hash := ""; cluster_dot_hash := Some (hash c);
     hash := ""; username := None; password := None; port := 5080;
     slug := "" |}.

(** The rows of [c.virtual_machines]. *)
Definition is_vm_of (c : obj) (r : obj) : bool :=
  bool_decide (cls r = VirtualMachine)
  && match id c with
     | Some n => bool_decide (cluster_id r = Some n)
     | None => false
     end.

Definition virtual_machines (c : obj) (rows : list obj) : list obj :=
  List.filter (is_vm_of c) rows.

Definition member (x : string) (xs : list string) : bool := bool_decide (x ∈ xs).

Section Reconciler.
Context (E : env).

(** [Cluster.instances] *)
Definition instances : M (list string) :=
  try_except_api (emit GetInstances ;; lift (remote_instances E))
                 (λ _, mret []).

(** [Cluster.sync_virtual_machines]. The query set [db] is evaluated by its
    first use, which comes before any insert, and keeps that result. *)
Definition sync_virtual_machines (remove : bool) : M unit :=
  ganeti ← instances;
  self ← get_self;
  w ← get_world;
  let db_ := hostname <$> virtual_machines self (db w) in
  for_each (List.filter (λ x, negb (member x db_)) ganeti)
    (λ h, on_object (new_virtual_machine self h) (load_info E ;; save E) ;;
          mret ()) ;;
  if remove then
    let missing_ganeti := List.filter (λ x, negb (member x ganeti)) db_ in
    match missing_ganeti with
    | [] => mret ()
    | _ :: _ =>
        modify_db (List.filter (λ r, negb (is_vm_of self r
                                           && member (hostname r) missing_ganeti))) ;;
        emit (DeleteRows (id self) missing_ganeti)
    end
  else mret ().

(** [Cluster.missing_in_ganeti] and [Cluster.missing_in_db] *)
Definition missing_in_ganeti : M (list string) :=
  ganeti ← instances;
  self ← get_self;
  w ← get_world;
  mret (List.filter (λ x, negb (member x ganeti))
          (hostname <$> virtual_machines self (db w))).

Definition missing_in_db : M (list string) :=
  ganeti ← instances;
  self ← get_self;
  w ← get_world;
  mret (List.filter (λ x, negb (member x (hostname <$> virtual_machines self (db w))))
          ganeti).

End Reconciler.

(** ** Synchronising the inventory *)

(** The row [sync_virtual_machines] inserts for the hostname [h]. *)
Definition vm_row (c : obj) (h : string) (pk : Z) : obj :=
  row_of (set_id (Some pk)
            (set_serialized_info (Some VNone)
               (set_cluster_hash (hash c) (new_virtual_machine c h)))).

(** The rows the loop of [sync_virtual_machines] inserts for [hs], the
    table being [rows] before. *)
Fixpoint inserted (c : obj) (hs : list string) (rows : list obj) : list obj :=
  match hs with
  | [] => []
  | h :: hs' =>
      let r := vm_row c h (fresh_pk VirtualMachine rows) in
      r :: inserted c hs' (rows ++ [r])
  end.

Definition save_events (rows : list obj) : list event :=
  flat_map (λ r, [Pickle VNone; SaveRow r]) rows.

(** An inserted row is a machine of the cluster, with a key and no owner. *)
Definition ownerless_vm_of (c : obj) (r : obj) : Prop :=
  cls r = VirtualMachine ∧ cluster_id r = id c ∧ owner_id r = None
  ∧ is_Some (id r) ∧ cluster_hash r = hash c.

(** The listing [Cluster.instances] returns: the remote one, or the empty
    list when the remote API fails with its own error. *)
Definition listing (E : env) : option (list string) :=
  match remote_instances E with
  | Ok R => Some R
  | Raise (GanetiApiError _) => Some []
  | Raise _ => None
  end.

(** The hostnames to insert and to delete, as the method computes them. *)
Definition local_hostnames (c : obj) (rows : list obj) : list string :=
  hostname <$> virtual_machines c rows.

Definition to_insert (c : obj) (rows : list obj) (R : list string) : list string :=
  List.filter (λ x, negb (member x (local_hostnames c rows))) R.

Definition to_delete (c : obj) (rows : list obj) (R : list string) : list string :=
  List.filter (λ x, negb (member x R)) (local_hostnames c rows).

Definition kept (c : obj) (gone : list string) (r : obj) : bool :=
  negb (is_vm_of c r && member (hostname r) gone).

(** The world after [sync_virtual_machines]. *)
Definition synced (c : obj) (w : world) (R : list string) (remove : bool) : world :=
  let rows := db w ++ inserted c (to_insert c (db w) R) (db w) in
  let tr := trace w ++ GetInstances
              :: save_events (inserted c (to_insert c (db w) R) (db w)) in
  if remove then
    match to_delete c (db w) R with
    | [] => {| db := rows; trace := tr |}
    | gone => {| db := List.filter (kept c gone) rows;
                 trace := tr ++ [DeleteRows (id c) gone] |}
    end
  else {| db := rows; trace := tr |}.

(** ** The connection registry *)

Module Registry.

(** A row of [values_list('hash','hostname','port','username','password')]. *)
Record credentials := {
  c_hash : string;
  c_hostname : string;
  c_port : Z;
  c_username : option string;
  c_password : option string
}.

(** A [GanetiRapiClient]: what it was constructed from, and [serial], its
    identity as an object, the number of clients constructed before it. *)
Record client := {
  serial : nat;
  host : string;
  rapi_port : Z;
  user : option string;
  client_password : option string
}.

(** The two module-level dictionaries, and how many clients have been
    constructed. *)
Record registry := {
  RAPI_CACHE : gmap string client;
  RAPI_CACHE_HASHES : gmap Z string;
  constructed : nat
}.

Definition empty : registry :=
  {| RAPI_CACHE := ∅; RAPI_CACHE_HASHES := ∅; constructed := 0 |}.

(** The [cluster] argument: a [Cluster] object, of which the [id] is
    taken, or an id. *)
Inductive cluster_ref :=
| ClusterObject (cluster_id : option Z)
| ClusterId (cluster_id : Z).

Definition resolve (c : cluster_ref) : option Z :=
  match c with
  | ClusterObject i => i
  | ClusterId i => Some i
  end.

(** [x if x else None] *)
Definition or_none (x : option string) : option string :=
  match x with
  | Some s => if String.eqb s "" then None else Some s
  | None => None
  end.

(** [get_rapi]. [clusters] is the table of clusters, by id; the
    constructor of the client is taken to return. *)
Definition get_rapi (clusters : gmap Z credentials) (hash : string)
    (cluster : cluster_ref) (st : registry) : res client * registry :=
  match RAPI_CACHE st !! hash with
  | Some rapi => (Ok rapi, st)
  | None =>
      match resolve cluster with
      | None => (Raise ValueError, st)
      | Some cluster =>
          match clusters !! cluster with
          | None => (Raise ValueError, st)
          | Some credentials =>
              let hash := c_hash credentials in
              match RAPI_CACHE st !! hash with
              | Some rapi => (Ok rapi, st)
              | None =>
                  let evicted :=
                    match RAPI_CACHE_HASHES st !! cluster with
                    | Some old =>
                        match RAPI_CACHE st !! old with
                        | Some _ => Ok (delete old (RAPI_CACHE st))
                        | None => Raise (KeyError old)
                        end
                    | None => Ok (RAPI_CACHE st)
                    end in
                  match evicted with
                  | Raise e => (Raise e, st)
                  | Ok cache =>
                      let rapi :=
                        {| serial := constructed st;
                           host := c_hostname credentials;
                           rapi_port := c_port credentials;
                           user := or_none (c_username credentials);
                           client_password := or_none (c_password credentials) |} in
                      (Ok rapi,
                       {| RAPI_CACHE := <[hash := rapi]> cache;
                          RAPI_CACHE_HASHES :=
                            <[cluster := hash]> (RAPI_CACHE_HASHES st);
                          constructed := S (constructed st) |})
                  end
              end
          end
      end
  end.

(** [clear_rapi_cache] *)
Definition clear_rapi_cache (st : registry) : registry :=
  {| RAPI_CACHE := ∅; RAPI_CACHE_HASHES := ∅; constructed := constructed st |}.

(** The states the registry goes through, whatever the table of clusters
    holds at each call. *)
Inductive reachable : registry → Prop :=
| reach_empty : reachable empty
| reach_get_rapi clusters hash cluster st r st' :
    reachable st → get_rapi clusters hash cluster st = (r, st') → reachable st'
| reach_clear st : reachable st → reachable (clear_rapi_cache st).

(** What holds of every such state: the fingerprint recorded for a
    cluster is cached, the cached clients were constructed, and no client
    is cached under two fingerprints. *)
Record consistent (st : registry) : Prop := {
  recorded_live : ∀ cluster hash,
    RAPI_CACHE_HASHES st !! cluster = Some hash → is_Some (RAPI_CACHE st !! hash);
  recorded_once : ∀ c1 c2 hash,
    RAPI_CACHE_HASHES st !! c1 = Some hash →
    RAPI_CACHE_HASHES st !! c2 = Some hash → c1 = c2;
  serial_below : ∀ hash rapi,
    RAPI_CACHE st !! hash = Some rapi → (serial rapi < constructed st)%nat;
  serial_once : ∀ h1 h2 r1 r2,
    RAPI_CACHE st !! h1 = Some r1 → RAPI_CACHE st !! h2 = Some r2 →
    serial r1 = serial r2 → h1 = h2
}.

End Registry.

(** ** Sample data *)

Module Sample.

Definition world0 : world := {| db := []; trace := [] |}.

(** An environment with the clock at [1000] seconds, a window of ten
    minutes, and [answer] as the remote API's answer to a fetch. *)
Definition env_with (answer : res value) : env :=
  {| now := 1000000000;
     remote := answer;
     remote_instances := Ok ["a"; "b"; "c"];
     delete_tags_error := None;
     add_tags_error := None;
     LAZY_CACHE_REFRESH := 600000;
     OWNER_TAG := "gwm:owner:";
     sha1_hexdigest := λ s, s |}.

Definition stored (k : kind) (pk : Z) : obj := set_id (Some pk) (instance k).

(** A payload of a cluster or of [TestModel]. *)
Definition payload (mtime_ : Z) : value :=
  VDict (list_to_map [("mtime", VNum mtime_); ("ctime", VNone)]).

Definition job_payload (st : string) : value :=
  VDict (list_to_map [("status", VStr st)]).

Definition vm_payload (mtime_ : Z) (tags : list string) : value :=
  VDict (list_to_map
    [("mtime", VNum mtime_); ("ctime", VNone);
     ("tags", VList (VStr <$> tags));
     ("beparams", VDict (list_to_map [("memory", VNum 512); ("vcpus", VNum 2)]));
     ("disk.sizes", VList [VNum 1024; VNum 2048]);
     ("os", VStr "debian")]).

(** A [TestModel] refreshed before, at [mtime] [900] seconds. *)
Definition model_seen : obj :=
  set_mtime (Some 900000000) (set_info (payload 900) (stored TestModel 1)).

(** A stored virtual machine of [owner], with [inf] as its [info]. *)
Definition vm_with (owner : Z) (inf : value) : obj :=
  {| cls := VirtualMachine; id := Some 5; serialized_info := None;
     cached := None; ignore_cache := false; __info := inf; error := None;
     mtime := None; ctime := None; status := VNone; saved := false;
     hostname := "vm1"; owner_id := Some owner; ram := VNum (-1);
     virtual_cpus := VNum (-1); disk_size := VNum (-1);
     operating_system := VStr ""; cluster_id := Some 1; cluster_hash := "h";
     cluster_dot_hash := Some "h"; hash := ""; username := None;
     password := None; port := 5080; slug := "" |}.

Definition vm_of (owner : Z) (tags : list string) : obj :=
  vm_with owner (vm_payload 900 tags).

(** An environment in which [DeleteInstanceTags] fails. *)
Definition env_delete_fails (answer : res value) : env :=
  {| now := 1000000000;
     remote := answer;
     remote_instances := Ok ["a"; "b"; "c"];
     delete_tags_error := Some (GanetiApiError "unreachable");
     add_tags_error := None;
     LAZY_CACHE_REFRESH := 600000;
     OWNER_TAG := "gwm:owner:";
     sha1_hexdigest := λ s, s |}.

Definition pending_job : obj := set_ignore_cache true (stored Job 7).

Definition cluster1 : obj := set_hash "h" (stored Cluster 1).

End Sample.

(** ** Sample data for the registry *)

Module RegistrySample.
Import Registry.

Definition credentials_v1 : credentials :=
  {| c_hash := "fingerprint-1"; c_hostname := "ganeti.example.org";
     c_port := 5080; c_username := Some "admin"; c_password := Some "old" |}.

Definition credentials_v2 : credentials :=
  {| c_hash := "fingerprint-2"; c_hostname := "ganeti.example.org";
     c_port := 5080; c_username := Some "admin"; c_password := Some "new" |}.

(** The registry after a first call for cluster [1]. *)
Definition after_first_call : registry :=
  (get_rapi {[ 1 := credentials_v1 ]} "fingerprint-1" (ClusterId 1) empty).2.

End RegistrySample.

(** ** Decimal numerals *)

(** Whether every character of a string passes a test. *)
Fixpoint all_chars (P : ascii → bool) (s : string) : bool :=
  match s with
  | EmptyString => true
  | String c s' => P c && all_chars P s'
  end.

Definition is_digit (c : ascii) : bool :=
  match digit_of c with Some _ => true | None => false end.

(** ** Queries on the record store that may fail

    What a query or a save of the object-relational layer may raise: the
    error of a query that finds several rows, and the exceptions above. *)
Inductive failure :=
| MultipleObjectsReturned
| Python (e : exn).

Inductive outcome (A : Type) :=
| Done (a : A)
| Failed (e : failure).
Arguments Done {A} a.
Arguments Failed {A} e.

(** ** Quotas

    [Cluster.get_quota] and [Cluster.set_quota], over the table of [Quota]
    rows. A nullable integer column is an [option Z]; a dictionary of such
    values is a finite map from strings. *)

Module Quotas.

(** The columns of a cluster that [get_quota] reads. *)
Module Cluster.
Record columns := {
  id : Z;
  ram : option Z;
  disk : option Z;
  virtual_cpus : option Z
}.
End Cluster.

(** A [Quota], as a row and as the object in memory; [id] is [None]
    before the first save. *)
Module Quota.
Record row := {
  id : option Z;
  user_id : option Z;
  cluster_id : option Z;
  ram : option Z;
  disk : option Z;
  virtual_cpus : option Z
}.
End Quota.

(** [{'default':1, 'ram':self.ram, 'disk':self.disk,
      'virtual_cpus':self.virtual_cpus}] *)
Definition default_quota (self : Cluster.columns) : gmap string (option Z) :=
  {[ "default" := Some 1; "ram" := Cluster.ram self;
     "disk" := Cluster.disk self;
     "virtual_cpus" := Cluster.virtual_cpus self ]}.

(** A row of [query.values('ram', 'disk', 'virtual_cpus')]. *)
Definition values (q : Quota.row) : gmap string (option Z) :=
  {[ "ram" := Quota.ram q; "disk" := Quota.disk q;
     "virtual_cpus" := Quota.virtual_cpus q ]}.

(** [Quota.objects.filter(cluster=self, user=user)] *)
Definition matches (cluster user : Z) (q : Quota.row) : bool :=
  bool_decide (Quota.cluster_id q = Some cluster)
  && bool_decide (Quota.user_id q = Some user).

(** [Cluster.get_quota]; [user] is the key of the [ClusterUser]. *)
Definition get_quota (self : Cluster.columns) (user : option Z) (rows : list Quota.row)
  : outcome (gmap string (option Z)) :=
  match user with
  | None => Done (default_quota self)
  | Some user =>
      match List.filter (matches (Cluster.id self) user) rows with
      | [] => Done (default_quota self)
      | [quota] => Done (<["default" := Some 0]> (values quota))
      | _ :: _ :: _ => Failed (Python ValueError)
      end
  end.

(** [quota.__dict__.update(values)]: the entries named after a column
    replace it, the others become attributes that no save writes. *)
Definition update (vals : gmap string (option Z)) (q : Quota.row) : Quota.row :=
  {| Quota.id := default (Quota.id q) (vals !! "id");
     Quota.user_id := default (Quota.user_id q) (vals !! "user_id");
     Quota.cluster_id := default (Quota.cluster_id q) (vals !! "cluster_id");
     Quota.ram := default (Quota.ram q) (vals !! "ram");
     Quota.disk := default (Quota.disk q) (vals !! "disk");
     Quota.virtual_cpus := default (Quota.virtual_cpus q) (vals !! "virtual_cpus") |}.

Definition has_id (k : Z) (q : Quota.row) : bool := bool_decide (Quota.id q = Some k).

Definition fresh_id (rows : list Quota.row) : Z :=
  1 + foldr (λ q m, Z.max (default 0 (Quota.id q)) m) 0 rows.

Definition with_id (k : Z) (q : Quota.row) : Quota.row :=
  {| Quota.id := Some k; Quota.user_id := Quota.user_id q;
     Quota.cluster_id := Quota.cluster_id q; Quota.ram := Quota.ram q;
     Quota.disk := Quota.disk q; Quota.virtual_cpus := Quota.virtual_cpus q |}.

(** [quota.save()]: the two foreign keys are not nullable; a row with the
    key of the object is replaced, otherwise one is inserted. *)
Definition Quota_save (q : Quota.row) (rows : list Quota.row)
  : outcome Quota.row * list Quota.row :=
  match Quota.user_id q, Quota.cluster_id q with
  | Some _, Some _ =>
      match Quota.id q with
      | Some k =>
          if existsb (has_id k) rows
          then (Done q, (λ r, if has_id k r then q else r) <$> rows)
          else (Done q, rows ++ [q])
      | None =>
          let q' := with_id (fresh_id rows) q in
          (Done q', rows ++ [q'])
      end
  | _, _ => (Failed (Python IntegrityError), rows)
  end.

(** [Quota(cluster=self, user=user)], with the defaults of the columns. *)
Definition new_quota (cluster user : Z) : Quota.row :=
  {| Quota.id := None; Quota.user_id := Some user;
     Quota.cluster_id := Some cluster; Quota.ram := Some 0;
     Quota.disk := Some 0; Quota.virtual_cpus := Some 0 |}.

(** [Quota.objects.get_or_create(cluster=self, user=user)] *)
Definition get_or_create (cluster user : Z) (rows : list Quota.row)
  : outcome Quota.row * list Quota.row :=
  match List.filter (matches cluster user) rows with
  | [] => Quota_save (new_quota cluster user) rows
  | [quota] => (Done quota, rows)
  | _ :: _ :: _ => (Failed MultipleObjectsReturned, rows)
  end.

(** [Cluster.set_quota] *)
Definition set_quota (self : Cluster.columns) (user : Z)
    (vals : option (gmap string (option Z))) (rows : list Quota.row)
  : outcome unit * list Quota.row :=
  match vals with
  | None =>
      (Done (), List.filter (λ q, negb (matches (Cluster.id self) user q)) rows)
  | Some vals =>
      match get_or_create (Cluster.id self) user rows with
      | (Done quota, rows1) =>
          match Quota_save (update vals quota) rows1 with
          | (Done _, rows2) => (Done (), rows2)
          | (Failed e, rows2) => (Failed e, rows2)
          end
      | (Failed e, rows1) => (Failed e, rows1)
      end
  end.

(** The quota of a user on a cluster as the table has it, the defaults of
    a new row when there is none. *)
Definition current (cluster user : Z) (rows : list Quota.row) : Quota.row :=
  match List.filter (matches cluster user) rows with
  | q :: _ => q
  | [] => new_quota cluster user
  end.

(** Values that name no key column. *)
Definition limits_only (vals : gmap string (option Z)) : Prop :=
  vals !! "id" = None ∧ vals !! "user_id" = None ∧ vals !! "cluster_id" = None.

(** The table as [set_quota] keeps it: rows have a key of their own and
    both foreign keys, and a user has at most one row per cluster. *)
Definition well_formed (rows : list Quota.row) : Prop :=
  NoDup (Quota.id <$> rows)
  ∧ Forall (λ q, is_Some (Quota.id q) ∧ is_Some (Quota.user_id q)
                 ∧ is_Some (Quota.cluster_id q)) rows
  ∧ ∀ cluster user, (length (List.filter (matches cluster user) rows) ≤ 1)%nat.

(** The tables [set_quota] builds from the empty one. *)
Inductive built : list Quota.row → Prop :=
| built_nil : built []
| built_set self user vals rows r rows' :
    built rows → limits_only vals →
    set_quota self user (Some vals) rows = (r, rows') → built rows'
| built_unset self user rows r rows' :
    built rows → set_quota self user None rows = (r, rows') → built rows'.

End Quotas.

(** ** Resources in use *)







(** ** Cluster users

    [ClusterUser] with its subclasses [Profile] and [Organization], and the
    two handlers that keep them in step with the users and groups of the
    authentication framework. *)

Module Accounts.

(** The content types of the two subclasses. *)
Inductive content_type := ProfileType | OrganizationType.

Global Instance content_type_eq_dec : EqDecision content_type.
Proof. solve_decision. Defined.

(** A [ClusterUser] with the part its subclass adds: [class] is the class
    of the object, [owner_id] the key of the [User] of a [Profile] or of
    the [Group] of an [Organization]. *)
Record cluster_user := {
  id : option Z;
  name : string;
  real_type : option content_type;
  class : content_type;
  owner_id : Z
}.

(** What the handlers read of a [User] ([username]) or a [Group]
    ([name]). *)
Record principal := {
  pk : Z;
  label : string
}.

(** The table, and the number of saves so far. *)
Record store := {
  rows : list cluster_user;
  saves : nat
}.

Definition has_key (k : Z) (r : cluster_user) : bool := bool_decide (id r = Some k).

Definition fresh_key (rs : list cluster_user) : Z :=
  1 + foldr (λ r m, Z.max (default 0 (id r)) m) 0 rs.

Definition with_key (k : Z) (o : cluster_user) : cluster_user :=
  {| id := Some k; name := name o; real_type := real_type o; class := class o;
     owner_id := owner_id o |}.

Definition set_name (n : string) (o : cluster_user) : cluster_user :=
  {| id := id o; name := n; real_type := real_type o; class := class o;
     owner_id := owner_id o |}.

Definition set_real_type (t : content_type) (o : cluster_user) : cluster_user :=
  {| id := id o; name := name o; real_type := Some t; class := class o;
     owner_id := owner_id o |}.

(** [models.Model.save] *)
Definition insert_or_update (o : cluster_user) (st : store) : cluster_user * store :=
  match id o with
  | Some k =>
      (o, {| rows := if existsb (has_key k) (rows st)
                     then (λ r, if has_key k r then o else r) <$> rows st
                     else rows st ++ [o];
             saves := S (saves st) |})
  | None =>
      let o' := with_key (fresh_key (rows st)) o in
      (o', {| rows := rows st ++ [o']; saves := S (saves st) |})
  end.

(** [ClusterUser._get_real_type] *)
Definition _get_real_type (o : cluster_user) : content_type := class o.

(** [ClusterUser.save] *)
Definition ClusterUser_save (o : cluster_user) (st : store) : cluster_user * store :=
  insert_or_update (if truthy_id (id o) then o
              else set_real_type (_get_real_type o) o) st.

Definition owned (c : content_type) (owner : Z) (r : cluster_user) : bool :=
  bool_decide (class r = c) && bool_decide (owner_id r = owner).

(** [Profile.objects.get_or_create(user=instance)] and
    [Organization.objects.get_or_create(group=instance)] *)
Definition get_or_create_for (c : content_type) (owner : Z) (st : store)
  : outcome cluster_user * store :=
  match List.filter (owned c owner) (rows st) with
  | [] =>
      let (o, st') :=
        ClusterUser_save {| id := None; name := ""; real_type := None; class := c;
                owner_id := owner |} st in
      (Done o, st')
  | [o] => (Done o, st)
  | _ :: _ :: _ => (Failed MultipleObjectsReturned, st)
  end.

(** [create_profile], connected to [post_save] of [User] *)
Definition create_profile (instance : principal) (st : store)
  : outcome unit * store :=
  match get_or_create_for ProfileType (pk instance) st with
  | (Done profile, st1) =>
      if String.eqb (name profile) (label instance) then (Done (), st1)
      else (Done (), (ClusterUser_save (set_name (label instance) profile) st1).2)
  | (Failed e, st1) => (Failed e, st1)
  end.

(** [update_organization], connected to [post_save] of [Group] *)
Definition update_organization (instance : principal) (st : store)
  : outcome unit * store :=
  match get_or_create_for OrganizationType (pk instance) st with
  | (Done org, st1) =>
      (Done (), (ClusterUser_save (set_name (label instance) org) st1).2)
  | (Failed e, st1) => (Failed e, st1)
  end.

(** [ClusterUser.cast] *)
Definition cast (o : cluster_user) (st : store) : outcome cluster_user :=
  match real_type o with
  | None => Failed (Python AttributeError)
  | Some t =>
      match List.filter (λ r, bool_decide (class r = t)
                              && bool_decide (id r = id o)) (rows st) with
      | [] => Failed (Python DoesNotExist)
      | [r] => Done r
      | _ :: _ :: _ => Failed MultipleObjectsReturned
      end
  end.

(** The table as the handlers keep it: rows have a key of their own, not
    zero, and the content type of their class, and a user or a group has
    at most one row. *)
Definition coherent (rs : list cluster_user) : Prop :=
  NoDup (id <$> rs)
  ∧ Forall (λ r, (∃ k, id r = Some k ∧ k ≠ 0)
                 ∧ real_type r = Some (class r)) rs
  ∧ ∀ c owner, (length (List.filter (owned c owner) rs) ≤ 1)%nat.

End Accounts.

(** ** More sample data *)

Module MoreSample.
Import Sample.

(** The dictionary of [vm_payload 900 tags]. *)
Definition vm_dict (tags : list string) : gmap string value :=
  list_to_map
    [("mtime", VNum 900); ("ctime", VNone);
     ("tags", VList (VStr <$> tags));
     ("beparams", VDict (list_to_map [("memory", VNum 512); ("vcpus", VNum 2)]));
     ("disk.sizes", VList [VNum 1024; VNum 2048]);
     ("os", VStr "debian")].

(** A machine of owner [2] as an instantiation from the store leaves it:
    the blob is there and [info] has been decoded from it. *)
Definition vm_from_store : obj :=
  set_serialized_info (Some (vm_payload 900 ["gwm:owner:1"]))
    (vm_of 2 ["gwm:owner:1"]).

(** A payload without [ctime]. *)
Definition payload_without_ctime : gmap string value :=
  list_to_map [("mtime", VNum 950)].

(** An environment in which the listing of instances fails. *)
Definition env_listing_fails : env :=
  {| now := 1000000000;
     remote := Ok VNone;
     remote_instances := Raise (GanetiApiError "unreachable");
     delete_tags_error := None;
     add_tags_error := None;
     LAZY_CACHE_REFRESH := 600000;
     OWNER_TAG := "gwm:owner:";
     sha1_hexdigest := λ s, s |}.

(** A store with one machine of cluster [1]. *)
Definition one_machine : world := {| db := [vm_row cluster1 "a" 1]; trace := [] |}.

End MoreSample.

Module QuotaSample.
Import Quotas.

Definition cluster : Cluster.columns :=
  {| Cluster.id := 1; Cluster.ram := Some 4096; Cluster.disk := None;
     Cluster.virtual_cpus := Some 8 |}.

End QuotaSample.

Module AccountSample.
Import Accounts.

Definition alice : principal := {| pk := 3; label := "alice" |}.

Definition no_rows : store := {| rows := []; saves := 0 |}.

End AccountSample.

(** * Properties *)

(** ** Reasoning about methods *)

Lemma bind_ok {A B} (m : M A) (f : A → M B) st a st' :
  m st = (Ok a, st') → (m ≫= f) st = f a st'.
Proof. intros H. unfold mbind, M_bind. by rewrite H. Qed.

Lemma bind_raise {A B} (m : M A) (f : A → M B) st e st' :
  m st = (Raise e, st') → (m ≫= f) st = (Raise e, st').
Proof. intros H. unfold mbind, M_bind. by rewrite H. Qed.

Lemma bind_ok_inv {A B} (m : M A) (f : A → M B) st b st' :
  (m ≫= f) st = (Ok b, st') →
  ∃ a st1, m st = (Ok a, st1) ∧ f a st1 = (Ok b, st').
Proof.
  unfold mbind, M_bind. destruct (m st) as [[a|e] st1]; [eauto | done].
Qed.

Lemma bind_raise_inv {A B} (m : M A) (f : A → M B) st e st' :
  (m ≫= f) st = (Raise e, st') →
  m st = (Raise e, st') ∨ ∃ a st1, m st = (Ok a, st1) ∧ f a st1 = (Raise e, st').
Proof.
  unfold mbind, M_bind. destruct (m st) as [[a|e1] st1]; intros H; [right; eauto | left; by simplify_eq].
Qed.

Section Rules.
Context (I : obj → Prop).

Lemma keeps_ret {A} (a : A) : keeps I (mret a).
Proof. intros st HI. exact HI. Qed.

Lemma keeps_bind {A B} (m : M A) (f : A → M B) :
  keeps I m → (∀ a, keeps I (f a)) → keeps I (m ≫= f).
Proof.
  intros Hm Hf st HI. specialize (Hm st HI). unfold mbind, M_bind.
  destruct (m st) as [[a|e] st1]; [by apply Hf | done].
Qed.

Lemma keeps_modify (g : obj → obj) : (∀ o, I o → I (g o)) → keeps I (modify g).
Proof. intros Hg st HI. by apply Hg. Qed.

Lemma keeps_modify_db g : keeps I (modify_db g).
Proof. intros st HI. exact HI. Qed.

Lemma keeps_emit ev : keeps I (emit ev).
Proof. intros st HI. exact HI. Qed.

Lemma keeps_get_self : keeps I get_self.
Proof. intros st HI. exact HI. Qed.

Lemma keeps_get_world : keeps I get_world.
Proof. intros st HI. exact HI. Qed.

Lemma keeps_raise {A} e : keeps I (raise (A:=A) e).
Proof. intros st HI. exact HI. Qed.

Lemma keeps_lift {A} (r : res A) : keeps I (lift r).
Proof. destruct r; intros st HI; exact HI. Qed.

Lemma keeps_for_each {A} (xs : list A) body :
  (∀ x, keeps I (body x)) → keeps I (for_each xs body).
Proof.
  intros Hb. induction xs as [|x xs IH]; [apply keeps_ret|].
  apply keeps_bind; [apply Hb | by intros _].
Qed.

Lemma keeps_try {A} (body : M A) handler :
  keeps I body → (∀ msg, keeps I (handler msg)) → keeps I (try_except_api body handler).
Proof.
  intros Hb Hh st HI. specialize (Hb st HI). unfold try_except_api.
  destruct (body st) as [[a|[]] st1]; try done. by apply Hh.
Qed.

End Rules.

Lemma quiet_ret {A} (a : A) : quiet (mret a).
Proof. by intros st e st'. Qed.

Lemma quiet_bind {A B} (m : M A) (f : A → M B) :
  quiet m → (∀ a, quiet (f a)) → quiet (m ≫= f).
Proof.
  intros Hm Hf st e st' [H|(a & st1 & _ & H)]%bind_raise_inv.
  - exact (Hm _ _ _ H).
  - exact (Hf _ _ _ _ H).
Qed.

Lemma quiet_modify g : quiet (modify g).
Proof. by intros st e st'. Qed.

Lemma quiet_modify_db g : quiet (modify_db g).
Proof. by intros st e st'. Qed.

Lemma quiet_emit ev : quiet (emit ev).
Proof. by intros st e st'. Qed.

Lemma quiet_get_self : quiet get_self.
Proof. by intros st e st'. Qed.

Lemma quiet_get_world : quiet get_world.
Proof. by intros st e st'. Qed.

Lemma quiet_raise {A} e : is_api_error e = false → quiet (raise (A:=A) e).
Proof. intros He st e' st' [= <- _]. done. Qed.

Lemma quiet_lift {A} (r : res A) :
  (∀ e, r = Raise e → is_api_error e = false) → quiet (lift r).
Proof. intros Hr st e st'. destruct r; [done|]. intros [= <- _]. eauto. Qed.

Lemma quiet_for_each {A} (xs : list A) body :
  (∀ x, quiet (body x)) → quiet (for_each xs body).
Proof.
  intros Hb. induction xs as [|x xs IH]; [apply quiet_ret|].
  apply quiet_bind; [apply Hb | by intros _].
Qed.

Lemma keeps_bind_self (I : obj → Prop) {B} (f : obj → M B) :
  (∀ o, I o → keeps I (f o)) → keeps I (get_self ≫= f).
Proof. intros Hf st HI. exact (Hf st.1 HI st HI). Qed.

Lemma quiet_try {A} (body : M A) handler :
  (∀ msg, quiet (handler msg)) → quiet (try_except_api body handler).
Proof.
  intros Hh st e st'. unfold try_except_api.
  destruct (body st) as [[a|[]] st1] eqn:Hb; try by intros [= <- _].
  apply Hh.
Qed.

Lemma returns_with_bind {A B} Q (m : M A) (f : A → M B) :
  (∀ a, returns_with Q (f a)) → returns_with Q (m ≫= f).
Proof.
  intros Hf st b st' (a & st1 & _ & H)%bind_ok_inv. exact (Hf _ _ _ _ H).
Qed.

Lemma returns_with_modify Q g : (∀ o, Q (g o)) → returns_with Q (modify g).
Proof. intros Hg st a st' [= _ <-]. apply Hg. Qed.

(** Walk a method along its binds and branches; what is left are the
    assignments that do not obviously keep the invariant. *)
Ltac keeps_step :=
  lazymatch goal with
  | H : keeps ?I ?m |- keeps ?I ?m => exact H
  | |- keeps _ (mret _) => apply keeps_ret
  | |- keeps _ (modify_db _) => apply keeps_modify_db
  | |- keeps _ (emit _) => apply keeps_emit
  | |- keeps _ get_self => apply keeps_get_self
  | |- keeps _ get_world => apply keeps_get_world
  | |- keeps _ (raise _) => apply keeps_raise
  | |- keeps _ (lift _) => apply keeps_lift
  | |- keeps _ (get_self ≫= _) => apply keeps_bind_self; intros ? ?
  | |- keeps _ (_ ≫= _) => apply keeps_bind; [|intros ?]
  | |- keeps _ (for_each _ _) => apply keeps_for_each; intros ?
  | |- keeps _ (try_except_api _ _) => apply keeps_try; [|intros ?]
  | |- keeps _ (modify _) =>
      apply keeps_modify;
      solve [ let o := fresh in let H := fresh in intros o H; exact H ]
  | |- keeps _ (match ?x with _ => _ end) => destruct x eqn:?
  | |- keeps _ (if ?x then _ else _) => destruct x eqn:?
  | |- keeps _ _ => match goal with H : ∀ _, keeps _ _ |- _ => apply H end
  end.
Ltac keeps_walk := repeat keeps_step.

(** The library calls raise their own exceptions, never the API's. *)
Lemma getitem_quiet v key e : getitem v key = Raise e → is_api_error e = false.
Proof. destruct v; cbn; try by intros [= <-]. case_match; by intros [= <-]. Qed.

Lemma fromtimestamp_quiet v e : fromtimestamp v = Raise e → is_api_error e = false.
Proof. destruct v; cbn; try case_match; by intros [= <-]. Qed.

Lemma iter_value_quiet v e : iter_value v = Raise e → is_api_error e = false.
Proof. destruct v; cbn; by intros [= <-]. Qed.

Lemma sum_disks_quiet xs acc e : sum_disks acc xs = Raise e → is_api_error e = false.
Proof.
  revert acc. induction xs as [|[] xs IH]; intros acc; cbn; try by intros [= <-].
  apply IH.
Qed.

Lemma opt_or_quiet {A} (x : option A) e0 e :
  is_api_error e0 = false → opt_or e0 x = Raise e → is_api_error e = false.
Proof. intros He0. destruct x; cbn; by intros [= <-]. Qed.

Lemma res_bind_quiet {A B} (r : res A) (f : A → res B) e :
  (∀ e, r = Raise e → is_api_error e = false) →
  (∀ a e, f a = Raise e → is_api_error e = false) →
  r ≫= f = Raise e → is_api_error e = false.
Proof.
  intros Hr Hf. destruct r as [a|e']; cbn.
  - apply Hf.
  - intros [= <-]. by apply Hr.
Qed.

Lemma scan_tags_quiet E owner tags acc e :
  scan_tags E owner acc tags = Raise e → is_api_error e = false.
Proof.
  revert acc. induction tags as [|tag tags IH]; intros acc; cbn; [done|].
  destruct (scan_tag E owner acc tag) as [acc'|e'] eqn:Htag; [apply IH|].
  intros [= <-]. unfold scan_tag in Htag.
  repeat case_match; by simplify_eq.
Qed.

Ltac lib_quiet H :=
  first
    [ exact (getitem_quiet _ _ _ H) | exact (fromtimestamp_quiet _ _ H)
    | exact (iter_value_quiet _ _ H) | exact (sum_disks_quiet _ _ _ H)
    | exact (scan_tags_quiet _ _ _ _ _ H)
    | refine (opt_or_quiet _ _ _ _ H); reflexivity
    | revert H; apply res_bind_quiet;
      [ let e := fresh in let H' := fresh in intros e H'; lib_quiet H'
      | let a := fresh in let e := fresh in let H' := fresh in
        intros a e H'; lib_quiet H' ] ].

Ltac quiet_step :=
  lazymatch goal with
  | H : quiet ?m |- quiet ?m => exact H
  | |- quiet (mret _) => apply quiet_ret
  | |- quiet (modify _) => apply quiet_modify
  | |- quiet (modify_db _) => apply quiet_modify_db
  | |- quiet (emit _) => apply quiet_emit
  | |- quiet get_self => apply quiet_get_self
  | |- quiet get_world => apply quiet_get_world
  | |- quiet (raise _) => apply quiet_raise; solve [ done | eauto ]
  | |- quiet (lift _) =>
      apply quiet_lift;
      let e := fresh in let H := fresh in intros e H; lib_quiet H
  | |- quiet (_ ≫= _) => apply quiet_bind; [|intros ?]
  | |- quiet (for_each _ _) => apply quiet_for_each; intros ?
  | |- quiet (try_except_api _ _) => apply quiet_try; intros ?
  | |- quiet (match ?x with _ => _ end) => destruct x eqn:?
  | |- quiet (if ?x then _ else _) => destruct x eqn:?
  | |- quiet _ => match goal with H : ∀ _, quiet _ |- _ => apply H end
  end.
Ltac quiet_walk := repeat quiet_step.

(** ** Which exceptions the methods raise *)

Lemma info_quiet : quiet info.
Proof. unfold info. quiet_walk. Qed.

Lemma parse_transient_info_quiet : quiet parse_transient_info.
Proof.
  pose proof info_quiet.
  unfold parse_transient_info, Job_parse_transient_info,
    CachedClusterObject_parse_transient_info.
  quiet_walk.
Qed.

Lemma parse_persistent_info_quiet : quiet parse_persistent_info.
Proof.
  pose proof info_quiet.
  unfold parse_persistent_info, Job_parse_persistent_info,
    VirtualMachine_parse_persistent_info,
    CachedClusterObject_parse_persistent_info, update_ignore_cache.
  quiet_walk.
Qed.

Lemma set_info_property_quiet v : quiet (set_info_property v).
Proof.
  pose proof parse_transient_info_quiet. pose proof parse_persistent_info_quiet.
  unfold set_info_property, parse_info. quiet_walk.
Qed.

Lemma Model_save_quiet : quiet Model_save.
Proof. unfold Model_save, update_cluster_hash. quiet_walk. Qed.

Lemma CachedClusterObject_save_quiet : quiet CachedClusterObject_save.
Proof.
  pose proof Model_save_quiet. unfold CachedClusterObject_save. quiet_walk.
Qed.

Lemma save_quiet E : calm E → quiet (save E).
Proof.
  intros (_ & Hd & Ha).
  pose proof CachedClusterObject_save_quiet. pose proof info_quiet.
  unfold save, TestModel_save, Job_save, Cluster_save, VirtualMachine_save,
    update_owner_tag, set_cluster_hash_when_new, rapi_call, tags_remove,
    tags_append.
  quiet_walk.
Qed.

Lemma refresh_try_quiet E : calm E → quiet (refresh_try E).
Proof.
  intros HE. pose proof (save_quiet E HE). pose proof set_info_property_quiet.
  destruct HE as (Hr & _).
  unfold refresh_try, _refresh, update_cached.
  quiet_walk. apply quiet_lift, Hr.
Qed.

(** ** Refreshing *)

Local Arguments getitem : simpl never.
Local Arguments fromtimestamp : simpl never.

Ltac run :=
  unfold refresh, refresh_try, try_except_api, _refresh, update_cached, lift,
    raise, emit, modify, modify_db, get_self, get_world, fetched,
    mbind, mret, M_bind, M_ret, res_bind; cbn.

(** A fetch that fails with the API's error: only [error] changes. *)
Lemma refresh_fetch_failure E s w msg :
  remote E = Raise (GanetiApiError msg) →
  refresh E (s, w) = (Ok (), (set_error (Some msg) s, fetched s w)).
Proof. intros Hr. run. by rewrite Hr. Qed.

(** A fetch that succeeds with a usable [mtime]: the rest of [refresh]. *)
Lemma refresh_fetch_ok E s w p v t :
  remote E = Ok p → getitem p "mtime" = Ok v → fromtimestamp v = Ok t →
  refresh_try E (s, w) =
    ((match mtime s with
      | Some old => if old <? t then set_info_property p ;; save E
                    else update_cached
      | None => set_info_property p ;; save E
      end ;; modify (set_error None))
       (set_cached (Some (now E)) s, fetched s w)).
Proof. intros Hr Hp Hv. run. rewrite Hr. cbn. by rewrite Hp, Hv. Qed.

Lemma refresh_try_returns E : returns_with (λ o, error o = None) (refresh_try E).
Proof.
  unfold refresh_try. do 5 (apply returns_with_bind; intros ?).
  by apply returns_with_modify.
Qed.

(** ** What parsing and saving leave alone *)

Lemma info_keeps_parse_frame o0 : keeps (parse_frame o0) info.
Proof. unfold info. keeps_walk. Qed.

Lemma parse_info_keeps_frame o0 : keeps (parse_frame o0) parse_info.
Proof.
  pose proof (info_keeps_parse_frame o0).
  unfold parse_info, parse_transient_info, parse_persistent_info,
    Job_parse_transient_info, CachedClusterObject_parse_transient_info,
    Job_parse_persistent_info, VirtualMachine_parse_persistent_info,
    CachedClusterObject_parse_persistent_info, update_ignore_cache.
  keeps_walk.
Qed.

Lemma info_keeps_save_frame o0 : keeps (save_frame o0) info.
Proof. unfold info. keeps_walk. Qed.

Lemma save_keeps_frame E o0 : keeps (save_frame o0) (save E).
Proof.
  pose proof (info_keeps_save_frame o0).
  unfold save, TestModel_save, Job_save, Cluster_save, VirtualMachine_save,
    update_owner_tag, CachedClusterObject_save, Model_save,
    update_cluster_hash, set_cluster_hash_when_new, rapi_call, tags_remove,
    tags_append.
  keeps_walk.
Qed.

Lemma update_rows_serialized p t rows :
  serialized_info <$> update_rows p (set_cached t) rows = serialized_info <$> rows.
Proof.
  unfold update_rows. rewrite <- list_fmap_compose. apply list_fmap_ext.
  intros i r _. cbn. by destruct (p r).
Qed.

(** C1. When the receiver already has an [mtime] and the fetched payload's
    [mtime] is not later, [refresh] returns with [info], [serialized_info]
    and [mtime] as they were and [cached] set to the clock; besides clearing
    [error] nothing else changes on the receiver. Past the fetch the only
    event is the update of the [cached] column of the receiver's row: no
    encoding of [info], no save of the record, and the stored blobs are
    what they were. *)
Theorem refresh_no_remote_change E s w p v t old :
  remote E = Ok p → getitem p "mtime" = Ok v → fromtimestamp v = Ok t →
  mtime s = Some old → t ≤ old →
  ∃ s' w',
    refresh E (s, w) = (Ok (), (s', w'))
    ∧ s' = set_error None (set_cached (Some (now E)) s)
    ∧ __info s' = __info s ∧ serialized_info s' = serialized_info s
    ∧ mtime s' = mtime s ∧ cached s' = Some (now E)
    ∧ trace w' = trace w ++ [Fetch (cls s) (id s);
                             UpdateCached (cls s) (id s) (Some (now E))]
    ∧ db w' = update_rows (is_row (cls s) (id s))
                (set_cached (Some (now E))) (db w)
    ∧ serialized_info <$> db w' = serialized_info <$> db w.
Proof.
  intros Hr Hp Hv Hold Hle. eexists _, _. split.
  - unfold refresh, try_except_api.
    rewrite (refresh_fetch_ok E s w p v t Hr Hp Hv), Hold.
    destruct (Z.ltb_spec old t); [lia|]. run. rewrite <- app_assoc. reflexivity.
  - repeat split; try reflexivity. apply update_rows_serialized.
Qed.

(** C3. When the fetch raises the API's error with a non-empty text,
    [refresh] returns with [info], [serialized_info], [cached] and [mtime]
    as they were, the store untouched, and [error] set to that text.
    Conversely, when no remote call fails with the API's error, a [refresh]
    that returns leaves [error] at [None]. *)
Theorem refresh_fetch_failure_keeps_cache :
  (∀ E s w msg,
     remote E = Raise (GanetiApiError msg) → msg ≠ "" →
     ∃ s' w',
       refresh E (s, w) = (Ok (), (s', w'))
       ∧ __info s' = __info s ∧ serialized_info s' = serialized_info s
       ∧ cached s' = cached s ∧ mtime s' = mtime s ∧ db w' = db w
       ∧ error s' = Some msg ∧ error s' ≠ Some "" ∧ error s' ≠ None)
  ∧ (∀ E st st',
       calm E → refresh E st = (Ok (), st') → error st'.1 = None).
Proof.
  split.
  - intros E s w msg Hr Hmsg. eexists _, _. split.
    + by apply refresh_fetch_failure.
    + cbn. repeat split; congruence.
  - intros E st st' HE. unfold refresh, try_except_api.
    destruct (refresh_try E st) as [[[]|e] st1] eqn:Hbody.
    + intros [= <-]. by apply refresh_try_returns in Hbody.
    + apply (refresh_try_quiet E HE) in Hbody. by destruct e.
Qed.

Lemma load_info_refreshes E s w :
  cls s ≠ Job → truthy_id (id s) = true → needs_refresh E s = true →
  load_info E (s, w) = refresh E (s, w).
Proof.
  intros Hk Hid Hn. unfold load_info, CachedClusterObject_load_info, needs_refresh in *.
  unfold mbind at 1 2, M_bind at 1 2, get_self. cbn.
  destruct (cls s) eqn:Hcls; try done; unfold mbind at 1, M_bind at 1; cbn;
    rewrite Hid; destruct (ignore_cache s); try done;
    destruct (cached s); try done; cbn in Hn; by rewrite Hn.
Qed.

Lemma mtime_failure_quiet p e :
  getitem p "mtime" ≫= fromtimestamp = Raise e → is_api_error e = false.
Proof.
  unfold mbind, res_bind. destruct (getitem p "mtime") as [v|e1] eqn:Hv.
  - apply fromtimestamp_quiet.
  - intros [= <-]. by apply getitem_quiet in Hv.
Qed.

Lemma keeps_of_frame {A B} (R : obj → obj → Prop) (f : obj → B) (m : M A) c :
  (∀ o0, keeps (R o0) m) → (∀ o, R o o) → (∀ o0 o, R o0 o → f o = f o0) →
  keeps (λ o, f o = c) m.
Proof.
  intros Hm Hrefl Hf st Hc. rewrite <- Hc. apply (Hf st.1), Hm, Hrefl.
Qed.

Lemma parse_frame_refl o : parse_frame o o.
Proof. by repeat split. Qed.

Lemma save_frame_refl o : save_frame o o.
Proof. by repeat split. Qed.

Lemma set_info_property_keeps_cached v c :
  keeps (λ o, cached o = c) (set_info_property v).
Proof.
  assert (keeps (λ o, cached o = c) parse_info).
  { apply (keeps_of_frame parse_frame); [apply parse_info_keeps_frame
      | apply parse_frame_refl | by intros ?? (_&_&_&?&_)]. }
  unfold set_info_property. keeps_walk.
Qed.

Lemma save_keeps_cached E c : keeps (λ o, cached o = c) (save E).
Proof.
  apply (keeps_of_frame save_frame); [apply save_keeps_frame
    | apply save_frame_refl | by intros ?? (_&?&_)].
Qed.

Lemma refresh_bad_mtime E s w p e :
  remote E = Ok p → getitem p "mtime" ≫= fromtimestamp = Raise e →
  refresh E (s, w) = (Raise e, (s, fetched s w)).
Proof.
  intros Hr He. pose proof (mtime_failure_quiet p e He) as Hq.
  run. rewrite Hr. cbn. unfold mbind, res_bind in *.
  destruct (getitem p "mtime") as [v|e1]; [destruct (fromtimestamp v)|];
    simplify_eq; by destruct e.
Qed.

Lemma load_info_keeps_cached_bad_mtime E p e c :
  remote E = Ok p → getitem p "mtime" ≫= fromtimestamp = Raise e →
  keeps (λ o, cached o = c) (load_info E).
Proof.
  intros Hr Hp.
  assert (keeps (λ o, cached o = c) (refresh E)) as Hrefresh.
  { intros [s w] Hc. by rewrite (refresh_bad_mtime E s w p e Hr Hp). }
  pose proof (λ v, set_info_property_keeps_cached v c).
  pose proof (save_keeps_cached E c).
  assert (keeps (λ o, cached o = c) info).
  { unfold info. keeps_walk. }
  unfold load_info, Job_load_info, CachedClusterObject_load_info, _refresh,
    parse_transient_info, Job_parse_transient_info,
    CachedClusterObject_parse_transient_info.
  keeps_walk.
Qed.

(** ** Loading on instantiation *)

Lemma info_loaded s w : info (s, w) = (Ok (__info (loaded s)), (loaded s, w)).
Proof.
  unfold info, loaded, mbind, M_bind, get_self, modify, mret, M_ret. cbn.
  by destruct (__info s), (serialized_info s).
Qed.

Lemma load_info_new E s w :
  truthy_id (id s) = false → load_info E (s, w) = (Ok (), (s, w)).
Proof.
  intros Hid. unfold load_info, Job_load_info, CachedClusterObject_load_info,
    mbind, M_bind, get_self. cbn. destruct (cls s); cbn; by rewrite Hid.
Qed.

Lemma load_info_fresh E s w :
  cls s ≠ Job → truthy_id (id s) = true → needs_refresh E s = false →
  load_info E (s, w) =
    if truthy (__info (loaded s)) then parse_transient_info (loaded s, w)
    else (Ok (), (set_error (Some "No Cached Info") (loaded s), w)).
Proof.
  intros Hk Hid Hn. unfold needs_refresh in Hn.
  apply orb_false_elim in Hn as [Hig Hn].
  destruct (cached s) as [c|] eqn:Hc; [|done].
  unfold load_info, CachedClusterObject_load_info.
  unfold mbind at 1 2, M_bind at 1 2, get_self. cbn.
  assert (∀ m : M (), (if truthy_id (id s)
     then if ignore_cache s then refresh E else
       match cached s with
       | Some c => if c + timedelta_ms (LAZY_CACHE_REFRESH E) <? now E
                   then refresh E else m
       | None => refresh E
       end
     else mret ()) (s, w) = m (s, w)) as Hm.
  { intros m. by rewrite Hid, Hig, Hc, Hn. }
  destruct (cls s); try done; unfold mbind at 1, M_bind at 1; cbn;
    rewrite Hm; unfold mbind, M_bind; rewrite info_loaded;
    by destruct (truthy _).
Qed.

Lemma Job_load_info_unfold E s w :
  cls s = Job →
  load_info E (s, w) =
    if truthy_id (id s) && ignore_cache s
    then (info_ ← _refresh E; set_info_property info_ ;; save E) (s, w)
    else (Ok (), (s, w)).
Proof.
  intros Hk. unfold load_info, Job_load_info.
  unfold mbind at 1 2, M_bind at 1 2, get_self. cbn. rewrite Hk. cbn [fst].
  by destruct (truthy_id (id s) && ignore_cache s).
Qed.

(** C8, as the code has it. For every entity but a [Job], [load_info] does
    nothing on a record without identity, is [refresh] when [ignore_cache]
    is set, when [cached] is unset or when the clock is past [cached] plus
    the lazy-refresh window, and otherwise parses the transient fields of
    the existing [info] when that is true in a condition, and sets [error]
    to [No Cached Info] when it is not. A [Job] fetches, sets [info] and
    saves when it has an identity and [ignore_cache] is set, and does
    nothing otherwise. *)
Theorem load_info_cases E s w :
  (cls s ≠ Job →
     (truthy_id (id s) = false → load_info E (s, w) = (Ok (), (s, w)))
     ∧ (truthy_id (id s) = true → ignore_cache s = true →
        load_info E (s, w) = refresh E (s, w))
     ∧ (truthy_id (id s) = true → cached s = None →
        load_info E (s, w) = refresh E (s, w))
     ∧ (∀ c, truthy_id (id s) = true → cached s = Some c →
        c + timedelta_ms (LAZY_CACHE_REFRESH E) < now E →
        load_info E (s, w) = refresh E (s, w))
     ∧ (∀ c, truthy_id (id s) = true → ignore_cache s = false →
        cached s = Some c → now E ≤ c + timedelta_ms (LAZY_CACHE_REFRESH E) →
        load_info E (s, w) =
          if truthy (__info (loaded s)) then parse_transient_info (loaded s, w)
          else (Ok (), (set_error (Some "No Cached Info") (loaded s), w))))
  ∧ (cls s = Job →
       load_info E (s, w) =
         if truthy_id (id s) && ignore_cache s
         then (info_ ← _refresh E; set_info_property info_ ;; save E) (s, w)
         else (Ok (), (s, w))).
Proof.
  split; [intros Hk; split_and! | apply Job_load_info_unfold].
  - apply load_info_new.
  - intros Hid Hig. apply load_info_refreshes; [done..|].
    unfold needs_refresh. by rewrite Hig.
  - intros Hid Hc. apply load_info_refreshes; [done..|].
    unfold needs_refresh. rewrite Hc. apply orb_true_r.
  - intros c Hid Hc Hlt. apply load_info_refreshes; [done..|].
    unfold needs_refresh. rewrite Hc.
    apply orb_true_iff. right. by apply Z.ltb_lt.
  - intros c Hid Hig Hc Hle. apply load_info_fresh; [done..|].
    unfold needs_refresh. rewrite Hig, Hc. cbn. apply Z.ltb_ge. lia.
Qed.

(** ** Jobs *)

Lemma getitem_ok_dict p key v :
  getitem p key = Ok v → ∃ d, p = VDict d ∧ d !! key = Some v.
Proof.
  destruct p; try done. unfold getitem. destruct (d !! key) eqn:Hd; [|done].
  intros [= <-]. eauto.
Qed.

Lemma getitem_dict d key v : d !! key = Some v → getitem (VDict d) key = Ok v.
Proof. intros H. unfold getitem. by rewrite H. Qed.

(** One step of a method: run the first action of a bind. *)
Ltac step_with tac :=
  lazymatch goal with
  | |- (_ ≫= _) _ = _ => erewrite bind_ok; [|tac]; cbn [fst snd]
  end.
Ltac step := step_with ltac:(reflexivity).

Lemma Job_parse_persistent_info_pending s w d st :
  ignore_cache s = true → __info s = VDict d → d !! "status" = Some st →
  Job_parse_persistent_info (s, w) =
    (Ok (),
     if terminal st
     then (set_ignore_cache false (set_status st s),
           {| db := update_rows (is_row (cls s) (id s)) (set_ignore_cache false) (db w);
              trace := trace w ++ [UpdateIgnoreCache (cls s) (id s)] |})
     else (set_status st s, w)).
Proof.
  intros Hig Hinfo Hst. unfold Job_parse_persistent_info.
  step. cbn [fst]. rewrite Hig. step_with ltac:(apply info_loaded).
  assert (loaded s = s) as -> by (unfold loaded; by rewrite Hinfo).
  rewrite Hinfo, (getitem_dict _ _ _ Hst). cbn [lift].
  do 3 step. fold (terminal st). destruct (terminal st); [|done].
  step. done.
Qed.

Lemma _refresh_ok E s w p :
  remote E = Ok p → _refresh E (s, w) = (Ok p, (s, fetched s w)).
Proof. intros Hr. unfold _refresh. do 2 step. by rewrite Hr. Qed.

Lemma _refresh_raise E s w e :
  remote E = Raise e → _refresh E (s, w) = (Raise e, (s, fetched s w)).
Proof. intros Hr. unfold _refresh. do 2 step. by rewrite Hr. Qed.

Lemma parse_info_Job s w :
  cls s = Job → parse_info (s, w) = Job_parse_persistent_info (s, w).
Proof.
  intros Hk. unfold parse_info, parse_transient_info, parse_persistent_info.
  step_with ltac:(step; cbn [fst]; rewrite Hk; reflexivity).
  step. cbn [fst]. by rewrite Hk.
Qed.

Lemma Job_set_info_property s w d st :
  cls s = Job → ignore_cache s = true → d !! "status" = Some st →
  set_info_property (VDict d) (s, w) =
    (Ok (),
     if terminal st
     then (set_serialized_info None
             (set_ignore_cache false (set_status st (set_info (VDict d) s))),
           {| db := update_rows (is_row Job (id s)) (set_ignore_cache false) (db w);
              trace := trace w ++ [UpdateIgnoreCache Job (id s)] |})
     else (set_serialized_info None (set_status st (set_info (VDict d) s)), w)).
Proof.
  intros Hk Hig Hst. unfold set_info_property. step.
  step_with ltac:(rewrite parse_info_Job by done;
                  by apply (Job_parse_persistent_info_pending _ _ d st)).
  cbn [cls set_info id]. rewrite Hk. by destruct (terminal st).
Qed.

Lemma clashes_other_class o pk rows :
  cls o ≠ Cluster → existsb (clashes o pk) rows = false.
Proof.
  intros Hk. induction rows as [|r rows IH]; [done|]. cbn [existsb].
  rewrite IH, orb_false_r. unfold clashes. by rewrite bool_decide_false.
Qed.

Lemma Model_save_run s w :
  cls s ≠ Cluster →
  Model_save (s, w) =
    (Ok (), (set_id (Some (pk_of s w)) s,
             {| db := upsert (saved_row s w) (db w);
                trace := trace w ++ [SaveRow (saved_row s w)] |})).
Proof.
  intros Hk. unfold Model_save, saved_row, pk_of. do 2 step.
  cbn [fst snd]. rewrite clashes_other_class by done. do 4 step.
  cbn [fst cls set_id]. by destruct (cls s).
Qed.

Lemma CachedClusterObject_save_dirty s w :
  cls s ≠ Cluster → serialized_info s = None →
  CachedClusterObject_save (s, w) =
    (Ok (), (set_id (Some (pk_of s w)) (set_serialized_info (Some (__info s)) s),
             {| db := upsert (saved_row (set_serialized_info (Some (__info s)) s) w) (db w);
                trace := trace w ++ [Pickle (__info s);
                  SaveRow (saved_row (set_serialized_info (Some (__info s)) s) w)] |})).
Proof.
  intros Hk Hs. unfold CachedClusterObject_save. step. cbn [fst]. rewrite Hs.
  step_with ltac:(step; reflexivity).
  rewrite Model_save_run by done. cbn. by rewrite <- app_assoc.
Qed.

Lemma set_cluster_hash_when_new_old s w n :
  id s = Some n → set_cluster_hash_when_new (s, w) = (Ok (), (s, w)).
Proof. intros Hid. unfold set_cluster_hash_when_new. step. cbn. by rewrite Hid. Qed.

Lemma save_Job E s w n :
  cls s = Job → id s = Some n → serialized_info s = None →
  save E (s, w) =
    (Ok (), (set_id (Some n) (set_serialized_info (Some (__info s)) s),
             {| db := upsert (saved_row (set_serialized_info (Some (__info s)) s) w) (db w);
                trace := trace w ++ [Pickle (__info s);
                  SaveRow (saved_row (set_serialized_info (Some (__info s)) s) w)] |})).
Proof.
  intros Hk Hid Hs. unfold save. step. cbn [fst]. rewrite Hk. unfold Job_save.
  step_with ltac:(by apply (set_cluster_hash_when_new_old _ _ n)).
  rewrite CachedClusterObject_save_dirty by (done || congruence).
  unfold pk_of. cbn. by rewrite Hid.
Qed.

(** Normalise setters and projections applied to explicit records. *)
Ltac record_simpl :=
  cbv [row_of set_id set_serialized_info set_cached set_ignore_cache set_info
       set_error set_mtime set_ctime set_status set_saved set_ram
       set_virtual_cpus set_disk_size set_operating_system set_cluster_hash
       set_hash cls id serialized_info cached ignore_cache __info error mtime
       ctime status saved hostname owner_id ram virtual_cpus disk_size
       operating_system cluster_id cluster_hash cluster_dot_hash hash
       username password port slug db trace fst snd].

Ltac destruct_obj s :=
  destruct s as [?k ?i ?si ?c ?ig ?inf ?er ?mt ?ct ?sta ?sv ?hn ?ow ?rm ?vc
                 ?ds ?os ?cid ?ch ?cdh ?hs ?un ?pw ?pt ?sl].

Lemma Job_load_info_pending E s w n p st :
  cls s = Job → id s = Some n → n ≠ 0 → ignore_cache s = true →
  remote E = Ok p → getitem p "status" = Ok st →
  load_info E (s, w) = (Ok (), (Job_after s p st, Job_world_after s w p st)).
Proof.
  intros Hk Hid Hn Hig Hr (d & -> & Hst)%getitem_ok_dict.
  assert (truthy_id (id s) && ignore_cache s = true) as Hgo.
  { rewrite Hid, Hig. cbn. by destruct (Z.eqb_spec n 0). }
  rewrite Job_load_info_unfold, Hgo by done.
  step_with ltac:(by apply _refresh_ok).
  step_with ltac:(by apply (Job_set_info_property _ _ d st)).
  unfold Job_world_after, Job_after.
  destruct (terminal st) eqn:Ht;
    (etrans; [apply (save_Job E _ _ n); [exact Hk|exact Hid|reflexivity]|]);
    unfold saved_row, pk_of, fetched; destruct_obj s; cbn in Hk, Hid; subst;
    record_simpl; rewrite <- ?app_assoc; reflexivity.
Qed.

(** A job that no longer bypasses the cache is left alone by [load_info]. *)
Lemma Job_load_info_terminal E s w :
  cls s = Job → ignore_cache s = false → load_info E (s, w) = (Ok (), (s, w)).
Proof.
  intros Hk Hig. rewrite Job_load_info_unfold by done. rewrite Hig.
  by rewrite andb_false_r.
Qed.

Lemma Job_load_info_fetched E s w p :
  cls s = Job → truthy_id (id s) = true → ignore_cache s = true →
  remote E = Ok p →
  load_info E (s, w) = (set_info_property p ;; save E) (s, fetched s w).
Proof.
  intros Hk Hid Hig Hr. rewrite Job_load_info_unfold by done.
  rewrite Hid, Hig. cbn [andb]. by step_with ltac:(by apply _refresh_ok).
Qed.

Lemma Job_load_info_missing_status E s w d :
  cls s = Job → truthy_id (id s) = true → ignore_cache s = true →
  remote E = Ok (VDict d) → d !! "status" = None →
  load_info E (s, w)
  = (Raise (KeyError "status"), (set_info (VDict d) s, fetched s w)).
Proof.
  intros Hk Hid Hig Hr Hst. rewrite (Job_load_info_fetched E s w (VDict d)) by done.
  erewrite bind_raise; [reflexivity|].
  unfold set_info_property. step.
  erewrite bind_raise; [reflexivity|].
  rewrite parse_info_Job by done.
  unfold Job_parse_persistent_info. step. cbn [fst ignore_cache set_info].
  rewrite Hig. step_with ltac:(apply info_loaded).
  erewrite bind_raise; [reflexivity|].
  unfold loaded. cbn [__info set_info]. unfold getitem. by rewrite Hst.
Qed.

(** C10, as the code has it. [refresh] absorbs the API's error and no
    other. When the fetch succeeds and the computation of the modification
    time raises, [refresh] raises that exception on every entity, with the
    receiver as it was, so that [cached] is not advanced. [load_info] passes
    it on when it refreshes, which it does on every entity but a [Job]:
    [Job.load_info] does not read [mtime], it runs the setter and [save] on
    the payload, and what its caller sees of a payload is the [KeyError] of
    a missing [status]. No path of [load_info] advances [cached] on a
    payload without a usable [mtime]. The computation raises a [KeyError]
    where the dictionary has no [mtime], a [TypeError] where the payload is
    no dictionary or [mtime] no number, and a [ValueError] where it is a
    number of seconds that no [datetime] can hold. Any exception other than
    the API's that the [try] block raises, parsing included, leaves
    [refresh] as raised; nothing else leaves it. *)
Theorem refresh_bad_mtime_propagates :
  (∀ E s w p e,
     remote E = Ok p → getitem p "mtime" ≫= fromtimestamp = Raise e →
     is_api_error e = false
     ∧ refresh E (s, w) = (Raise e, (s, fetched s w))
     ∧ (cls s ≠ Job → truthy_id (id s) = true → needs_refresh E s = true →
        load_info E (s, w) = (Raise e, (s, fetched s w)))
     ∧ (cls s = Job → truthy_id (id s) = true → ignore_cache s = true →
        load_info E (s, w) = (set_info_property p ;; save E) (s, fetched s w))
     ∧ cached (load_info E (s, w)).2.1 = cached s)
  ∧ (∀ E s w d,
       cls s = Job → truthy_id (id s) = true → ignore_cache s = true →
       remote E = Ok (VDict d) → d !! "status" = None →
       load_info E (s, w)
       = (Raise (KeyError "status"), (set_info (VDict d) s, fetched s w)))
  ∧ (∀ d, d !! "mtime" = None →
       getitem (VDict d) "mtime" ≫= fromtimestamp = Raise (KeyError "mtime"))
  ∧ (∀ d v, d !! "mtime" = Some v → (∀ n, v ≠ VNum n) →
       getitem (VDict d) "mtime" ≫= fromtimestamp = Raise TypeError)
  ∧ (∀ d n, d !! "mtime" = Some (VNum n) →
       n < min_timestamp ∨ max_timestamp < n →
       getitem (VDict d) "mtime" ≫= fromtimestamp = Raise ValueError)
  ∧ (∀ p, (∀ d, p ≠ VDict d) →
       getitem p "mtime" ≫= fromtimestamp = Raise TypeError)
  ∧ (∀ E st e st',
       is_api_error e = false → refresh_try E st = (Raise e, st') →
       refresh E st = (Raise e, st'))
  ∧ (∀ E st e st',
       refresh E st = (Raise e, st') →
       is_api_error e = false ∧ refresh_try E st = (Raise e, st')).
Proof.
  split_and!.
  - intros E s w p e Hr Hp. pose proof (refresh_bad_mtime E s w p e Hr Hp) as Hrun.
    split_and!.
    + by apply (mtime_failure_quiet p).
    + exact Hrun.
    + intros. by rewrite load_info_refreshes.
    + intros. by apply Job_load_info_fetched.
    + by apply (load_info_keeps_cached_bad_mtime E p e (cached s) Hr Hp (s, w)).
  - apply Job_load_info_missing_status.
  - intros d Hd. unfold getitem. by rewrite Hd.
  - intros d v Hd Hv. unfold getitem. rewrite Hd. cbn.
    destruct v; try done. by destruct (Hv n).
  - intros d n Hd Hn. unfold getitem. rewrite Hd. cbn. unfold fromtimestamp.
    destruct (Z.leb_spec min_timestamp n); [|done].
    destruct (Z.leb_spec n max_timestamp); [lia|done].
  - intros p Hp. destruct p; try done. by destruct (Hp d).
  - intros E st e st' He Hbody. unfold refresh, try_except_api.
    rewrite Hbody. by destruct e.
  - intros E st e st'. unfold refresh, try_except_api.
    destruct (refresh_try E st) as [[[]|e1] st1]; [done|].
    destruct e1; by intros [= <- <-].
Qed.


Lemma refresh_keeps_terminal E :
  keeps (λ o, cls o = Job ∧ ignore_cache o = false) (refresh E).
Proof.
  unfold refresh, refresh_try, _refresh, update_cached, set_info_property,
    parse_info, parse_transient_info, parse_persistent_info,
    Job_parse_transient_info, Job_parse_persistent_info,
    save, Job_save, CachedClusterObject_save, Model_save,
    set_cluster_hash_when_new.
  keeps_walk.
  all: try match goal with H : _ ∧ _ |- _ => destruct H; congruence end.
Qed.

Lemma upsert_elem row rows : row ∈ upsert row rows.
Proof.
  unfold upsert. destruct (existsb _ rows) eqn:He.
  - apply existsb_exists in He as (r & Hin & Hr). unfold update_rows.
    apply list_elem_of_fmap. exists r. rewrite Hr. split; [done|].
    by apply list_elem_of_In.
  - apply elem_of_app. right. by apply list_elem_of_singleton.
Qed.

(** C5, as the code has it. A job with an identity that bypasses the cache
    (pending) fetches on every [load_info]: a payload whose status is
    neither [error] nor [success], [running] say, leaves [ignore_cache]
    set; a payload whose status is [error] or [success] clears it, with a
    narrow update of that column and then the save of the record. A job
    whose [ignore_cache] is clear stays so: [load_info] does nothing at all
    on it, whatever the age of [cached], and [refresh] keeps the flag
    clear. *)
Theorem job_state_machine :
  (∀ E s w n p st,
     cls s = Job → id s = Some n → n ≠ 0 → ignore_cache s = true →
     remote E = Ok p → getitem p "status" = Ok st →
     ∃ s' w',
       load_info E (s, w) = (Ok (), (s', w'))
       ∧ status s' = st ∧ __info s' = p
       ∧ Fetch Job (Some n) ∈ trace w'
       ∧ (terminal st = false → ignore_cache s' = true)
       ∧ (terminal st = true →
          ignore_cache s' = false
          ∧ UpdateIgnoreCache Job (Some n) ∈ trace w'
          ∧ SaveRow (row_of s') ∈ trace w' ∧ row_of s' ∈ db w'
          ∧ ignore_cache (row_of s') = false))
  ∧ terminal (VStr "running") = false
  ∧ terminal (VStr "success") = true ∧ terminal (VStr "error") = true
  ∧ (∀ E s w,
       cls s = Job → ignore_cache s = false →
       load_info E (s, w) = (Ok (), (s, w)))
  ∧ (∀ E s w,
       cls s = Job → ignore_cache s = false →
       ignore_cache (refresh E (s, w)).2.1 = false).
Proof.
  split_and!; try reflexivity.
  - intros E s w n p st Hk Hid Hn Hig Hr Hst.
    exists (Job_after s p st), (Job_world_after s w p st). split.
    { by apply (Job_load_info_pending E s w n). }
    unfold Job_world_after, Job_after. cbn [trace db]. rewrite Hid.
    split_and!.
    + by destruct (terminal st).
    + by destruct (terminal st).
    + apply elem_of_app. right. left.
    + by intros ->.
    + intros ->. split_and!; [reflexivity| | |apply upsert_elem|reflexivity].
      * apply elem_of_app. right. right. left.
      * apply elem_of_app. right. do 3 right. left.
  - apply Job_load_info_terminal.
  - intros E s w Hk Hig.
    by apply (refresh_keeps_terminal E (s, w)).
Qed.

(** C9: the fetch of [Job.load_info] is not guarded. When the remote API
    fails, [load_info] on a pending job raises the API's error to its
    caller and leaves [error] as it was, where [refresh] on the same job
    returns with the text in [error]. *)
Theorem job_load_info_raises_fetch_failure E s w msg :
  cls s = Job → truthy_id (id s) = true → ignore_cache s = true →
  remote E = Raise (GanetiApiError msg) →
  load_info E (s, w) = (Raise (GanetiApiError msg), (s, fetched s w))
  ∧ refresh E (s, w) = (Ok (), (set_error (Some msg) s, fetched s w)).
Proof.
  intros Hk Hid Hig Hr. split; [|by apply refresh_fetch_failure].
  rewrite Job_load_info_unfold, Hid, Hig by done. cbn [andb].
  by apply bind_raise, _refresh_raise.
Qed.

(** ** Owner tags of a virtual machine *)

Lemma scan_tags_strings E owner tags acc :
  Forall (λ t, is_Some (tag_owner E t)) tags →
  scan_tags E owner acc (VStr <$> tags) =
    Ok (acc.1 || existsb (current_tag E owner) tags,
        acc.2 ++ List.filter (stale_tag E owner) tags).
Proof.
  intros Hwf. revert acc. induction Hwf as [|t tags [o Ho] _ IH]; intros [f r].
  - cbn. by rewrite orb_false_r, app_nil_r.
  - cbn [fmap list_fmap scan_tags existsb List.filter]. unfold scan_tag.
    unfold current_tag at 1. unfold stale_tag at 1. unfold tag_owner in *.
    destruct (String.prefix (OWNER_TAG E) t).
    + destruct (py_int _) as [i|]; [|done]. cbn [fmap option_fmap option_map].
      case_bool_decide; cbn [negb fst snd]; rewrite IH; cbn [fst snd].
      * by rewrite orb_true_r.
      * by rewrite <- app_assoc.
    + by rewrite IH.
Qed.

Lemma is_str_VStr t u : is_str t (VStr u) = bool_decide (u = t).
Proof.
  cbn. destruct (String.eqb_spec u t); by case_bool_decide.
Qed.

Lemma remove_each_skip rs t xs :
  t ∉ rs → remove_each rs (VStr t :: xs) = (VStr t ::.) <$> remove_each rs xs.
Proof.
  revert xs. induction rs as [|r rs IH]; intros xs Hin; [done|].
  apply not_elem_of_cons in Hin as [Hne Hin].
  cbn [remove_each remove_first]. rewrite is_str_VStr.
  rewrite bool_decide_false by done.
  destruct (remove_first r xs) as [xs'|]; [|done]. cbn. by apply IH.
Qed.

Lemma remove_each_filter (P : string → bool) tags :
  remove_each (List.filter P tags) (VStr <$> tags) =
    Some (VStr <$> List.filter (λ t, negb (P t)) tags).
Proof.
  induction tags as [|t tags IH]; [done|].
  cbn [List.filter]. destruct (P t) eqn:HP; cbn [negb].
  - cbn [fmap list_fmap remove_each remove_first]. rewrite is_str_VStr.
    rewrite bool_decide_true by done. cbn. apply IH.
  - cbn [fmap list_fmap]. rewrite remove_each_skip, IH; [done|].
    intros [_ Ht]%list_elem_of_In%filter_In. congruence.
Qed.

Lemma set_info_same s : set_info (__info s) s = s.
Proof. by destruct s. Qed.

Lemma set_info_twice v v' s : set_info v (set_info v' s) = set_info v s.
Proof. by destruct s. Qed.

Lemma loaded_dict s d : __info s = VDict d → loaded s = s.
Proof. intros H. unfold loaded. by rewrite H. Qed.

Lemma tags_remove_run s w d xs t xs' :
  __info s = VDict d → d !! "tags" = Some (VList xs) →
  remove_first t xs = Some xs' →
  tags_remove t (s, w) =
    (Ok (), (set_info (VDict (<["tags" := VList xs']> d)) s, w)).
Proof.
  intros Hi Hd Hr. unfold tags_remove. step. rewrite Hi.
  rewrite (getitem_dict _ _ _ Hd). step. rewrite Hr. by step.
Qed.

Lemma for_each_tags_remove rs : ∀ s w d xs xs',
  __info s = VDict d → d !! "tags" = Some (VList xs) →
  remove_each rs xs = Some xs' →
  for_each rs tags_remove (s, w) =
    (Ok (), (set_info (VDict (<["tags" := VList xs']> d)) s, w)).
Proof.
  induction rs as [|r rs IH]; intros s w d xs xs' Hi Hd Hr.
  - cbn in Hr. simplify_eq. rewrite insert_id by done.
    by rewrite <- Hi, set_info_same.
  - cbn [remove_each] in Hr.
    destruct (remove_first r xs) as [xs1|] eqn:Hr1; [|done].
    cbn [for_each]. step_with ltac:(by apply (tags_remove_run _ _ d xs r xs1)).
    erewrite (IH _ _ (<["tags" := VList xs1]> d) xs1 xs');
      [|done|apply lookup_insert_eq|done].
    by rewrite insert_insert_eq, set_info_twice.
Qed.

Lemma tags_append_run s w d xs t :
  __info s = VDict d → d !! "tags" = Some (VList xs) →
  tags_append t (s, w) =
    (Ok (), (set_info (VDict (<["tags" := VList (xs ++ [VStr t])]> d)) s, w)).
Proof.
  intros Hi Hd. unfold tags_append. step_with ltac:(apply info_loaded).
  rewrite (loaded_dict s d Hi), Hi, (getitem_dict _ _ _ Hd). by step.
Qed.

Lemma rapi_call_ok call s w :
  rapi_call call None (s, w) =
    (Ok (), (s, {| db := db w; trace := trace w ++ [call] |})).
Proof. unfold rapi_call. by step. Qed.

Lemma update_owner_tag_run E s w d tags :
  __info s = VDict d → d !! "tags" = Some (VList (VStr <$> tags)) →
  Forall (λ t, is_Some (tag_owner E t)) tags →
  delete_tags_error E = None → add_tags_error E = None →
  update_owner_tag E (VDict d) s (s, w) =
    (Ok (),
     (set_info (VDict (<["tags" := VList (VStr <$> tags_after E s tags)]> d)) s,
      {| db := db w; trace := trace w ++ tag_calls E s tags |})).
Proof.
  intros Hi Hd Hwf Hdel Hadd. unfold update_owner_tag.
  rewrite (getitem_dict _ _ _ Hd). step. step.
  rewrite (scan_tags_strings E _ tags _ Hwf). step. cbn [fst snd app orb].
  rewrite Hdel, Hadd.
  unfold tag_calls, tags_after, adds_tag, tags_to_delete.
  pose proof (remove_each_filter (stale_tag E (owner_id s)) tags) as Hrm.
  set (f := existsb (current_tag E (owner_id s)) tags) in *.
  rewrite fmap_app.
  destruct (List.filter (stale_tag E (owner_id s)) tags) as [|r rs] eqn:Hrs.
  - cbn in Hrm. simplify_eq. rewrite <- Hrm. step.
    destruct (truthy_id (owner_id s) && negb f).
    + step_with ltac:(apply rapi_call_ok).
      by rewrite (tags_append_run _ _ d (VStr <$> tags)) by done.
    + cbn. rewrite !app_nil_r, insert_id by done.
      rewrite <- Hi, set_info_same. by destruct w.
  - step_with ltac:(step_with ltac:(apply rapi_call_ok);
                    by apply (for_each_tags_remove _ _ _ d (VStr <$> tags))).
    destruct (truthy_id (owner_id s) && negb f).
    + step_with ltac:(apply rapi_call_ok).
      erewrite tags_append_run; [|done|apply lookup_insert_eq].
      rewrite insert_insert_eq, set_info_twice. cbn.
      by rewrite <- app_assoc.
    + cbn. by rewrite !app_nil_r.
Qed.

Lemma CachedClusterObject_save_run s w :
  cls s ≠ Cluster →
  CachedClusterObject_save (s, w) =
    (Ok (), (set_id (Some (pk_of s w)) (encoded s),
             {| db := upsert (saved_row (encoded s) w) (db w);
                trace := trace w ++ pickled s
                           ++ [SaveRow (saved_row (encoded s) w)] |})).
Proof.
  intros Hk. unfold CachedClusterObject_save, encoded, pickled. step.
  destruct (serialized_info s) eqn:Hs.
  - step. by rewrite Model_save_run.
  - step_with ltac:(step; reflexivity). rewrite Model_save_run by done.
    cbn. by rewrite <- app_assoc.
Qed.

Lemma truthy_dict d key (v : value) : d !! key = Some v → truthy (VDict d) = true.
Proof.
  intros Hd. cbn. apply negb_true_iff, Nat.eqb_neq. intros Hz.
  apply map_size_empty_iff in Hz. by rewrite Hz in Hd.
Qed.

(** [VirtualMachine.save] of a stored machine whose [info] is loaded, when
    the tag calls succeed. *)
Lemma VirtualMachine_save_run E s w n d tags :
  cls s = VirtualMachine → id s = Some n →
  __info s = VDict d → d !! "tags" = Some (VList (VStr <$> tags)) →
  Forall (λ t, is_Some (tag_owner E t)) tags →
  delete_tags_error E = None → add_tags_error E = None →
  save E (s, w) =
    CachedClusterObject_save
      (set_info (VDict (<["tags" := VList (VStr <$> tags_after E s tags)]> d)) s,
       {| db := db w; trace := trace w ++ tag_calls E s tags |}).
Proof.
  intros Hk Hid Hi Hd Hwf Hdel Hadd. unfold save. step. rewrite Hk.
  unfold VirtualMachine_save.
  step_with ltac:(by apply (set_cluster_hash_when_new_old _ _ n)).
  step_with ltac:(apply info_loaded). rewrite (loaded_dict s d Hi), Hi.
  step. rewrite (truthy_dict d _ _ Hd).
  by step_with ltac:(by apply update_owner_tag_run).
Qed.

Lemma filter_none_negb {A} (P : A → bool) l :
  List.filter P l = [] → List.filter (λ x, negb (P x)) l = l.
Proof.
  induction l as [|x l IH]; [done|]. cbn. destruct (P x); [done|].
  intros H. cbn. by rewrite IH.
Qed.

(** C7, as the code has it. Saving a stored machine whose [info] is loaded,
    whose owner tags all carry a number and whose tag calls succeed, issues
    at most one [DeleteInstanceTags], for all owner tags of other owners
    together, then at most one [AddInstanceTags], and leaves the tag list
    in memory without the deleted tags and with the added one. When the
    owner is [y], a tag of another owner [x] is present and no tag of [y]
    is, there is exactly one delete batch, containing the tag of [x], and
    exactly one add, of the tag of [y]. When a tag of the owner is present
    and no owner tag of anybody else is, no tag call is made and the list
    is unchanged. *)
Theorem virtual_machine_save_owner_tag E s w n d tags :
  cls s = VirtualMachine → id s = Some n →
  __info s = VDict d → d !! "tags" = Some (VList (VStr <$> tags)) →
  Forall (λ t, is_Some (tag_owner E t)) tags →
  delete_tags_error E = None → add_tags_error E = None →
  ∃ s' w' rest,
    save E (s, w) = (Ok (), (s', w'))
    ∧ __info s' = VDict (<["tags" := VList (VStr <$> tags_after E s tags)]> d)
    ∧ trace w' = trace w ++ tag_calls E s tags ++ rest
    ∧ Forall (λ ev, is_tag_call ev = false) rest
    ∧ (∃ dels adds,
         tag_calls E s tags = dels ++ adds
         ∧ (dels = [] ∨
            dels = [DeleteInstanceTags (hostname s) (tags_to_delete E s tags)])
         ∧ (adds = [] ∨
            adds = [AddInstanceTags (hostname s)
                      [owner_tag E (default 0 (owner_id s))]]))
    ∧ (∀ x y t,
         owner_id s = Some y → y ≠ 0 → x ≠ y →
         t ∈ tags → tag_owner E t = Some (Some x) →
         existsb (current_tag E (owner_id s)) tags = false →
         tag_calls E s tags =
           [DeleteInstanceTags (hostname s) (tags_to_delete E s tags);
            AddInstanceTags (hostname s) [owner_tag E y]]
         ∧ t ∈ tags_to_delete E s tags
         ∧ tags_after E s tags =
             List.filter (λ t, negb (stale_tag E (owner_id s) t)) tags
             ++ [owner_tag E y])
    ∧ (existsb (current_tag E (owner_id s)) tags = true →
       tags_to_delete E s tags = [] →
       tag_calls E s tags = [] ∧ tags_after E s tags = tags).
Proof.
  intros Hk Hid Hi Hd Hwf Hdel Hadd.
  eexists _, _, _. split.
  { rewrite (VirtualMachine_save_run E s w n d tags) by done.
    apply CachedClusterObject_save_run. cbn. congruence. }
  split_and!.
  - unfold encoded. cbn. by destruct (serialized_info s).
  - cbn [trace]. by rewrite <- app_assoc.
  - apply Forall_app. split; [|by repeat constructor].
    unfold pickled. cbn. destruct (serialized_info s); by repeat constructor.
  - unfold tag_calls. eexists _, _. split; [reflexivity|]. split.
    + destruct (tags_to_delete E s tags); [by left|by right].
    + destruct (adds_tag E s tags); [by right|by left].
  - intros x y t Ho Hy Hxy Ht Htag Hcur.
    assert (stale_tag E (owner_id s) t = true) as Hstale.
    { unfold stale_tag. rewrite Htag, Ho. apply negb_true_iff.
      apply bool_decide_eq_false. congruence. }
    assert (t ∈ tags_to_delete E s tags) as Hin.
    { apply list_elem_of_In, filter_In. split; [by apply list_elem_of_In|done]. }
    assert (adds_tag E s tags = true) as Hadds.
    { unfold adds_tag. rewrite Hcur, Ho. cbn. by destruct (Z.eqb_spec y 0). }
    unfold tag_calls, tags_after. rewrite Hadds, Ho. cbn [default].
    split_and!; [|done..].
    destruct (tags_to_delete E s tags); [|done]. by apply elem_of_nil in Hin.
  - intros Hcur Hnone. unfold tag_calls, tags_after, adds_tag.
    rewrite Hcur, Hnone, andb_false_r. split; [done|].
    rewrite app_nil_r. by apply filter_none_negb.
Qed.

(** ** A refresh that finds a change *)

Lemma save_inv E st st2 :
  save E st = (Ok (), st2) →
  ∃ mid, before_save E st = (Ok (), mid)
         ∧ CachedClusterObject_save mid = (Ok (), st2).
Proof.
  unfold save, before_save. intros (o & st0 & [= <- <-] & H)%bind_ok_inv.
  erewrite bind_ok by reflexivity. cbn [fst] in *.
  destruct (cls st.1).
  - apply bind_ok_inv in H as ([] & mid & H1 & H2). eauto.
  - apply bind_ok_inv in H as ([] & mid & H1 & H2). eauto.
  - unfold VirtualMachine_save in H.
    apply bind_ok_inv in H as ([] & st1 & H1 & H).
    apply bind_ok_inv in H as (i & st3 & H2 & H).
    apply bind_ok_inv in H as (o' & st4 & H3 & H).
    apply bind_ok_inv in H as ([] & mid & H4 & H).
    exists mid. split; [|done].
    erewrite bind_ok by done. erewrite bind_ok by done.
    by erewrite bind_ok by done.
  - unfold Cluster_save in H.
    apply bind_ok_inv in H as (o' & st1 & [= <- <-] & H).
    apply bind_ok_inv in H as ([] & mid & H1 & H2). eauto.
Qed.

Lemma Model_save_any s w :
  Model_save (s, w) =
    if refused s w then (Raise IntegrityError, (s, w))
    else
      (Ok (), (set_id (Some (pk_of s w)) s,
               post_save (set_id (Some (pk_of s w)) s)
                 {| db := upsert (saved_row s w) (db w);
                    trace := trace w ++ [SaveRow (saved_row s w)] |})).
Proof.
  unfold Model_save, saved_row, pk_of, post_save, refused. do 2 step.
  cbn [fst snd]. destruct (existsb _ (db w)); [done|]. do 4 step.
  cbn [fst cls set_id]. by destruct (cls s).
Qed.

Lemma encoded_columns s :
  cls (encoded s) = cls s ∧ id (encoded s) = id s
  ∧ hostname (encoded s) = hostname s ∧ slug (encoded s) = slug s.
Proof. unfold encoded. by destruct (serialized_info s). Qed.

Lemma refused_encoded s w : refused (encoded s) w = refused s w.
Proof.
  unfold refused, pk_of, clashes.
  destruct (encoded_columns s) as (-> & -> & -> & ->). done.
Qed.

Lemma CachedClusterObject_save_any s w :
  CachedClusterObject_save (s, w) =
    if refused s w
    then (Raise IntegrityError,
          (encoded s, {| db := db w; trace := trace w ++ pickled s |}))
    else
      (Ok (), (set_id (Some (pk_of s w)) (encoded s),
               post_save (set_id (Some (pk_of s w)) (encoded s))
                 {| db := upsert (saved_row (encoded s) w) (db w);
                    trace := trace w ++ pickled s
                               ++ [SaveRow (saved_row (encoded s) w)] |})).
Proof.
  rewrite <- (refused_encoded s w).
  unfold CachedClusterObject_save, encoded, pickled. step.
  destruct (serialized_info s) eqn:Hs.
  - step. rewrite Model_save_any. rewrite app_nil_r.
    destruct (refused s w); [by destruct w|done].
  - step_with ltac:(step; reflexivity). rewrite Model_save_any.
    unfold refused, saved_row, pk_of. cbn.
    destruct (existsb _ (db w)); [done|]. by rewrite <- app_assoc.
Qed.

Lemma update_rows_elem p f r rows :
  r ∈ rows → p r = false → r ∈ update_rows p f rows.
Proof.
  intros Hin Hp. unfold update_rows. apply list_elem_of_fmap.
  exists r. by rewrite Hp.
Qed.

Lemma post_save_db o w r :
  r ∈ db w → cls r = cls o → r ∈ db (post_save o w).
Proof.
  intros Hin Hk. unfold post_save. destruct (cls o) eqn:Ho; try done.
  cbn. apply update_rows_elem; [done|]. rewrite Hk. by cbn.
Qed.

Lemma post_save_trace o w ev : ev ∈ trace w → ev ∈ trace (post_save o w).
Proof.
  intros Hin. unfold post_save. destruct (cls o); try done.
  cbn. apply elem_of_app. by left.
Qed.

(** What [CachedClusterObject.save] does when [info] is to be encoded. *)
Lemma CachedClusterObject_save_dirty_facts st st2 :
  CachedClusterObject_save st = (Ok (), st2) →
  serialized_info st.1 = None →
  __info st2.1 = __info st.1
  ∧ serialized_info st2.1 = Some (__info st2.1)
  ∧ cached st2.1 = cached st.1 ∧ mtime st2.1 = mtime st.1
  ∧ Pickle (__info st2.1) ∈ trace st2.2
  ∧ SaveRow (row_of st2.1) ∈ trace st2.2
  ∧ row_of st2.1 ∈ db st2.2
  ∧ serialized_info (row_of st2.1) = Some (__info st2.1).
Proof.
  destruct st as [s w]. rewrite CachedClusterObject_save_any.
  destruct (refused s w); [done|].
  intros [= <-] Hs. cbn [fst snd] in *. unfold encoded, pickled, saved_row, pk_of.
  rewrite Hs. cbn [serialized_info __info cached mtime set_id
    set_serialized_info row_of set_info set_error set_mtime set_ctime
    set_status set_saved].
  split_and!; try reflexivity.
  - apply post_save_trace. cbn. apply elem_of_app. right. left.
  - apply post_save_trace. cbn. apply elem_of_app. right. right. left.
  - apply post_save_db; [|reflexivity]. cbn. apply upsert_elem.
Qed.

Lemma before_frame_refl o : before_frame o o.
Proof. by repeat split. Qed.

Lemma before_save_keeps_frame E o0 : keeps (before_frame o0) (before_save E).
Proof.
  assert (keeps (before_frame o0) info) by (unfold info; keeps_walk).
  unfold before_save, update_owner_tag, set_cluster_hash_when_new, rapi_call,
    tags_remove, tags_append.
  keeps_walk.
Qed.

Lemma keeps_run {A} (I : obj → Prop) (m : M A) st r st' :
  keeps I m → I st.1 → m st = (r, st') → I st'.1.
Proof. intros Hm HI Heq. specialize (Hm st HI). by rewrite Heq in Hm. Qed.

Lemma CachedClusterObject_parse_persistent_info_run s w v t :
  getitem (__info s) "mtime" = Ok v → fromtimestamp v = Ok t →
  CachedClusterObject_parse_persistent_info (s, w) =
    (Ok (), (set_mtime (Some t) s, w)).
Proof.
  intros Hg Ht. unfold CachedClusterObject_parse_persistent_info. step.
  unfold mbind at 2, res_bind. rewrite Hg, Ht. by step.
Qed.

Lemma bind_get_self {B} (f : obj → M B) s w : (get_self ≫= f) (s, w) = f s (s, w).
Proof. reflexivity. Qed.

Lemma info_dict s w d : __info s = VDict d → info (s, w) = (Ok (VDict d), (s, w)).
Proof. intros Hi. by rewrite info_loaded, (loaded_dict s d), Hi. Qed.

Lemma sum_disks_nums ns : ∀ acc,
  sum_disks acc (VNum <$> ns) = Ok (acc + foldr Z.add 0 ns).
Proof.
  induction ns as [|n ns IH]; intros acc; cbn.
  - f_equal. lia.
  - rewrite IH. f_equal. lia.
Qed.

Lemma encoded_cases s :
  encoded s = s ∨ encoded s = set_serialized_info (Some (__info s)) s.
Proof. unfold encoded. destruct (serialized_info s); auto. Qed.

Lemma CachedClusterObject_parse_transient_info_run s w d c tc :
  __info s = VDict d → d !! "ctime" = Some c →
  (c = VNone ∨ fromtimestamp c = Ok tc) →
  CachedClusterObject_parse_transient_info (s, w)
  = (Ok (), (match c with VNone => s | _ => set_ctime (Some tc) s end, w)).
Proof.
  intros Hi Hc Hform. unfold CachedClusterObject_parse_transient_info.
  step_with ltac:(by apply (info_dict _ _ d)).
  step_with ltac:(by rewrite (getitem_dict _ _ _ Hc)).
  destruct c; [done|..]; (destruct Hform as [|Ht]; [done|]); rewrite Ht; by step.
Qed.

Lemma parse_transient_info_run s w d c tc :
  cls s ≠ Job → __info s = VDict d → d !! "ctime" = Some c →
  (c = VNone ∨ fromtimestamp c = Ok tc) →
  parse_transient_info (s, w)
  = (Ok (), (match c with VNone => s | _ => set_ctime (Some tc) s end, w)).
Proof.
  intros Hk Hi Hc Hform. unfold parse_transient_info. rewrite bind_get_self.
  pose proof (CachedClusterObject_parse_transient_info_run s w d c tc Hi Hc Hform).
  by destruct (cls s).
Qed.


Lemma with_ctime_run s w d c tc :
  cls s ≠ Job → __info s = VDict d → d !! "ctime" = Some c →
  (c = VNone ∨ fromtimestamp c = Ok tc) →
  parse_transient_info (s, w) = (Ok (), (with_ctime c tc s, w)).
Proof. apply parse_transient_info_run. Qed.

Lemma with_ctime_frame c tc o :
  cls (with_ctime c tc o) = cls o ∧ __info (with_ctime c tc o) = __info o.
Proof. unfold with_ctime. by destruct c. Qed.

Lemma VirtualMachine_parse_persistent_info_run s w d v t be mem cpus sizes os :
  __info s = VDict d →
  d !! "mtime" = Some v → fromtimestamp v = Ok t →
  d !! "beparams" = Some (VDict be) →
  be !! "memory" = Some mem → be !! "vcpus" = Some cpus →
  d !! "disk.sizes" = Some (VList (VNum <$> sizes)) → d !! "os" = Some os →
  VirtualMachine_parse_persistent_info (s, w)
  = (Ok (),
     (set_operating_system os
        (set_disk_size (VNum (foldr Z.add 0 sizes))
           (set_virtual_cpus cpus (set_ram mem (set_mtime (Some t) s)))), w)).
Proof.
  intros Hi Hm Ht Hbe Hmem Hcpu Hsz Hos.
  unfold VirtualMachine_parse_persistent_info.
  step_with ltac:(
    apply (CachedClusterObject_parse_persistent_info_run _ _ v t);
      [rewrite Hi; by apply getitem_dict | done]).
  step_with ltac:(apply (info_dict _ _ d); exact Hi).
  step_with ltac:(
    unfold lift; cbn [mbind res_bind];
    rewrite (getitem_dict _ _ _ Hbe); cbn; rewrite (getitem_dict _ _ _ Hmem);
    reflexivity).
  step.
  step_with ltac:(apply (info_dict _ _ d); exact Hi).
  step_with ltac:(
    unfold lift; cbn [mbind res_bind];
    rewrite (getitem_dict _ _ _ Hbe); cbn; rewrite (getitem_dict _ _ _ Hcpu);
    reflexivity).
  step.
  step_with ltac:(apply (info_dict _ _ d); exact Hi).
  step_with ltac:(by rewrite (getitem_dict _ _ _ Hsz)).
  step.
  step_with ltac:(by rewrite sum_disks_nums).
  step.
  step_with ltac:(apply (info_dict _ _ d); exact Hi).
  step_with ltac:(by rewrite (getitem_dict _ _ _ Hos)).
  reflexivity.
Qed.

(** The [info] setter on a [TestModel] or a [Cluster]. *)
Lemma set_info_property_base s w d v t c tc :
  cls s = TestModel ∨ cls s = Cluster →
  d !! "mtime" = Some v → fromtimestamp v = Ok t →
  d !! "ctime" = Some c → (c = VNone ∨ fromtimestamp c = Ok tc) →
  set_info_property (VDict d) (s, w)
  = (Ok (), (set_serialized_info None
               (set_mtime (Some t) (with_ctime c tc (set_info (VDict d) s))), w)).
Proof.
  intros Hk Hm Ht Hc Hform. unfold set_info_property. step.
  assert (parse_info (set_info (VDict d) s, w)
          = (Ok (), (set_mtime (Some t) (with_ctime c tc (set_info (VDict d) s)), w)))
    as Hparse.
  { unfold parse_info.
    step_with ltac:(apply (with_ctime_run _ _ d c tc);
                    [destruct Hk as [Hk|Hk]; cbn; rewrite Hk; done|done..]).
    destruct (with_ctime_frame c tc (set_info (VDict d) s)) as [Hk1 Hi1].
    unfold parse_persistent_info. rewrite bind_get_self, Hk1.
    assert (CachedClusterObject_parse_persistent_info
              (with_ctime c tc (set_info (VDict d) s), w)
            = (Ok (), (set_mtime (Some t) (with_ctime c tc (set_info (VDict d) s)), w)))
      as H.
    { apply (CachedClusterObject_parse_persistent_info_run _ _ v t); [|done].
      rewrite Hi1. by apply getitem_dict. }
    cbn [cls set_info]. by destruct Hk as [-> | ->]. }
  by step_with ltac:(exact Hparse).
Qed.

(** The [info] setter on a [VirtualMachine]. *)
Lemma set_info_property_VirtualMachine s w d v t c tc be mem cpus sizes os :
  cls s = VirtualMachine →
  d !! "mtime" = Some v → fromtimestamp v = Ok t →
  d !! "ctime" = Some c → (c = VNone ∨ fromtimestamp c = Ok tc) →
  d !! "beparams" = Some (VDict be) →
  be !! "memory" = Some mem → be !! "vcpus" = Some cpus →
  d !! "disk.sizes" = Some (VList (VNum <$> sizes)) → d !! "os" = Some os →
  set_info_property (VDict d) (s, w)
  = (Ok (),
     (set_serialized_info None
        (set_operating_system os
           (set_disk_size (VNum (foldr Z.add 0 sizes))
              (set_virtual_cpus cpus
                 (set_ram mem
                    (set_mtime (Some t)
                       (with_ctime c tc (set_info (VDict d) s))))))), w)).
Proof.
  intros Hk Hm Ht Hc Hform Hbe Hmem Hcpu Hsz Hos.
  unfold set_info_property. step.
  destruct (with_ctime_frame c tc (set_info (VDict d) s)) as [Hk1 Hi1].
  assert (parse_info (set_info (VDict d) s, w)
          = (Ok (),
             (set_operating_system os
                (set_disk_size (VNum (foldr Z.add 0 sizes))
                   (set_virtual_cpus cpus
                      (set_ram mem
                         (set_mtime (Some t)
                            (with_ctime c tc (set_info (VDict d) s)))))), w)))
    as Hparse.
  { unfold parse_info.
    step_with ltac:(apply (with_ctime_run _ _ d c tc);
                    [cbn; rewrite Hk; done|done..]).
    unfold parse_persistent_info. rewrite bind_get_self, Hk1.
    cbn [cls set_info]. rewrite Hk.
    by apply (VirtualMachine_parse_persistent_info_run _ _ d v t be). }
  by step_with ltac:(exact Hparse).
Qed.

(** The [info] setter on a [Job] that does not bypass the cache. *)
Lemma Job_set_info_property_settled s w v :
  cls s = Job → ignore_cache s = false →
  set_info_property v (s, w) = (Ok (), (set_serialized_info None (set_info v s), w)).
Proof.
  intros Hk Hig. unfold set_info_property. step.
  step_with ltac:(rewrite parse_info_Job by done;
                  unfold Job_parse_persistent_info; rewrite bind_get_self;
                  cbn [ignore_cache set_info]; rewrite Hig; reflexivity).
  reflexivity.
Qed.

Lemma save_TestModel E s w :
  cls s = TestModel → save E (s, w) = CachedClusterObject_save (set_saved true s, w).
Proof.
  intros Hk. unfold save. rewrite bind_get_self, Hk. unfold TestModel_save.
  by step.
Qed.

Lemma save_Cluster E s w :
  cls s = Cluster →
  save E (s, w) = CachedClusterObject_save (set_hash (create_hash E s) s, w).
Proof.
  intros Hk. unfold save. rewrite bind_get_self, Hk. unfold Cluster_save.
  by rewrite bind_get_self.
Qed.

Lemma refused_same s s' w w' :
  cls s' = cls s → id s' = id s → hostname s' = hostname s →
  slug s' = slug s → db w' = db w → refused s' w' = refused s w.
Proof.
  intros H1 H2 H3 H4 H5. unfold refused, pk_of, clashes.
  by rewrite H1, H2, H3, H4, H5.
Qed.

Lemma newer_branch {A} s t (m1 m2 : M A) :
  (∀ old, mtime s = Some old → old < t) →
  match mtime s with
  | Some old => if old <? t then m1 else m2
  | None => m1
  end = m1.
Proof.
  intros Hnew. destruct (mtime s) as [old|]; [|done].
  pose proof (Hnew old eq_refl). by destruct (Z.ltb_spec old t); [|lia].
Qed.

(** [refresh] when the payload is newer: the setter and [save] decide. *)
Lemma refresh_change_run E s w p v t st2 :
  remote E = Ok p → getitem p "mtime" = Ok v → fromtimestamp v = Ok t →
  (∀ old, mtime s = Some old → old < t) →
  (set_info_property p ;; save E) (set_cached (Some (now E)) s, fetched s w)
  = (Ok (), st2) →
  refresh E (s, w) = (Ok (), (set_error None st2.1, st2.2)).
Proof.
  intros Hr Hg Ht Hnew Hrun. unfold refresh, try_except_api.
  rewrite (refresh_fetch_ok E s w p v t Hr Hg Ht), (newer_branch s t) by done.
  erewrite bind_ok by exact Hrun. by destruct st2.
Qed.

Lemma refresh_change_absorbed E s w p v t msg st2 :
  remote E = Ok p → getitem p "mtime" = Ok v → fromtimestamp v = Ok t →
  (∀ old, mtime s = Some old → old < t) →
  (set_info_property p ;; save E) (set_cached (Some (now E)) s, fetched s w)
  = (Raise (GanetiApiError msg), st2) →
  refresh E (s, w) = (Ok (), (set_error (Some msg) st2.1, st2.2)).
Proof.
  intros Hr Hg Ht Hnew Hrun. unfold refresh, try_except_api.
  rewrite (refresh_fetch_ok E s w p v t Hr Hg Ht), (newer_branch s t) by done.
  erewrite bind_raise by exact Hrun. by destruct st2.
Qed.

Lemma refresh_change_raised E s w p v t e st2 :
  remote E = Ok p → getitem p "mtime" = Ok v → fromtimestamp v = Ok t →
  (∀ old, mtime s = Some old → old < t) → is_api_error e = false →
  (set_info_property p ;; save E) (set_cached (Some (now E)) s, fetched s w)
  = (Raise e, st2) →
  refresh E (s, w) = (Raise e, st2).
Proof.
  intros Hr Hg Ht Hnew He Hrun. unfold refresh, try_except_api.
  rewrite (refresh_fetch_ok E s w p v t Hr Hg Ht), (newer_branch s t) by done.
  erewrite bind_raise by exact Hrun. by destruct e.
Qed.

Lemma rapi_call_fails call e s w :
  rapi_call call (Some e) (s, w)
  = (Raise e, (s, {| db := db w; trace := trace w ++ [call] |})).
Proof. unfold rapi_call. by step. Qed.

Lemma update_owner_tag_delete_fails E s w d tags e :
  d !! "tags" = Some (VList (VStr <$> tags)) →
  Forall (λ t, is_Some (tag_owner E t)) tags →
  tags_to_delete E s tags ≠ [] → delete_tags_error E = Some e →
  update_owner_tag E (VDict d) s (s, w)
  = (Raise e,
     (s, {| db := db w;
            trace := trace w ++ [DeleteInstanceTags (hostname s)
                                   (tags_to_delete E s tags)] |})).
Proof.
  intros Hd Hwf Hne Hdel. unfold update_owner_tag.
  rewrite (getitem_dict _ _ _ Hd). step. step.
  rewrite (scan_tags_strings E _ tags _ Hwf). step. cbn [fst snd app orb].
  unfold tags_to_delete in *.
  destruct (List.filter (stale_tag E (owner_id s)) tags) as [|r rs]; [done|].
  erewrite bind_raise; [reflexivity|]. erewrite bind_raise; [reflexivity|].
  rewrite Hdel. apply rapi_call_fails.
Qed.

Lemma update_owner_tag_add_fails E s w d tags e :
  __info s = VDict d → d !! "tags" = Some (VList (VStr <$> tags)) →
  Forall (λ t, is_Some (tag_owner E t)) tags →
  tags_to_delete E s tags = [] ∨ delete_tags_error E = None →
  adds_tag E s tags = true → add_tags_error E = Some e →
  update_owner_tag E (VDict d) s (s, w)
  = (Raise e,
     (set_info
        (VDict (<["tags" := VList (VStr <$> List.filter
                               (λ t, negb (stale_tag E (owner_id s) t)) tags)]> d)) s,
      {| db := db w; trace := trace w ++ tag_calls E s tags |})).
Proof.
  intros Hi Hd Hwf Hdel Hadds Hadd. unfold update_owner_tag.
  rewrite (getitem_dict _ _ _ Hd). step. step.
  rewrite (scan_tags_strings E _ tags _ Hwf). step. cbn [fst snd app orb].
  unfold tag_calls. rewrite Hadds. unfold adds_tag, tags_to_delete in *.
  pose proof (remove_each_filter (stale_tag E (owner_id s)) tags) as Hrm.
  rewrite Hadds, Hadd.
  destruct (List.filter (stale_tag E (owner_id s)) tags) as [|r rs] eqn:Hrs.
  - cbn in Hrm. simplify_eq. rewrite <- Hrm. step.
    erewrite bind_raise; [reflexivity|].
    rewrite insert_id by done. rewrite <- Hi, set_info_same.
    apply rapi_call_fails.
  - destruct Hdel as [|Hdel]; [done|]. rewrite Hdel.
    step_with ltac:(step_with ltac:(apply rapi_call_ok);
                    by apply (for_each_tags_remove _ _ _ d (VStr <$> tags))).
    erewrite bind_raise; [reflexivity|]. cbn [app].
    rewrite rapi_call_fails. cbn [db trace]. by rewrite <- app_assoc.
Qed.

Lemma VirtualMachine_save_tag_failure E s w n d tags e st' :
  cls s = VirtualMachine → id s = Some n →
  __info s = VDict d → d !! "tags" = Some tags →
  update_owner_tag E (VDict d) s (s, w) = (Raise e, st') →
  save E (s, w) = (Raise e, st').
Proof.
  intros Hk Hid Hi Hd Hrun. unfold save. rewrite bind_get_self, Hk.
  unfold VirtualMachine_save.
  step_with ltac:(by apply (set_cluster_hash_when_new_old _ _ n)).
  step_with ltac:(apply info_loaded). rewrite (loaded_dict s d Hi), Hi.
  step. rewrite (truthy_dict d _ _ Hd).
  erewrite bind_raise; [reflexivity|exact Hrun].
Qed.

Lemma tags_same E s s' tags :
  owner_id s' = owner_id s → hostname s' = hostname s →
  tags_after E s' tags = tags_after E s tags
  ∧ tag_calls E s' tags = tag_calls E s tags
  ∧ tags_to_delete E s' tags = tags_to_delete E s tags
  ∧ adds_tag E s' tags = adds_tag E s tags.
Proof.
  intros Ho Hh. unfold tags_after, tag_calls, tags_to_delete, adds_tag.
  by rewrite Ho, Hh.
Qed.

(** [CachedClusterObject.save] of an object whose [info] is to be encoded,
    when the store accepts the row. *)
Lemma CachedClusterObject_save_fresh s w :
  serialized_info s = None → refused s w = false →
  CachedClusterObject_save (s, w)
  = (Ok (),
     (set_id (Some (pk_of s w)) (set_serialized_info (Some (__info s)) s),
      post_save (set_id (Some (pk_of s w)) (set_serialized_info (Some (__info s)) s))
        {| db := upsert (row_of (set_id (Some (pk_of s w))
                                   (set_serialized_info (Some (__info s)) s))) (db w);
           trace := trace w ++ [Pickle (__info s);
                      SaveRow (row_of (set_id (Some (pk_of s w))
                                         (set_serialized_info (Some (__info s)) s)))] |})).
Proof.
  intros Hs Href. rewrite CachedClusterObject_save_any, Href.
  unfold encoded, pickled, saved_row, pk_of. rewrite Hs. reflexivity.
Qed.

Lemma refused_other_class s w : cls s ≠ Cluster → refused s w = false.
Proof. intros Hk. by apply clashes_other_class. Qed.

Lemma refresh_change_base E s w d v t c tc :
  cls s = TestModel ∨ cls s = Cluster →
  remote E = Ok (VDict d) →
  d !! "mtime" = Some v → fromtimestamp v = Ok t →
  (∀ old, mtime s = Some old → old < t) →
  d !! "ctime" = Some c → (c = VNone ∨ fromtimestamp c = Ok tc) →
  refused s w = false →
  ∃ s' w',
    refresh E (s, w) = (Ok (), (s', w'))
    ∧ error s' = None ∧ cached s' = Some (now E)
    ∧ __info s' = VDict d
    ∧ mtime s' = Some t
    ∧ ctime s' = match c with VNone => ctime s | _ => Some tc end
    ∧ serialized_info s' = Some (VDict d)
    ∧ id s' = Some (pk_of s w)
    ∧ trace w'
      = trace w ++ [Fetch (cls s) (id s); Pickle (VDict d); SaveRow (row_of s')]
          ++ match cls s with
             | Cluster => [UpdateClusterHash (id s') (hash s')]
             | _ => []
             end
    ∧ row_of s' ∈ db w'
    ∧ serialized_info (row_of s') = Some (VDict d).
Proof.
  intros Hk Hr Hm Ht Hnew Hc Hform Href.
  pose proof (set_info_property_base (set_cached (Some (now E)) s) (fetched s w)
                d v t c tc Hk Hm Ht Hc Hform) as Hset.
  destruct (with_ctime_frame c tc
              (set_info (VDict d) (set_cached (Some (now E)) s))) as [Hk1 _].
  destruct Hk as [Hk|Hk].
  - eexists _, _. split.
    { eapply (refresh_change_run E s w (VDict d) v t);
        [done|by apply getitem_dict|done|done|].
      erewrite bind_ok by exact Hset.
      rewrite save_TestModel by (cbn; by rewrite Hk1).
      apply CachedClusterObject_save_fresh; [reflexivity|].
      apply refused_other_class. cbn. rewrite Hk1. cbn. congruence. }
    clear Hset Hk1 Href Hnew.
    destruct_obj s; destruct w as [rows tr]; cbn in Hk; subst.
    unfold with_ctime, post_save, fetched, pk_of.
    destruct c; record_simpl; (split_and!; [reflexivity..| |apply upsert_elem|reflexivity]);
      by rewrite <- app_assoc.
  - eexists _, _. split.
    { eapply (refresh_change_run E s w (VDict d) v t);
        [done|by apply getitem_dict|done|done|].
      erewrite bind_ok by exact Hset.
      rewrite save_Cluster by (cbn; by rewrite Hk1).
      apply CachedClusterObject_save_fresh; [reflexivity|].
      rewrite <- Href. apply refused_same; cbn; try reflexivity.
      all: unfold with_ctime; by destruct c. }
    clear Hset Hk1 Href Hnew.
    destruct_obj s; destruct w as [rows tr]; cbn in Hk; subst.
    unfold with_ctime, post_save, fetched, pk_of.
    destruct c; record_simpl; (split_and!; [reflexivity..| | |reflexivity]).
    all: try by rewrite <- !app_assoc.
    all: apply update_rows_elem; [apply upsert_elem|reflexivity].
Qed.

Lemma refresh_change_refused E s w d v t c tc :
  cls s = Cluster →
  remote E = Ok (VDict d) →
  d !! "mtime" = Some v → fromtimestamp v = Ok t →
  (∀ old, mtime s = Some old → old < t) →
  d !! "ctime" = Some c → (c = VNone ∨ fromtimestamp c = Ok tc) →
  refused s w = true →
  ∃ s' w',
    refresh E (s, w) = (Raise IntegrityError, (s', w'))
    ∧ id s' = id s ∧ error s' = error s ∧ cached s' = Some (now E)
    ∧ __info s' = VDict d ∧ mtime s' = Some t
    ∧ db w' = db w
    ∧ trace w' = trace w ++ [Fetch Cluster (id s); Pickle (VDict d)].
Proof.
  intros Hk Hr Hm Ht Hnew Hc Hform Href.
  pose proof (set_info_property_base (set_cached (Some (now E)) s) (fetched s w)
                d v t c tc (or_intror Hk) Hm Ht Hc Hform) as Hset.
  destruct (with_ctime_frame c tc
              (set_info (VDict d) (set_cached (Some (now E)) s))) as [Hk1 _].
  eexists _, _. split.
  { eapply (refresh_change_raised E s w (VDict d) v t);
      [done|by apply getitem_dict|done|done|done|].
    erewrite bind_ok by exact Hset.
    rewrite save_Cluster by (cbn; by rewrite Hk1).
    rewrite CachedClusterObject_save_any.
    match goal with |- (if ?b then _ else _) = _ => assert (b = true) as -> end.
    { rewrite <- Href. apply refused_same; cbn; try reflexivity.
      all: unfold with_ctime; by destruct c. }
    reflexivity. }
  clear Hset Hk1 Href Hnew.
  destruct_obj s; destruct w as [rows tr]; cbn in Hk; subst.
  unfold with_ctime, fetched, encoded, pickled.
  destruct c; record_simpl; (split_and!; [reflexivity..|]); by rewrite <- app_assoc.
Qed.

Lemma refresh_change_Job E s w n d v t st :
  cls s = Job → id s = Some n →
  remote E = Ok (VDict d) →
  d !! "mtime" = Some v → fromtimestamp v = Ok t →
  (∀ old, mtime s = Some old → old < t) →
  (ignore_cache s = true → d !! "status" = Some st) →
  ∃ s' w',
    refresh E (s, w) = (Ok (), (s', w'))
    ∧ error s' = None ∧ cached s' = Some (now E)
    ∧ __info s' = VDict d
    ∧ mtime s' = mtime s
    ∧ (ignore_cache s = true →
       status s' = st ∧ ignore_cache s' = negb (terminal st))
    ∧ (ignore_cache s = false →
       status s' = status s ∧ ignore_cache s' = false)
    ∧ serialized_info s' = Some (VDict d)
    ∧ trace w'
      = trace w ++ [Fetch Job (id s)]
          ++ (if ignore_cache s && terminal st
              then [UpdateIgnoreCache Job (id s)] else [])
          ++ [Pickle (VDict d); SaveRow (row_of s')]
    ∧ row_of s' ∈ db w'
    ∧ serialized_info (row_of s') = Some (VDict d).
Proof.
  intros Hk Hid Hr Hm Ht Hnew Hst.
  destruct (ignore_cache s) eqn:Hig.
  - specialize (Hst eq_refl).
    pose proof (Job_set_info_property (set_cached (Some (now E)) s) (fetched s w)
                  d st Hk Hig Hst) as Hset.
    destruct (terminal st) eqn:Hterm.
    + eexists _, _. split.
      { eapply (refresh_change_run E s w (VDict d) v t);
          [done|by apply getitem_dict|done|done|].
        erewrite bind_ok by exact Hset.
        by apply (save_Job E _ _ n). }
      clear Hset Hnew.
      destruct_obj s; destruct w as [rows tr]; cbn in Hk, Hid, Hig; subst.
      unfold fetched, saved_row, pk_of. record_simpl.
      split_and!; try reflexivity; try done.
      * by rewrite <- !app_assoc.
      * apply upsert_elem.
    + eexists _, _. split.
      { eapply (refresh_change_run E s w (VDict d) v t);
          [done|by apply getitem_dict|done|done|].
        erewrite bind_ok by exact Hset.
        by apply (save_Job E _ _ n). }
      clear Hset Hnew.
      destruct_obj s; destruct w as [rows tr]; cbn in Hk, Hid, Hig; subst.
      unfold fetched, saved_row, pk_of. record_simpl.
      split_and!; try reflexivity; try done.
      * by rewrite <- !app_assoc.
      * apply upsert_elem.
  - pose proof (Job_set_info_property_settled (set_cached (Some (now E)) s)
                  (fetched s w) (VDict d) Hk Hig) as Hset.
    eexists _, _. split.
    { eapply (refresh_change_run E s w (VDict d) v t);
        [done|by apply getitem_dict|done|done|].
      erewrite bind_ok by exact Hset.
      by apply (save_Job E _ _ n). }
    clear Hset Hnew Hst.
    destruct_obj s; destruct w as [rows tr]; cbn in Hk, Hid, Hig; subst.
    unfold fetched, saved_row, pk_of. record_simpl.
    split_and!; try reflexivity; try done.
    + by rewrite <- !app_assoc.
    + apply upsert_elem.
Qed.

Lemma set_info_columns v o :
  cls (set_info v o) = cls o ∧ serialized_info (set_info v o) = serialized_info o.
Proof. done. Qed.

Section VirtualMachineChange.
Context (E : env) (s : obj) (w : world) (n : Z) (d : gmap string value).
Context (v : value) (t : datetime) (c : value) (tc : datetime).
Context (be : gmap string value) (mem cpus : value) (sizes : list Z) (os : value).
Context (tags : list string).
Hypothesis Hk : cls s = VirtualMachine.
Hypothesis Hid : id s = Some n.
Hypothesis Hr : remote E = Ok (VDict d).
Hypothesis Hm : d !! "mtime" = Some v.
Hypothesis Ht : fromtimestamp v = Ok t.
Hypothesis Hnew : ∀ old, mtime s = Some old → old < t.
Hypothesis Hc : d !! "ctime" = Some c.
Hypothesis Hform : c = VNone ∨ fromtimestamp c = Ok tc.
Hypothesis Hbe : d !! "beparams" = Some (VDict be).
Hypothesis Hmem : be !! "memory" = Some mem.
Hypothesis Hcpu : be !! "vcpus" = Some cpus.
Hypothesis Hsz : d !! "disk.sizes" = Some (VList (VNum <$> sizes)).
Hypothesis Hos : d !! "os" = Some os.
Hypothesis Htags : d !! "tags" = Some (VList (VStr <$> tags)).
Hypothesis Hwf : Forall (λ t, is_Some (tag_owner E t)) tags.

(** The machine as the setter leaves it. *)
Let parsed : obj :=
  set_serialized_info None
    (set_operating_system os
       (set_disk_size (VNum (foldr Z.add 0 sizes))
          (set_virtual_cpus cpus
             (set_ram mem
                (set_mtime (Some t)
                   (with_ctime c tc
                      (set_info (VDict d) (set_cached (Some (now E)) s)))))))).

Local Lemma parsed_run :
  set_info_property (VDict d) (set_cached (Some (now E)) s, fetched s w)
  = (Ok (), (parsed, fetched s w)).
Proof using All.
  exact (set_info_property_VirtualMachine (set_cached (Some (now E)) s)
           (fetched s w) d v t c tc be mem cpus sizes os
           Hk Hm Ht Hc Hform Hbe Hmem Hcpu Hsz Hos).
Qed.

Local Lemma parsed_columns :
  cls parsed = VirtualMachine ∧ id parsed = Some n ∧ __info parsed = VDict d
  ∧ owner_id parsed = owner_id s ∧ hostname parsed = hostname s
  ∧ serialized_info parsed = None.
Proof using All. unfold parsed, with_ctime. by destruct c. Qed.

Local Lemma parsed_refresh st2 :
  (save E) (parsed, fetched s w) = (Ok (), st2) →
  refresh E (s, w) = (Ok (), (set_error None st2.1, st2.2)).
Proof using All.
  intros Hsave.
  apply (refresh_change_run E s w (VDict d) v t st2 Hr (getitem_dict _ _ _ Hm) Ht
           Hnew).
  erewrite bind_ok by exact parsed_run. exact Hsave.
Qed.

Local Lemma parsed_absorbed msg st2 :
  (save E) (parsed, fetched s w) = (Raise (GanetiApiError msg), st2) →
  refresh E (s, w) = (Ok (), (set_error (Some msg) st2.1, st2.2)).
Proof using All.
  intros Hsave.
  apply (refresh_change_absorbed E s w (VDict d) v t msg st2 Hr
           (getitem_dict _ _ _ Hm) Ht Hnew).
  erewrite bind_ok by exact parsed_run. exact Hsave.
Qed.

Lemma refresh_change_VirtualMachine :
  delete_tags_error E = None → add_tags_error E = None →
  ∃ s' w',
    refresh E (s, w) = (Ok (), (s', w'))
    ∧ error s' = None ∧ cached s' = Some (now E)
    ∧ __info s' = VDict (<["tags" := VList (VStr <$> tags_after E s tags)]> d)
    ∧ mtime s' = Some t
    ∧ ctime s' = match c with VNone => ctime s | _ => Some tc end
    ∧ ram s' = mem ∧ virtual_cpus s' = cpus
    ∧ disk_size s' = VNum (foldr Z.add 0 sizes)
    ∧ operating_system s' = os
    ∧ serialized_info s' = Some (__info s')
    ∧ trace w'
      = trace w ++ [Fetch VirtualMachine (id s)] ++ tag_calls E s tags
          ++ [Pickle (__info s'); SaveRow (row_of s')]
    ∧ row_of s' ∈ db w'
    ∧ serialized_info (row_of s') = Some (__info s').
Proof using All.
  intros Hdel Hadd.
  destruct parsed_columns as (Hk1 & Hid1 & Hi1 & Ho1 & Hh1 & Hs1).
  destruct (tags_same E s parsed tags Ho1 Hh1) as (Hta & Htc & _ & _).
  eexists _, _. split.
  { apply parsed_refresh.
    rewrite (VirtualMachine_save_run E parsed _ n d tags Hk1 Hid1 Hi1 Htags Hwf
               Hdel Hadd).
    rewrite Hta, Htc.
    rewrite CachedClusterObject_save_fresh; [reflexivity| |].
    - by rewrite (proj2 (set_info_columns _ parsed)).
    - apply refused_other_class. rewrite (proj1 (set_info_columns _ parsed)), Hk1.
      done. }
  clear Hnew Hta Htc Hk1 Hid1 Hi1 Ho1 Hh1 Hs1.
  unfold parsed, with_ctime, post_save, fetched, pk_of.
  unfold tags_after, tag_calls, adds_tag, tags_to_delete.
  destruct_obj s; destruct w as [rows tr]; cbn in Hk, Hid; subst.
  destruct c; record_simpl;
    (split_and!; [reflexivity..| |apply upsert_elem|reflexivity]);
    by rewrite <- !app_assoc.
Qed.

Lemma refresh_change_delete_fails msg :
  tags_to_delete E s tags ≠ [] →
  delete_tags_error E = Some (GanetiApiError msg) →
  ∃ s' w',
    refresh E (s, w) = (Ok (), (s', w'))
    ∧ error s' = Some msg ∧ cached s' = Some (now E)
    ∧ __info s' = VDict d
    ∧ mtime s' = Some t
    ∧ serialized_info s' = None
    ∧ db w' = db w
    ∧ trace w'
      = trace w ++ [Fetch VirtualMachine (id s);
                    DeleteInstanceTags (hostname s) (tags_to_delete E s tags)].
Proof using All.
  intros Hne Hdel.
  destruct parsed_columns as (Hk1 & Hid1 & Hi1 & Ho1 & Hh1 & Hs1).
  destruct (tags_same E s parsed tags Ho1 Hh1) as (_ & _ & Htd & _).
  rewrite <- Htd in Hne.
  eexists _, _. split.
  { apply parsed_absorbed.
    apply (VirtualMachine_save_tag_failure E parsed _ n d (VList (VStr <$> tags))
             _ _ Hk1 Hid1 Hi1 Htags).
    exact (update_owner_tag_delete_fails E parsed _ d tags _ Htags Hwf Hne Hdel). }
  rewrite Htd, Hh1.
  clear Hnew Htd Hk1 Hid1 Hi1 Ho1 Hh1 Hs1 Hne.
  unfold parsed, with_ctime, fetched.
  destruct_obj s; destruct w as [rows tr]; cbn in Hk, Hid; subst.
  destruct c; record_simpl; (split_and!; [reflexivity..|]); by rewrite <- !app_assoc.
Qed.

Lemma refresh_change_add_fails msg :
  tags_to_delete E s tags = [] ∨ delete_tags_error E = None →
  adds_tag E s tags = true →
  add_tags_error E = Some (GanetiApiError msg) →
  ∃ s' w',
    refresh E (s, w) = (Ok (), (s', w'))
    ∧ error s' = Some msg ∧ cached s' = Some (now E)
    ∧ __info s'
      = VDict (<["tags" := VList (VStr <$> List.filter
                              (λ t, negb (stale_tag E (owner_id s) t)) tags)]> d)
    ∧ mtime s' = Some t
    ∧ serialized_info s' = None
    ∧ db w' = db w
    ∧ trace w' = trace w ++ [Fetch VirtualMachine (id s)] ++ tag_calls E s tags.
Proof using All.
  intros Hdel Hadds Hadd.
  destruct parsed_columns as (Hk1 & Hid1 & Hi1 & Ho1 & Hh1 & Hs1).
  destruct (tags_same E s parsed tags Ho1 Hh1) as (_ & Htc & Htd & Had).
  rewrite <- Htd in Hdel. rewrite <- Had in Hadds.
  eexists _, _. split.
  { apply parsed_absorbed.
    apply (VirtualMachine_save_tag_failure E parsed _ n d (VList (VStr <$> tags))
             _ _ Hk1 Hid1 Hi1 Htags).
    exact (update_owner_tag_add_fails E parsed _ d tags _ Hi1 Htags Hwf Hdel
             Hadds Hadd). }
  rewrite Htc, Ho1.
  clear Hnew Htc Htd Had Hk1 Hid1 Hi1 Ho1 Hh1 Hs1 Hdel Hadds.
  unfold parsed, with_ctime, fetched.
  destruct_obj s; destruct w as [rows tr]; cbn in Hk, Hid; subst.
  destruct c; record_simpl; (split_and!; [reflexivity..|]); by rewrite <- !app_assoc.
Qed.

End VirtualMachineChange.

(** C2, as the code has it. When the fetch succeeds with a payload whose
    [mtime] is later than the receiver's, or the receiver has none, the
    update branch of [refresh] runs the [info] setter and then [save].
    Provided the payload has the entries the parsers of the class read, and
    the store and the remote API accept what [save] sends them, [refresh]
    returns with [error] cleared and [cached] at the clock; [info] is the
    payload, for a virtual machine with the [tags] entry as the owner-tag
    reconciliation of [save] leaves it; the parsed fields are the payload's
    ([mtime] and [ctime], on a job neither; the status of a job that
    bypasses the cache; the four columns of a machine); [info] has been
    encoded into [serialized_info] and the full record written with that
    blob, after the fetch and the tag calls. When a tag call of the [save]
    of a machine raises the API's error, [refresh] returns as well, with
    the text in [error]: [info] and [mtime] are the new ones, nothing is
    encoded and nothing is written. When the store refuses the row of a
    cluster, whose [hostname] or [slug] another cluster has, [refresh]
    raises [IntegrityError], with nothing written. Jobs and machines are
    taken as stored. *)
Theorem refresh_remote_change :
  (∀ E s w d v t c tc,
     cls s = TestModel ∨ cls s = Cluster →
     remote E = Ok (VDict d) →
     d !! "mtime" = Some v → fromtimestamp v = Ok t →
     (∀ old, mtime s = Some old → old < t) →
     d !! "ctime" = Some c → (c = VNone ∨ fromtimestamp c = Ok tc) →
     (refused s w = false →
      ∃ s' w',
        refresh E (s, w) = (Ok (), (s', w'))
        ∧ error s' = None ∧ cached s' = Some (now E)
        ∧ __info s' = VDict d
        ∧ mtime s' = Some t
        ∧ ctime s' = match c with VNone => ctime s | _ => Some tc end
        ∧ serialized_info s' = Some (VDict d)
        ∧ id s' = Some (pk_of s w)
        ∧ trace w'
          = trace w ++ [Fetch (cls s) (id s); Pickle (VDict d);
                        SaveRow (row_of s')]
              ++ match cls s with
                 | Cluster => [UpdateClusterHash (id s') (hash s')]
                 | _ => []
                 end
        ∧ row_of s' ∈ db w'
        ∧ serialized_info (row_of s') = Some (VDict d))
     ∧ (refused s w = true →
        ∃ s' w',
          refresh E (s, w) = (Raise IntegrityError, (s', w'))
          ∧ cls s = Cluster
          ∧ id s' = id s ∧ error s' = error s ∧ cached s' = Some (now E)
          ∧ __info s' = VDict d ∧ mtime s' = Some t
          ∧ db w' = db w
          ∧ trace w' = trace w ++ [Fetch Cluster (id s); Pickle (VDict d)]))
  ∧ (∀ E s w n d v t st,
       cls s = Job → id s = Some n →
       remote E = Ok (VDict d) →
       d !! "mtime" = Some v → fromtimestamp v = Ok t →
       (∀ old, mtime s = Some old → old < t) →
       (ignore_cache s = true → d !! "status" = Some st) →
       ∃ s' w',
         refresh E (s, w) = (Ok (), (s', w'))
         ∧ error s' = None ∧ cached s' = Some (now E)
         ∧ __info s' = VDict d
         ∧ mtime s' = mtime s
         ∧ (ignore_cache s = true →
            status s' = st ∧ ignore_cache s' = negb (terminal st))
         ∧ (ignore_cache s = false →
            status s' = status s ∧ ignore_cache s' = false)
         ∧ serialized_info s' = Some (VDict d)
         ∧ trace w'
           = trace w ++ [Fetch Job (id s)]
               ++ (if ignore_cache s && terminal st
                   then [UpdateIgnoreCache Job (id s)] else [])
               ++ [Pickle (VDict d); SaveRow (row_of s')]
         ∧ row_of s' ∈ db w'
         ∧ serialized_info (row_of s') = Some (VDict d))
  ∧ (∀ E s w n d v t c tc be mem cpus sizes os tags,
       cls s = VirtualMachine → id s = Some n →
       remote E = Ok (VDict d) →
       d !! "mtime" = Some v → fromtimestamp v = Ok t →
       (∀ old, mtime s = Some old → old < t) →
       d !! "ctime" = Some c → (c = VNone ∨ fromtimestamp c = Ok tc) →
       d !! "beparams" = Some (VDict be) →
       be !! "memory" = Some mem → be !! "vcpus" = Some cpus →
       d !! "disk.sizes" = Some (VList (VNum <$> sizes)) → d !! "os" = Some os →
       d !! "tags" = Some (VList (VStr <$> tags)) →
       Forall (λ t, is_Some (tag_owner E t)) tags →
       (delete_tags_error E = None → add_tags_error E = None →
        ∃ s' w',
          refresh E (s, w) = (Ok (), (s', w'))
          ∧ error s' = None ∧ cached s' = Some (now E)
          ∧ __info s'
            = VDict (<["tags" := VList (VStr <$> tags_after E s tags)]> d)
          ∧ mtime s' = Some t
          ∧ ctime s' = match c with VNone => ctime s | _ => Some tc end
          ∧ ram s' = mem ∧ virtual_cpus s' = cpus
          ∧ disk_size s' = VNum (foldr Z.add 0 sizes)
          ∧ operating_system s' = os
          ∧ serialized_info s' = Some (__info s')
          ∧ trace w'
            = trace w ++ [Fetch VirtualMachine (id s)] ++ tag_calls E s tags
                ++ [Pickle (__info s'); SaveRow (row_of s')]
          ∧ row_of s' ∈ db w'
          ∧ serialized_info (row_of s') = Some (__info s'))
       ∧ (∀ msg,
            tags_to_delete E s tags ≠ [] →
            delete_tags_error E = Some (GanetiApiError msg) →
            ∃ s' w',
              refresh E (s, w) = (Ok (), (s', w'))
              ∧ error s' = Some msg ∧ cached s' = Some (now E)
              ∧ __info s' = VDict d
              ∧ mtime s' = Some t
              ∧ serialized_info s' = None
              ∧ db w' = db w
              ∧ trace w'
                = trace w ++ [Fetch VirtualMachine (id s);
                              DeleteInstanceTags (hostname s)
                                (tags_to_delete E s tags)])
       ∧ (∀ msg,
            tags_to_delete E s tags = [] ∨ delete_tags_error E = None →
            adds_tag E s tags = true →
            add_tags_error E = Some (GanetiApiError msg) →
            ∃ s' w',
              refresh E (s, w) = (Ok (), (s', w'))
              ∧ error s' = Some msg ∧ cached s' = Some (now E)
              ∧ __info s'
                = VDict (<["tags" := VList (VStr <$> List.filter
                             (λ t, negb (stale_tag E (owner_id s) t)) tags)]> d)
              ∧ mtime s' = Some t
              ∧ serialized_info s' = None
              ∧ db w' = db w
              ∧ trace w'
                = trace w ++ [Fetch VirtualMachine (id s)] ++ tag_calls E s tags)).
Proof.
  split_and!.
  - intros E s w d v t c tc Hk Hr Hm Ht Hnew Hc Hform. split.
    + by apply (refresh_change_base E s w d v t c tc).
    + intros Href. destruct Hk as [Hk|Hk].
      { rewrite refused_other_class in Href by (rewrite Hk; done). done. }
      destruct (refresh_change_refused E s w d v t c tc Hk Hr Hm Ht Hnew Hc
                  Hform Href) as (s' & w' & Hrun & Hrest).
      exists s', w'. split; [exact Hrun|]. split; [exact Hk|]. exact Hrest.
  - apply refresh_change_Job.
  - intros E s w n d v t c tc be mem cpus sizes os tags
      Hk Hid Hr Hm Ht Hnew Hc Hform Hbe Hmem Hcpu Hsz Hos Htags Hwf.
    split_and!.
    + by apply (refresh_change_VirtualMachine E s w n d v t c tc be mem cpus sizes os).
    + intros msg.
      by apply (refresh_change_delete_fails E s w n d v t c tc be mem cpus sizes os).
    + intros msg.
      by apply (refresh_change_add_fails E s w n d v t c tc be mem cpus sizes os).
Qed.

(** ** Synchronising the inventory *)

Lemma fresh_pk_above k rows r i :
  r ∈ rows → cls r = k → id r = Some i → i < fresh_pk k rows.
Proof.
  unfold fresh_pk. intros Hin Hk Hi.
  induction rows as [|r' rows IH]; [by apply elem_of_nil in Hin|].
  cbn [foldr]. apply elem_of_cons in Hin as [->|Hin].
  - rewrite bool_decide_true by done. rewrite Hi. cbn. lia.
  - specialize (IH Hin). case_bool_decide; lia.
Qed.

Lemma upsert_fresh row rows :
  id row = Some (fresh_pk (cls row) rows) → upsert row rows = rows ++ [row].
Proof.
  intros Hid. unfold upsert.
  destruct (existsb (is_row (cls row) (id row)) rows) eqn:Hex; [|done].
  apply existsb_exists in Hex as (r & Hin%list_elem_of_In & Hr).
  rewrite Hid in Hr. cbn in Hr.
  apply andb_true_iff in Hr as [Hk%bool_decide_eq_true Hi%bool_decide_eq_true].
  pose proof (fresh_pk_above _ _ _ _ Hin Hk Hi). lia.
Qed.

Lemma new_virtual_machine_save E c h w :
  (load_info E ;; save E) (new_virtual_machine c h, w) =
    (Ok (),
     (set_id (Some (fresh_pk VirtualMachine (db w)))
        (set_serialized_info (Some VNone)
           (set_cluster_hash (hash c) (new_virtual_machine c h))),
      {| db := db w ++ [vm_row c h (fresh_pk VirtualMachine (db w))];
         trace := trace w ++ [Pickle VNone;
                              SaveRow (vm_row c h (fresh_pk VirtualMachine (db w)))] |})).
Proof.
  step_with ltac:(by apply load_info_new).
  unfold save. step. cbn [cls new_virtual_machine]. unfold VirtualMachine_save.
  step_with ltac:(unfold set_cluster_hash_when_new; step; cbn; by step).
  step_with ltac:(apply info_loaded). unfold loaded. cbn [__info
    serialized_info set_cluster_hash new_virtual_machine]. step.
  cbn [truthy]. step.
  rewrite CachedClusterObject_save_run by done.
  unfold encoded, pickled, saved_row, pk_of.
  cbn [serialized_info __info id cls set_cluster_hash new_virtual_machine
         set_serialized_info db trace].
  rewrite upsert_fresh by done. reflexivity.
Qed.

Lemma inserted_hostnames c hs rows : hostname <$> inserted c hs rows = hs.
Proof.
  revert rows. induction hs as [|h hs IH]; intros rows; [done|].
  cbn. by rewrite IH.
Qed.

Lemma inserted_ownerless c hs rows : Forall (ownerless_vm_of c) (inserted c hs rows).
Proof.
  revert rows. induction hs as [|h hs IH]; intros rows; constructor; [|done].
  by repeat split.
Qed.

Lemma sync_loop E c hs : ∀ w,
  for_each hs
    (λ h, on_object (new_virtual_machine c h) (load_info E ;; save E) ;; mret ())
    (c, w) =
  (Ok (), (c, {| db := db w ++ inserted c hs (db w);
                 trace := trace w ++ save_events (inserted c hs (db w)) |})).
Proof.
  induction hs as [|h hs IH]; intros w.
  - cbn. rewrite !app_nil_r. by destruct w.
  - cbn [for_each].
    step_with ltac:(step_with ltac:(unfold on_object; cbn [fst snd];
                      rewrite new_virtual_machine_save; reflexivity);
                    reflexivity).
    rewrite IH. cbn [db trace inserted save_events flat_map].
    by rewrite <- !app_assoc.
Qed.

Lemma instances_ok E c w R :
  listing E = Some R →
  instances E (c, w) =
    (Ok R, (c, {| db := db w; trace := trace w ++ [GetInstances] |})).
Proof.
  unfold listing. intros HR. unfold instances, try_except_api.
  erewrite bind_ok by reflexivity. unfold lift.
  destruct (remote_instances E) as [R'|[]]; by simplify_eq.
Qed.

Lemma sync_virtual_machines_run E c w R remove :
  listing E = Some R →
  sync_virtual_machines E remove (c, w) = (Ok (), (c, synced c w R remove)).
Proof.
  intros HR. unfold sync_virtual_machines, synced.
  step_with ltac:(by apply instances_ok). do 2 step.
  cbn [db trace].
  step_with ltac:(apply sync_loop). cbn [db trace].
  fold (local_hostnames c (db w)). fold (to_insert c (db w) R).
  fold (to_delete c (db w) R). rewrite <- app_assoc. cbn [app].
  destruct remove; [|done].
  destruct (to_delete c (db w) R) eqn:Hgone; [done|].
  by step.
Qed.

Lemma member_true x xs : member x xs = true ↔ x ∈ xs.
Proof. unfold member. apply bool_decide_eq_true. Qed.

Lemma member_false x xs : member x xs = false ↔ x ∉ xs.
Proof. unfold member. apply bool_decide_eq_false. Qed.

Lemma filter_nil {A} (P : A → bool) l :
  (∀ x, x ∈ l → P x = false) → List.filter P l = [].
Proof.
  induction l as [|x l IH]; [done|]. intros H. cbn.
  rewrite (H x) by left. apply IH. intros y Hy. apply H. by right.
Qed.

Lemma filter_all {A} (P : A → bool) l :
  (∀ x, x ∈ l → P x = true) → List.filter P l = l.
Proof.
  induction l as [|x l IH]; [done|]. intros H. cbn.
  rewrite (H x) by left. f_equal. apply IH. intros y Hy. apply H. by right.
Qed.

Lemma elem_of_filter_bool {A} (P : A → bool) l x :
  x ∈ List.filter P l ↔ x ∈ l ∧ P x = true.
Proof. rewrite !list_elem_of_In. apply filter_In. Qed.

Lemma ownerless_is_vm_of c n r :
  id c = Some n → ownerless_vm_of c r → is_vm_of c r = true.
Proof.
  intros Hid (Hk & Hc & _). unfold is_vm_of. rewrite Hid, Hk, Hc, Hid.
  by rewrite !bool_decide_true.
Qed.

Lemma local_hostnames_app c n rows ins :
  id c = Some n → Forall (ownerless_vm_of c) ins →
  local_hostnames c (rows ++ ins) = local_hostnames c rows ++ (hostname <$> ins).
Proof.
  intros Hid Hins. unfold local_hostnames, virtual_machines.
  rewrite List.filter_app, fmap_app. f_equal. f_equal.
  apply filter_all. intros r Hr. apply (ownerless_is_vm_of c n); [done|].
  by apply (proj1 (Forall_forall _ _) Hins).
Qed.

Lemma elem_of_local_hostnames c rows h :
  h ∈ local_hostnames c rows ↔ ∃ r, r ∈ rows ∧ is_vm_of c r = true ∧ hostname r = h.
Proof.
  unfold local_hostnames, virtual_machines. rewrite list_elem_of_fmap.
  split.
  - intros (r & -> & [Hr Hvm]%elem_of_filter_bool). eauto.
  - intros (r & Hr & Hvm & <-). exists r. split; [done|].
    by apply elem_of_filter_bool.
Qed.

Lemma elem_of_to_insert c rows R h :
  h ∈ to_insert c rows R ↔ h ∈ R ∧ h ∉ local_hostnames c rows.
Proof.
  unfold to_insert. rewrite elem_of_filter_bool, negb_true_iff, member_false.
  done.
Qed.

Lemma elem_of_to_delete c rows R h :
  h ∈ to_delete c rows R ↔ h ∈ local_hostnames c rows ∧ h ∉ R.
Proof.
  unfold to_delete. rewrite elem_of_filter_bool, negb_true_iff, member_false.
  done.
Qed.

Lemma NoDup_filter_bool {A} (P : A → bool) l : NoDup l → NoDup (List.filter P l).
Proof.
  induction 1 as [|x l Hx Hl IH]; [constructor|]. cbn.
  destruct (P x); [|done]. constructor; [|done].
  rewrite elem_of_filter_bool. tauto.
Qed.

(** After a synchronisation without removal nothing is left to insert. *)
Lemma to_insert_synced c n w R :
  id c = Some n → to_insert c (db (synced c w R false)) R = [].
Proof.
  intros Hid. cbn [synced db]. unfold to_insert at 1.
  apply filter_nil. intros h Hh. apply negb_false_iff, member_true.
  rewrite (local_hostnames_app c n) by (done || apply inserted_ownerless).
  rewrite inserted_hostnames. apply elem_of_app.
  destruct (decide (h ∈ local_hostnames c (db w))); [by left|right].
  by apply elem_of_to_insert.
Qed.

(** After a synchronisation with removal the local hostnames are the
    remote ones. *)
Lemma local_hostnames_synced c n w R h :
  id c = Some n →
  h ∈ local_hostnames c (db (synced c w R true)) ↔ h ∈ R.
Proof.
  intros Hid.
  assert (db (synced c w R true) =
          List.filter (kept c (to_delete c (db w) R))
            (db w ++ inserted c (to_insert c (db w) R) (db w))) as ->.
  { unfold synced. destruct (to_delete c (db w) R) eqn:Hgone; [|done].
    cbn [db]. symmetry. apply filter_all. intros r _. unfold kept, member.
    rewrite bool_decide_false by apply not_elem_of_nil.
    by rewrite andb_false_r. }
  rewrite elem_of_local_hostnames. split.
  - intros (r & [Hr Hkept]%elem_of_filter_bool & Hvm & <-).
    unfold kept in Hkept. rewrite Hvm in Hkept. cbn in Hkept.
    apply negb_true_iff, member_false in Hkept.
    apply elem_of_app in Hr as [Hr|Hr].
    + destruct (decide (hostname r ∈ R)) as [|Hn]; [done|].
      destruct Hkept. apply elem_of_to_delete. split; [|done].
      apply elem_of_local_hostnames. eauto.
    + assert (hostname r ∈ to_insert c (db w) R) as Hin.
      { rewrite <- (inserted_hostnames c _ (db w)).
        apply list_elem_of_fmap. eauto. }
      by apply elem_of_to_insert in Hin as [? _].
  - intros HR. destruct (decide (h ∈ local_hostnames c (db w))) as [HL|HL].
    + apply elem_of_local_hostnames in HL as (r & Hr & Hvm & <-).
      exists r. split_and!; [|done..]. apply elem_of_filter_bool.
      split; [apply elem_of_app; by left|].
      unfold kept. apply negb_true_iff, andb_false_iff. right.
      apply member_false. rewrite elem_of_to_delete. tauto.
    + assert (h ∈ hostname <$> inserted c (to_insert c (db w) R) (db w)) as Hin.
      { rewrite inserted_hostnames. by apply elem_of_to_insert. }
      apply list_elem_of_fmap in Hin as (r & -> & Hr). exists r.
      assert (is_vm_of c r = true) as Hvm.
      { apply (ownerless_is_vm_of c n); [done|].
        by apply (proj1 (Forall_forall _ _)
                    (inserted_ownerless c (to_insert c (db w) R) (db w))). }
      split_and!; [|done..]. apply elem_of_filter_bool.
      split; [apply elem_of_app; by right|].
      unfold kept. apply negb_true_iff, andb_false_iff. right.
      apply member_false. rewrite elem_of_to_delete. tauto.
Qed.

Lemma synced_again c w1 R remove :
  to_insert c (db w1) R = [] →
  (remove = true → to_delete c (db w1) R = []) →
  synced c w1 R remove = {| db := db w1; trace := trace w1 ++ [GetInstances] |}.
Proof.
  intros Hins Hdel. unfold synced. rewrite Hins. cbn [inserted save_events flat_map].
  rewrite app_nil_r. destruct remove; [|done]. by rewrite Hdel.
Qed.

(** C6. For a stored cluster whose listing [R] of remote instances has no
    duplicate, [sync_virtual_machines] without removal appends one
    ownerless row per hostname of [R] missing locally, in order, and
    deletes nothing; run again, it only lists the instances. With removal it also deletes, in
    one batch, the rows of the cluster whose hostname is not in [R]; the
    local hostnames are then those of [R], and a second run only lists the
    instances. *)
Theorem sync_virtual_machines_converges E c w n R :
  id c = Some n → listing E = Some R → NoDup R →
  let new_rows := inserted c (to_insert c (db w) R) (db w) in
  (sync_virtual_machines E false (c, w) = (Ok (), (c, synced c w R false))
   ∧ db (synced c w R false) = db w ++ new_rows
   ∧ hostname <$> new_rows = to_insert c (db w) R
   ∧ NoDup (hostname <$> new_rows)
   ∧ (∀ h, h ∈ hostname <$> new_rows ↔ h ∈ R ∧ h ∉ local_hostnames c (db w))
   ∧ Forall (ownerless_vm_of c) new_rows
   ∧ trace (synced c w R false) = trace w ++ GetInstances :: save_events new_rows
   ∧ sync_virtual_machines E false (c, synced c w R false) =
       (Ok (), (c, {| db := db (synced c w R false);
                      trace := trace (synced c w R false) ++ [GetInstances] |})))
  ∧ (sync_virtual_machines E true (c, w) = (Ok (), (c, synced c w R true))
     ∧ db (synced c w R true) =
         List.filter (kept c (to_delete c (db w) R)) (db w ++ new_rows)
     ∧ (∀ h, h ∈ to_delete c (db w) R ↔ h ∈ local_hostnames c (db w) ∧ h ∉ R)
     ∧ trace (synced c w R true) =
         trace w ++ GetInstances :: save_events new_rows
           ++ match to_delete c (db w) R with
              | [] => []
              | gone => [DeleteRows (Some n) gone]
              end
     ∧ (∀ h, h ∈ local_hostnames c (db (synced c w R true)) ↔ h ∈ R)
     ∧ sync_virtual_machines E true (c, synced c w R true) =
         (Ok (), (c, {| db := db (synced c w R true);
                        trace := trace (synced c w R true) ++ [GetInstances] |}))).
Proof.
  intros Hid HR Hnodup new_rows. subst new_rows.
  pose proof (inserted_hostnames c (to_insert c (db w) R) (db w)) as Hhosts.
  split; split_and!.
  - by apply sync_virtual_machines_run.
  - done.
  - done.
  - rewrite Hhosts. by apply NoDup_filter_bool.
  - intros h. rewrite Hhosts. apply elem_of_to_insert.
  - apply inserted_ownerless.
  - done.
  - rewrite (sync_virtual_machines_run E _ _ R) by done. do 2 f_equal.
    apply synced_again; [|done]. by apply (to_insert_synced c n).
  - by apply sync_virtual_machines_run.
  - unfold synced. destruct (to_delete c (db w) R) eqn:Hgone; [|done].
    cbn [db]. symmetry. apply filter_all. intros r _. unfold kept, member.
    rewrite bool_decide_false by apply not_elem_of_nil.
    by rewrite andb_false_r.
  - apply elem_of_to_delete.
  - unfold synced. rewrite Hid.
    destruct (to_delete c (db w) R); cbn [trace].
    + by rewrite app_nil_r.
    + by rewrite <- app_assoc.
  - intros h. by apply (local_hostnames_synced c n).
  - rewrite (sync_virtual_machines_run E _ _ R) by done. do 2 f_equal.
    apply synced_again.
    + apply filter_nil. intros h Hh. apply negb_false_iff, member_true.
      by apply (local_hostnames_synced c n).
    + intros _. apply filter_nil. intros h Hh.
      apply negb_false_iff, member_true.
      by apply (local_hostnames_synced c n w R h).
Qed.

(** ** The connection registry *)

Module RegistryFacts.
Import Registry.

(** The outcomes of [get_rapi]. *)
Lemma get_rapi_cases clusters hash cluster st r st' :
  get_rapi clusters hash cluster st = (r, st') →
  (st' = st ∧ ((∃ rapi, r = Ok rapi ∧ RAPI_CACHE st !! hash = Some rapi)
               ∨ (∃ n creds rapi, r = Ok rapi ∧ RAPI_CACHE st !! hash = None
                    ∧ resolve cluster = Some n ∧ clusters !! n = Some creds
                    ∧ RAPI_CACHE st !! c_hash creds = Some rapi)
               ∨ (∃ e, r = Raise e)))
  ∨ (∃ n creds cache,
       RAPI_CACHE st !! hash = None ∧ resolve cluster = Some n
       ∧ clusters !! n = Some creds ∧ RAPI_CACHE st !! c_hash creds = None
       ∧ match RAPI_CACHE_HASHES st !! n with
         | Some old => is_Some (RAPI_CACHE st !! old)
                       ∧ cache = delete old (RAPI_CACHE st)
         | None => cache = RAPI_CACHE st
         end
       ∧ r = Ok {| serial := constructed st; host := c_hostname creds;
                   rapi_port := c_port creds;
                   user := or_none (c_username creds);
                   client_password := or_none (c_password creds) |}
       ∧ st' = {| RAPI_CACHE :=
                    <[c_hash creds :=
                        {| serial := constructed st; host := c_hostname creds;
                           rapi_port := c_port creds;
                           user := or_none (c_username creds);
                           client_password := or_none (c_password creds) |}]> cache;
                  RAPI_CACHE_HASHES := <[n := c_hash creds]> (RAPI_CACHE_HASHES st);
                  constructed := S (constructed st) |}).
Proof.
  unfold get_rapi.
  destruct (RAPI_CACHE st !! hash) as [rapi|] eqn:Hhit.
  { intros [= <- <-]. left. split; [done|]. left. eauto. }
  destruct (resolve cluster) as [n|] eqn:Hres.
  2:{ intros [= <- <-]. left. split; [done|]. right. right. eauto. }
  destruct (clusters !! n) as [creds|] eqn:Hcreds.
  2:{ intros [= <- <-]. left. split; [done|]. right. right. eauto. }
  destruct (RAPI_CACHE st !! c_hash creds) as [rapi|] eqn:Hfresh.
  { intros [= <- <-]. left. split; [done|]. right. left.
    exists n, creds, rapi. eauto. }
  destruct (RAPI_CACHE_HASHES st !! n) as [old|] eqn:Hold.
  - destruct (RAPI_CACHE st !! old) as [r0|] eqn:Hlive.
    + intros [= <- <-]. right. exists n, creds, (delete old (RAPI_CACHE st)).
      rewrite Hold, Hlive. split_and!; eauto.
    + intros [= <- <-]. left. split; [done|]. right. right. eauto.
  - intros [= <- <-]. right. exists n, creds, (RAPI_CACHE st).
    rewrite Hold. split_and!; eauto.
Qed.

Lemma consistent_empty : consistent empty.
Proof. split; cbn; intros *; by rewrite ?lookup_empty. Qed.

Lemma consistent_clear st : consistent (clear_rapi_cache st).
Proof. split; cbn; intros *; by rewrite ?lookup_empty. Qed.

Lemma get_rapi_consistent clusters hash cluster st r st' :
  consistent st → get_rapi clusters hash cluster st = (r, st') → consistent st'.
Proof.
  intros [Hlive Honce Hbelow Hserial]
    [[-> _]|(n & creds & cache & Hmiss & Hres & Hcreds & Hfresh & Hcache & -> & ->)]%get_rapi_cases.
  { by split. }
  assert (∀ h rapi, cache !! h = Some rapi → RAPI_CACHE st !! h = Some rapi) as Hsub.
  { intros h rapi. destruct (RAPI_CACHE_HASHES st !! n) as [old|].
    - destruct Hcache as [_ ->]. by intros [_ ?]%lookup_delete_Some.
    - by subst. }
  split; cbn [RAPI_CACHE RAPI_CACHE_HASHES constructed serial].
  - intros c h. destruct (decide (c = n)) as [->|Hc].
    + rewrite lookup_insert_eq. intros [= <-]. rewrite lookup_insert_eq. eauto.
    + rewrite lookup_insert_ne by done. intros Hrec.
      destruct (decide (h = c_hash creds)) as [->|Hh].
      { rewrite lookup_insert_eq. eauto. }
      rewrite lookup_insert_ne by done.
      destruct (Hlive c h Hrec) as [rapi Hrapi].
      destruct (RAPI_CACHE_HASHES st !! n) as [old|] eqn:Hold.
      * destruct Hcache as [_ ->]. rewrite lookup_delete_ne; [eauto|].
        intros <-. by apply Hc, (Honce c n old).
      * subst. eauto.
  - intros c1 c2 h.
    destruct (decide (c1 = n)) as [->|H1], (decide (c2 = n)) as [->|H2];
      rewrite ?lookup_insert_eq, ?lookup_insert_ne by done; try done.
    + intros [= <-] Hrec. destruct (Hlive c2 _ Hrec) as [? ?]. congruence.
    + intros Hrec [= <-]. destruct (Hlive c1 _ Hrec) as [? ?]. congruence.
    + apply Honce.
  - intros h rapi. destruct (decide (h = c_hash creds)) as [->|Hh].
    + rewrite lookup_insert_eq. intros [= <-]. cbn. lia.
    + rewrite lookup_insert_ne by done. intros Hin%Hsub%Hbelow. lia.
  - intros h1 h2 r1 r2.
    destruct (decide (h1 = c_hash creds)) as [->|H1],
             (decide (h2 = c_hash creds)) as [->|H2];
      rewrite ?lookup_insert_eq, ?lookup_insert_ne by done; try done.
    + intros [= <-] Hin%Hsub%Hbelow. cbn. lia.
    + intros Hin%Hsub%Hbelow [= <-]. cbn. lia.
    + intros Hin1%Hsub Hin2%Hsub. by apply Hserial.
Qed.

Lemma reachable_consistent st : reachable st → consistent st.
Proof.
  induction 1 as [|clusters hash cluster st r st' _ IH Hget|st _ _].
  - apply consistent_empty.
  - by apply (get_rapi_consistent clusters hash cluster st r st').
  - apply consistent_clear.
Qed.

(** A fingerprint found in the cache is answered from the cache, whatever
    the table of clusters says now. *)
Lemma get_rapi_hit clusters hash cluster st rapi :
  RAPI_CACHE st !! hash = Some rapi →
  get_rapi clusters hash cluster st = (Ok rapi, st).
Proof. intros Hhit. unfold get_rapi. by rewrite Hhit. Qed.

(** Asking again gives the same client and changes nothing. *)
Lemma get_rapi_twice clusters hash cluster st rapi st' :
  get_rapi clusters hash cluster st = (Ok rapi, st') →
  get_rapi clusters hash cluster st' = (Ok rapi, st').
Proof.
  intros Hget. pose proof Hget as Hcases.
  apply get_rapi_cases in Hcases
    as [[-> _]|(n & creds & cache & Hmiss & Hres & Hcreds & Hfresh & Hcache & Hr & ->)];
    [done|].
  simplify_eq. unfold get_rapi. cbn [RAPI_CACHE].
  destruct (decide (hash = c_hash creds)) as [->|Hne].
  { by rewrite lookup_insert_eq. }
  rewrite lookup_insert_ne by done.
  assert (cache !! hash = None) as ->.
  { destruct (RAPI_CACHE_HASHES st !! n) as [old|].
    - destruct Hcache as [_ ->]. apply lookup_delete_None. by right.
    - by subst. }
  by rewrite Hres, Hcreds, lookup_insert_eq.
Qed.

(** A miss on fresh credentials constructs a client and evicts the one
    recorded for the cluster. *)
Lemma get_rapi_rotation clusters hash n creds old st :
  consistent st →
  RAPI_CACHE_HASHES st !! n = Some old → clusters !! n = Some creds →
  RAPI_CACHE st !! hash = None → RAPI_CACHE st !! c_hash creds = None →
  ∃ rapi st',
    get_rapi clusters hash (ClusterId n) st = (Ok rapi, st')
    ∧ (∀ h r, RAPI_CACHE st !! h = Some r → serial r ≠ serial rapi)
    ∧ RAPI_CACHE st' !! old = None
    ∧ RAPI_CACHE st' !! c_hash creds = Some rapi
    ∧ RAPI_CACHE_HASHES st' !! n = Some (c_hash creds)
    ∧ (∀ h, h ≠ old → h ≠ c_hash creds →
         RAPI_CACHE st' !! h = RAPI_CACHE st !! h).
Proof.
  intros [Hlive Honce Hbelow Hserial] Hold Hcreds Hmiss Hfresh.
  destruct (Hlive n old Hold) as [r0 Hr0].
  assert (old ≠ c_hash creds) as Hne by congruence.
  eexists _, _. split.
  { unfold get_rapi. cbn [resolve]. by rewrite Hmiss, Hcreds, Hfresh, Hold, Hr0. }
  cbn [RAPI_CACHE RAPI_CACHE_HASHES serial]. split_and!.
  - intros h r Hin%Hbelow. lia.
  - rewrite lookup_insert_ne by done. apply lookup_delete_eq.
  - apply lookup_insert_eq.
  - apply lookup_insert_eq.
  - intros h H1 H2. rewrite lookup_insert_ne by done.
    by rewrite lookup_delete_ne.
Qed.

(** C4, as the code has it. Asking [get_rapi] again with the same arguments
    and an unchanged table gives the same client and changes nothing. A
    fingerprint that is cached is answered from the cache whatever the
    table says now, so a caller that still passes the old fingerprint of
    rotated credentials gets the old client. A call that misses the cache,
    for a cluster whose current fingerprint is not cached either,
    constructs a new client, drops the client under the fingerprint
    recorded for the cluster, and records the new fingerprint. In every
    state the registry reaches, the fingerprint recorded for a cluster is
    cached and no client is cached under two fingerprints; the cache being
    a dictionary, a fingerprint has at most one client; and a call for a
    cluster of the table returns a client. *)
Theorem get_rapi_contract :
  (∀ clusters hash cluster st rapi st',
     get_rapi clusters hash cluster st = (Ok rapi, st') →
     get_rapi clusters hash cluster st' = (Ok rapi, st'))
  ∧ (∀ clusters hash cluster st rapi,
       RAPI_CACHE st !! hash = Some rapi →
       get_rapi clusters hash cluster st = (Ok rapi, st))
  ∧ (∀ clusters hash n creds old st,
       reachable st →
       RAPI_CACHE_HASHES st !! n = Some old → clusters !! n = Some creds →
       RAPI_CACHE st !! hash = None → RAPI_CACHE st !! c_hash creds = None →
       ∃ rapi st',
         get_rapi clusters hash (ClusterId n) st = (Ok rapi, st')
         ∧ (∀ h r, RAPI_CACHE st !! h = Some r → serial r ≠ serial rapi)
         ∧ RAPI_CACHE st' !! old = None
         ∧ RAPI_CACHE st' !! c_hash creds = Some rapi
         ∧ RAPI_CACHE_HASHES st' !! n = Some (c_hash creds)
         ∧ (∀ h, h ≠ old → h ≠ c_hash creds →
              RAPI_CACHE st' !! h = RAPI_CACHE st !! h))
  ∧ (∀ st, reachable st → consistent st)
  ∧ (∀ clusters hash cluster n creds st,
       reachable st → resolve cluster = Some n → clusters !! n = Some creds →
       ∃ rapi st', get_rapi clusters hash cluster st = (Ok rapi, st')).
Proof.
  split_and!.
  - apply get_rapi_twice.
  - apply get_rapi_hit.
  - intros clusters hash n creds old st Hst%reachable_consistent.
    by apply get_rapi_rotation.
  - apply reachable_consistent.
  - intros clusters hash cluster n creds st [Hlive _ _ _]%reachable_consistent
      Hres Hcreds.
    unfold get_rapi. rewrite Hres, Hcreds.
    destruct (RAPI_CACHE st !! hash); [eauto|].
    destruct (RAPI_CACHE st !! c_hash creds); [eauto|].
    destruct (RAPI_CACHE_HASHES st !! n) as [old|] eqn:Hold; [|eauto].
    destruct (Hlive n old Hold) as [r0 ->]. eauto.
Qed.

End RegistryFacts.

(** ** The theorems at sample inputs *)

Import Sample.

Lemma refresh_no_remote_change_witness :
  ∃ s' w',
    refresh (env_with (Ok (payload 900))) (model_seen, world0) = (Ok (), (s', w'))
    ∧ __info s' = __info model_seen ∧ cached s' = Some 1000000000.
Proof.
  destruct (refresh_no_remote_change (env_with (Ok (payload 900))) model_seen
              world0 (payload 900) (VNum 900) 900000000 900000000)
    as (s' & w' & Hrun & _ & Hinfo & _ & _ & Hcached & _);
    [reflexivity | vm_compute; reflexivity | reflexivity | reflexivity | lia |].
  eauto.
Defined.

Lemma refresh_remote_change_witness :
  ∃ s' w',
    refresh (env_with (Ok (payload 950))) (model_seen, world0) = (Ok (), (s', w'))
    ∧ __info s' = payload 950 ∧ mtime s' = Some 950000000
    ∧ serialized_info s' = Some (payload 950)
    ∧ row_of s' ∈ db w'.
Proof.
  destruct (proj1 refresh_remote_change (env_with (Ok (payload 950))) model_seen
              world0 (list_to_map [("mtime", VNum 950); ("ctime", VNone)])
              (VNum 950) 950000000 VNone 0) as [Hsaved _].
  - by left.
  - reflexivity.
  - vm_compute; reflexivity.
  - reflexivity.
  - intros old [= <-]. lia.
  - vm_compute; reflexivity.
  - by left.
  - destruct Hsaved as (s' & w' & Hrun & _ & _ & Hinfo & Hmtime & _ & Hser & _ & _
                          & Hrow & _); [reflexivity|].
    exists s', w'. by split_and!.
Defined.

(** The receiver has no [mtime] and the fetch succeeds, yet the record is
    not saved and [info] not encoded: the tag call of [save] failed, and
    [refresh] took the failure for its own. *)
Lemma refresh_remote_change_unsaved :
  let E := env_delete_fails (Ok (vm_payload 950 ["gwm:owner:1"])) in
  let vm := vm_with 2 VNone in
  mtime vm = None
  ∧ ∃ s' w',
      refresh E (vm, world0) = (Ok (), (s', w'))
      ∧ __info s' = vm_payload 950 ["gwm:owner:1"]
      ∧ mtime s' = Some 950000000
      ∧ serialized_info s' = None
      ∧ error s' = Some "unreachable"
      ∧ db w' = []
      ∧ trace w' = [Fetch VirtualMachine (Some 5);
                    DeleteInstanceTags "vm1" ["gwm:owner:1"]].
Proof.
  split; [reflexivity|]. eexists _, _. split; [vm_compute; reflexivity|].
  by vm_compute.
Qed.

Lemma refresh_fetch_failure_keeps_cache_witness :
  ∃ s' w',
    refresh (env_with (Raise (GanetiApiError "timed out"))) (model_seen, world0)
      = (Ok (), (s', w'))
    ∧ __info s' = __info model_seen ∧ cached s' = cached model_seen
    ∧ mtime s' = mtime model_seen ∧ error s' = Some "timed out".
Proof.
  destruct (proj1 refresh_fetch_failure_keeps_cache
              (env_with (Raise (GanetiApiError "timed out"))) model_seen world0
              "timed out")
    as (s' & w' & Hrun & Hinfo & _ & Hcached & Hmtime & _ & Herror & _);
    [reflexivity | done |].
  exists s', w'. by split_and!.
Defined.

Lemma load_info_cases_witness :
  load_info (env_with (Ok (payload 950))) (stored TestModel 1, world0)
  = refresh (env_with (Ok (payload 950))) (stored TestModel 1, world0).
Proof.
  destruct (load_info_cases (env_with (Ok (payload 950))) (stored TestModel 1)
              world0) as [Hbase _].
  destruct Hbase as (_ & _ & Hunset & _); [done|].
  apply Hunset; reflexivity.
Defined.

(** A stored job that does not bypass the cache and has never been cached:
    [load_info] does not refresh it, and leaves the remote API alone. *)
Lemma load_info_job_never_cached :
  let E := env_with (Ok (job_payload "success")) in
  let job := stored Job 7 in
  truthy_id (id job) = true ∧ ignore_cache job = false ∧ cached job = None
  ∧ load_info E (job, world0) = (Ok (), (job, world0))
  ∧ load_info E (job, world0) ≠ refresh E (job, world0)
  ∧ trace (refresh E (job, world0)).2.2 = [Fetch Job (Some 7)].
Proof.
  split_and!; try reflexivity.
  intros Heq. apply (f_equal (λ r, trace r.2.2)) in Heq. by vm_compute in Heq.
Qed.

Lemma job_state_machine_witness :
  ∃ s' w',
    load_info (env_with (Ok (job_payload "running"))) (pending_job, world0)
      = (Ok (), (s', w'))
    ∧ ignore_cache s' = true ∧ status s' = VStr "running".
Proof.
  destruct (proj1 job_state_machine (env_with (Ok (job_payload "running")))
              pending_job world0 7 (job_payload "running") (VStr "running"))
    as (s' & w' & Hrun & Hstatus & _ & _ & Hpending & _);
    [reflexivity | reflexivity | lia | reflexivity | reflexivity
    | vm_compute; reflexivity |].
  exists s', w'. split_and!; [done| |done]. by apply Hpending.
Defined.

(** A job whose flag is clear and whose cache is unset: the staleness test
    of the other classes asks for a refresh, [Job.load_info] does nothing. *)
Lemma terminal_job_ignores_staleness :
  let E := env_with (Ok (job_payload "success")) in
  let job := stored Job 7 in
  ignore_cache job = false ∧ needs_refresh E job = true
  ∧ load_info E (job, world0) = (Ok (), (job, world0))
  ∧ load_info E (job, world0) ≠ CachedClusterObject_load_info E (job, world0)
  ∧ trace (CachedClusterObject_load_info E (job, world0)).2.2
    = [Fetch Job (Some 7)].
Proof.
  split_and!; try reflexivity.
  intros Heq. apply (f_equal (λ r, trace r.2.2)) in Heq. by vm_compute in Heq.
Qed.

Lemma job_load_info_raises_fetch_failure_witness :
  load_info (env_with (Raise (GanetiApiError "timed out"))) (pending_job, world0)
  = (Raise (GanetiApiError "timed out"),
     (pending_job, fetched pending_job world0)).
Proof.
  apply (job_load_info_raises_fetch_failure
           (env_with (Raise (GanetiApiError "timed out"))) pending_job world0
           "timed out"); reflexivity.
Defined.

Lemma refresh_bad_mtime_propagates_witness :
  refresh (env_with (Ok (job_payload "running"))) (model_seen, world0)
  = (Raise (KeyError "mtime"), (model_seen, fetched model_seen world0)).
Proof.
  destruct (proj1 refresh_bad_mtime_propagates
              (env_with (Ok (job_payload "running"))) model_seen world0
              (job_payload "running") (KeyError "mtime"))
    as (_ & Hrun & _); [reflexivity | by vm_compute |].
  exact Hrun.
Defined.

(** The payload has no [mtime] and the fetch succeeds, yet nothing is
    raised to the caller of [load_info]: the receiver is a pending job, and
    [Job.load_info] stores and saves the payload without reading [mtime].
    [refresh] on the same job raises. *)
Lemma pending_job_loads_without_mtime :
  let E := env_with (Ok (job_payload "running")) in
  getitem (job_payload "running") "mtime" ≫= fromtimestamp
  = Raise (KeyError "mtime")
  ∧ (∃ s' w',
       load_info E (pending_job, world0) = (Ok (), (s', w'))
       ∧ __info s' = job_payload "running"
       ∧ SaveRow (row_of s') ∈ trace w')
  ∧ refresh E (pending_job, world0)
    = (Raise (KeyError "mtime"), (pending_job, fetched pending_job world0)).
Proof.
  split_and!.
  - by vm_compute.
  - eexists _, _. split; [vm_compute; reflexivity|]. split; [by vm_compute|].
    cbn [trace]. do 2 right. left.
  - by vm_compute.
Qed.

Lemma virtual_machine_save_owner_tag_witness :
  ∃ s' w' rest,
    save (env_with (Ok VNone)) (vm_of 2 ["web"; "gwm:owner:1"], world0)
      = (Ok (), (s', w'))
    ∧ trace w' = [DeleteInstanceTags "vm1" ["gwm:owner:1"];
                  AddInstanceTags "vm1" ["gwm:owner:2"]] ++ rest
    ∧ Forall (λ ev, is_tag_call ev = false) rest.
Proof.
  destruct (virtual_machine_save_owner_tag (env_with (Ok VNone))
              (vm_of 2 ["web"; "gwm:owner:1"]) world0 5
              (list_to_map
                 [("mtime", VNum 900); ("ctime", VNone);
                  ("tags", VList (VStr <$> ["web"; "gwm:owner:1"]));
                  ("beparams", VDict (list_to_map [("memory", VNum 512);
                                                   ("vcpus", VNum 2)]));
                  ("disk.sizes", VList [VNum 1024; VNum 2048]);
                  ("os", VStr "debian")])
              ["web"; "gwm:owner:1"])
    as (s' & w' & rest & Hrun & _ & Htrace & Hrest & _).
  - reflexivity.
  - reflexivity.
  - reflexivity.
  - vm_compute; reflexivity.
  - repeat constructor; vm_compute; eauto.
  - reflexivity.
  - reflexivity.
  - exists s', w', rest. split_and!; [done| |done].
    rewrite Htrace. reflexivity.
Defined.

(** The owner is unchanged and its tag is present, yet a tag call is made:
    the tag of a former owner is there too. *)
Lemma unchanged_owner_still_deletes :
  let E := env_with (Ok VNone) in
  let vm := vm_of 2 ["gwm:owner:2"; "gwm:owner:1"] in
  existsb (current_tag E (owner_id vm)) ["gwm:owner:2"; "gwm:owner:1"] = true
  ∧ ∃ s' w',
      save E (vm, world0) = (Ok (), (s', w'))
      ∧ List.filter is_tag_call (trace w')
        = [DeleteInstanceTags "vm1" ["gwm:owner:1"]].
Proof.
  split; [vm_compute; reflexivity|]. eexists _, _.
  split; vm_compute; reflexivity.
Qed.

Lemma sync_virtual_machines_converges_witness :
  let w := {| db := [vm_row cluster1 "a" 1]; trace := [] |} in
  local_hostnames cluster1 (db (synced cluster1 w ["a"; "b"; "c"] false))
  = ["a"; "b"; "c"]
  ∧ sync_virtual_machines (env_with (Ok VNone)) false (cluster1, w)
    = (Ok (), (cluster1, synced cluster1 w ["a"; "b"; "c"] false)).
Proof.
  intros w. split; [vm_compute; reflexivity|].
  destruct (sync_virtual_machines_converges (env_with (Ok VNone)) cluster1 w 1
              ["a"; "b"; "c"]) as [[Hrun _] _];
    [reflexivity | reflexivity | | exact Hrun].
  apply (bool_decide_unpack _). vm_compute; reflexivity.
Defined.

Module RegistryWitness.
Import Registry RegistryFacts RegistrySample.

Lemma get_rapi_contract_witness :
  ∃ rapi st',
    get_rapi {[ 1 := credentials_v2 ]} "fingerprint-2" (ClusterId 1)
      after_first_call = (Ok rapi, st')
    ∧ RAPI_CACHE st' !! "fingerprint-1" = None
    ∧ RAPI_CACHE st' !! "fingerprint-2" = Some rapi.
Proof.
  destruct (proj1 (proj2 (proj2 get_rapi_contract))
              {[ 1 := credentials_v2 ]} "fingerprint-2" 1 credentials_v2
              "fingerprint-1" after_first_call)
    as (rapi & st' & Hrun & _ & Hold & Hnew & _).
  - apply (reach_get_rapi {[ 1 := credentials_v1 ]} "fingerprint-1"
             (ClusterId 1) empty
             (get_rapi {[ 1 := credentials_v1 ]} "fingerprint-1" (ClusterId 1)
                empty).1);
      [apply reach_empty | reflexivity].
  - by vm_compute.
  - by vm_compute.
  - by vm_compute.
  - by vm_compute.
  - eauto.
Defined.

(** The credentials of cluster [1] have changed, and a caller that still
    holds the old fingerprint gets the client built from the old ones; it
    stays in the cache. *)
Lemma stale_fingerprint_gets_old_client :
  ∃ old_client,
    get_rapi {[ 1 := credentials_v1 ]} "fingerprint-1" (ClusterId 1) empty
      = (Ok old_client, after_first_call)
    ∧ client_password old_client = Some "old"
    ∧ get_rapi {[ 1 := credentials_v2 ]} "fingerprint-1" (ClusterId 1)
        after_first_call = (Ok old_client, after_first_call)
    ∧ RAPI_CACHE after_first_call !! "fingerprint-1" = Some old_client.
Proof. eexists. split_and!; by vm_compute. Qed.

End RegistryWitness.

(** * Further properties *)

(** ** Saving and reading back *)

(** X1. What [save] writes reads back. Whenever [save] returns on an
    object whose [serialized_info] was unset, the row it wrote is in the
    store under the object's key, and the [info] getter on that row, as a
    later instantiation finds it, decodes the blob to the [info] the object
    had when it was saved. The save of a [TestModel] or a [Cluster] returns
    whenever the store does not refuse the row, which it never does for a
    [TestModel]. *)
Theorem save_then_info_reads_back E :
  (∀ st st',
     save E st = (Ok (), st') → serialized_info st.1 = None →
     is_Some (id st'.1)
     ∧ row_of st'.1 ∈ db st'.2
     ∧ cls (row_of st'.1) = cls st.1 ∧ id (row_of st'.1) = id st'.1
     ∧ __info (row_of st'.1) = VNone
     ∧ info (row_of st'.1, st'.2)
       = (Ok (__info st'.1), (set_info (__info st'.1) (row_of st'.1), st'.2)))
  ∧ (∀ s w, cls s = TestModel ∨ cls s = Cluster → refused s w = false →
       ∃ st', save E (s, w) = (Ok (), st'))
  ∧ (∀ s w, cls s = TestModel → refused s w = false).
Proof.
  split_and!.
  - intros st st' Hsave Hnone.
    destruct (save_inv _ _ _ Hsave) as (mid & Hb & Hc).
    pose proof (keeps_run _ _ _ _ _ (before_save_keeps_frame E st.1)
                  (before_frame_refl _) Hb) as (Hk & _ & Hs & _).
    rewrite Hnone in Hs.
    destruct (CachedClusterObject_save_dirty_facts _ _ Hc Hs)
      as (_ & _ & _ & _ & _ & _ & Hin & Hblob).
    destruct mid as [s1 w1]. rewrite CachedClusterObject_save_any in Hc.
    destruct (refused s1 w1); [done|].
    simplify_eq. cbn [fst snd] in *. unfold encoded in *. rewrite Hs in *.
    split_and!.
    + by cbn.
    + exact Hin.
    + rewrite <- Hk. by destruct s1.
    + by destruct s1.
    + by destruct s1.
    + rewrite info_loaded. unfold loaded. rewrite Hblob.
      by destruct s1.
  - intros s w Hk Href. destruct Hk as [Hk|Hk].
    + rewrite save_TestModel, CachedClusterObject_save_any by done.
      rewrite (refused_same s (set_saved true s) w w), Href by done. eauto.
    + rewrite save_Cluster, CachedClusterObject_save_any by done.
      rewrite (refused_same s (set_hash (create_hash E s) s) w w), Href by done.
      eauto.
  - intros s w Hk. apply refused_other_class. by rewrite Hk.
Qed.

(** ** A save that does not encode *)

(** X2. [CachedClusterObject.save] encodes [info] only when
    [serialized_info] is unset, and the owner-tag loop of
    [VirtualMachine.save] edits the tag list in place, without unsetting
    it. Saving a stored machine whose blob is already there therefore
    changes the tags in memory and on the remote side, and writes the row
    with the blob as it was: nothing is encoded. *)
Theorem virtual_machine_save_keeps_old_blob E s w n d tags blob :
  cls s = VirtualMachine → id s = Some n →
  __info s = VDict d → d !! "tags" = Some (VList (VStr <$> tags)) →
  Forall (λ t, is_Some (tag_owner E t)) tags →
  delete_tags_error E = None → add_tags_error E = None →
  serialized_info s = Some blob →
  ∃ s' w',
    save E (s, w) = (Ok (), (s', w'))
    ∧ __info s' = VDict (<["tags" := VList (VStr <$> tags_after E s tags)]> d)
    ∧ serialized_info s' = Some blob
    ∧ trace w' = trace w ++ tag_calls E s tags ++ [SaveRow (row_of s')]
    ∧ row_of s' ∈ db w'
    ∧ serialized_info (row_of s') = Some blob.
Proof.
  intros Hk Hid Hi Ht Hf Hd Ha Hb.
  rewrite (VirtualMachine_save_run E s w n d tags) by assumption.
  rewrite CachedClusterObject_save_run by (destruct s; cbn in *; congruence).
  set (s1 := set_info _ s).
  assert (encoded s1 = s1) as He.
  { unfold encoded. subst s1. destruct s; cbn in *. by rewrite Hb. }
  assert (pickled s1 = []) as Hp.
  { unfold pickled. subst s1. destruct s; cbn in *. by rewrite Hb. }
  rewrite He, Hp. eexists _, _. split; [reflexivity|].
  cbn [trace db app]. unfold saved_row. split_and!.
  - subst s1. by destruct s.
  - subst s1. destruct s; cbn in *. exact Hb.
  - by rewrite <- app_assoc.
  - apply upsert_elem.
  - subst s1. destruct s; cbn in *. exact Hb.
Qed.

(** ** A payload that cannot be parsed *)

Lemma parse_transient_info_missing_ctime s w d :
  cls s ≠ Job → __info s = VDict d → d !! "ctime" = None →
  parse_transient_info (s, w) = (Raise (KeyError "ctime"), (s, w)).
Proof.
  intros Hk Hi Hc. unfold parse_transient_info. rewrite bind_get_self.
  assert (CachedClusterObject_parse_transient_info (s, w)
          = (Raise (KeyError "ctime"), (s, w))) as H.
  { unfold CachedClusterObject_parse_transient_info.
    step_with ltac:(by apply (info_dict _ _ d)).
    erewrite bind_raise; [reflexivity|].
    unfold getitem. by rewrite Hc. }
  by destruct (cls s).
Qed.

(** X3. The parsing of a fetched payload runs after [cached] and [info]
    have been assigned and is not guarded. When the payload of an entity
    other than a job is newer (or the first) and has no [ctime] entry,
    [refresh] raises [KeyError] to its caller, having overwritten [cached]
    and [info]; [mtime], [serialized_info] and [error] are as before and
    nothing is saved. *)
Theorem refresh_missing_ctime_stops_half_way E s w d v t :
  cls s ≠ Job → remote E = Ok (VDict d) →
  d !! "mtime" = Some v → fromtimestamp v = Ok t →
  (∀ old, mtime s = Some old → old < t) → d !! "ctime" = None →
  refresh E (s, w)
  = (Raise (KeyError "ctime"),
     (set_info (VDict d) (set_cached (Some (now E)) s), fetched s w)).
Proof.
  intros Hk Hr Hm Ht Hnew Hc.
  assert (refresh_try E (s, w)
          = (Raise (KeyError "ctime"),
             (set_info (VDict d) (set_cached (Some (now E)) s), fetched s w))) as H.
  { rewrite (refresh_fetch_ok E s w (VDict d) v t Hr (getitem_dict _ _ _ Hm) Ht).
    assert (∀ A (m1 m2 : M A),
              match mtime s with
              | Some old => if old <? t then m1 else m2
              | None => m1
              end = m1) as ->.
    { intros A m1 m2. destruct (mtime s) as [old|] eqn:Ho; [|done].
      pose proof (Hnew old eq_refl). by destruct (Z.ltb_spec old t); [|lia]. }
    erewrite bind_raise; [reflexivity|].
    erewrite bind_raise; [reflexivity|].
    unfold set_info_property. step.
    erewrite bind_raise; [reflexivity|].
    unfold parse_info. erewrite bind_raise; [reflexivity|].
    apply (parse_transient_info_missing_ctime _ _ d); [by destruct s| by destruct s|done]. }
  unfold refresh, try_except_api. by rewrite H.
Qed.

(** ** The persistent fields of a virtual machine *)

(** X4. Assigning a well-formed payload to [info] on a virtual machine
    fills the searchable columns from it: [ram] and [virtual_cpus] from
    [beparams], [operating_system] from [os], and [disk_size] with the sum
    of [disk.sizes] (zero for no disk); [mtime] is the payload's, [ctime]
    is the payload's unless that is [None], and [serialized_info] is unset
    so that the next save encodes. The store is not touched. The two
    timestamps are taken to be ones [datetime.fromtimestamp] accepts. *)
Theorem virtual_machine_info_fills_columns s w d v t c tc be mem cpus sizes os :
  cls s = VirtualMachine →
  d !! "mtime" = Some v → fromtimestamp v = Ok t →
  d !! "ctime" = Some c → (c = VNone ∨ fromtimestamp c = Ok tc) →
  d !! "beparams" = Some (VDict be) →
  be !! "memory" = Some mem → be !! "vcpus" = Some cpus →
  d !! "disk.sizes" = Some (VList (VNum <$> sizes)) → d !! "os" = Some os →
  ∃ s',
    set_info_property (VDict d) (s, w) = (Ok (), (s', w))
    ∧ __info s' = VDict d ∧ serialized_info s' = None
    ∧ ram s' = mem ∧ virtual_cpus s' = cpus
    ∧ disk_size s' = VNum (foldr Z.add 0 sizes)
    ∧ operating_system s' = os
    ∧ mtime s' = Some t
    ∧ ctime s' = match c with VNone => ctime s | _ => Some tc end.
Proof.
  intros Hk Hm Ht Hc Hform Hbe Hmem Hcpu Hsz Hos.
  eexists. split.
  - by apply (set_info_property_VirtualMachine _ _ d v t c tc be).
  - unfold with_ctime. destruct c; by destruct s.
Qed.

(** ** Saving a cluster *)

Lemma update_rows_inv p f r rows :
  r ∈ update_rows p f rows → ∃ r0, r0 ∈ rows ∧ r = if p r0 then f r0 else r0.
Proof.
  unfold update_rows. intros (r0 & -> & Hin)%list_elem_of_fmap. eauto.
Qed.

Lemma upsert_other row rows r :
  r ∈ rows → cls r ≠ cls row → r ∈ upsert row rows.
Proof.
  intros Hin Hk. unfold upsert. destruct (existsb _ rows).
  - apply update_rows_elem; [done|]. unfold is_row.
    destruct (id row); [|done]. apply andb_false_iff. left.
    by apply bool_decide_eq_false.
  - apply elem_of_app. by left.
Qed.

(** X5. [Cluster.save] recomputes [hash] from the credentials, and the
    [post_save] handler [update_cluster_hash] copies it to the rows of the
    cluster: after a save that the store accepts, every machine and job of
    the cluster in the store carries the cluster's new hash, and machines
    and jobs of other clusters stay as they were. The store refuses the
    row exactly when another cluster has the same [hostname] or [slug];
    the save then raises [IntegrityError] with the new hash on the object
    and nothing written. *)
Theorem cluster_save_propagates_hash E c w :
  cls c = Cluster →
  (refused c w = false →
   ∃ c' w',
     save E (c, w) = (Ok (), (c', w'))
     ∧ hash c' = create_hash E c
     ∧ id c' = Some (pk_of c w)
     ∧ (∀ r, r ∈ db w' → cls r = VirtualMachine ∨ cls r = Job →
          cluster_id r = id c' → cluster_hash r = hash c')
     ∧ (∀ r, r ∈ db w → cls r = VirtualMachine ∨ cls r = Job →
          cluster_id r ≠ id c' → r ∈ db w')
     ∧ last (trace w') = Some (UpdateClusterHash (id c') (hash c')))
  ∧ (refused c w = true →
     ∃ c' w',
       save E (c, w) = (Raise IntegrityError, (c', w'))
       ∧ hash c' = create_hash E c ∧ id c' = id c
       ∧ db w' = db w ∧ trace w' = trace w ++ pickled c)
  ∧ (refused c w = true ↔
     ∃ r, r ∈ db w ∧ cls r = Cluster ∧ id r ≠ Some (pk_of c w)
          ∧ (hostname r = hostname c ∨ slug r = slug c)).
Proof.
  intros Hk.
  assert (save E (c, w)
          = CachedClusterObject_save (set_hash (create_hash E c) c, w)) as ->.
  { by apply save_Cluster. }
  rewrite CachedClusterObject_save_any.
  rewrite (refused_same c (set_hash (create_hash E c) c) w w) by done.
  set (c1 := set_hash (create_hash E c) c).
  split_and!.
  - intros ->.
    set (c' := set_id (Some (pk_of c1 w)) (encoded c1)).
    assert (cls c' = Cluster ∧ hash c' = create_hash E c ∧ id c' = Some (pk_of c w))
      as (Hk' & Hh & Hid).
    { subst c'. destruct (encoded_cases c1) as [-> | ->];
        subst c1; unfold pk_of; by destruct c. }
    eexists _, _. split; [reflexivity|]. split; [exact Hh|]. split; [exact Hid|].
    unfold post_save. rewrite Hk'. cbn [db trace]. split_and!.
    + intros r (r0 & Hin & ->)%update_rows_inv. cbv beta.
      destruct (_ && _) eqn:Hp; [intros; by destruct r0|].
      intros Hkind Hc. apply andb_false_iff in Hp as [Hp | Hp].
      * apply orb_false_iff in Hp as [H1%bool_decide_eq_false H2%bool_decide_eq_false].
        by destruct Hkind.
      * by apply bool_decide_eq_false in Hp.
    + intros r Hin Hkind Hc. apply update_rows_elem.
      * apply upsert_other; [done|].
        assert (cls (saved_row (encoded c1) w) = Cluster) as ->.
        { unfold saved_row.
          destruct (encoded_cases c1) as [-> | ->]; subst c1; by destruct c. }
        destruct Hkind as [-> | ->]; done.
      * apply andb_false_iff. right. by apply bool_decide_eq_false.
    + by rewrite last_snoc.
  - intros ->. eexists _, _. split; [reflexivity|].
    assert (pickled c1 = pickled c) as -> by (subst c1; by destruct c).
    split_and!; try reflexivity;
      destruct (encoded_cases c1) as [-> | ->]; subst c1; by destruct c.
  - unfold refused. rewrite <- not_false_iff_true, <- not_true_iff_false.
    rewrite existsb_exists. split.
    + intros Hex. destruct (existsb (clashes c (pk_of c w)) (db w)) eqn:Hb.
      * apply existsb_exists in Hb as (r & Hin%list_elem_of_In & Hr).
        unfold clashes in Hr.
        apply andb_true_iff in Hr as [Hr Hcol].
        apply andb_true_iff in Hr as [Hr Hpk%negb_true_iff%bool_decide_eq_false].
        apply andb_true_iff in Hr as [_ Hkr%bool_decide_eq_true].
        exists r. split_and!; [done..|].
        apply orb_true_iff in Hcol as [H%bool_decide_eq_true|H%bool_decide_eq_true];
          auto.
      * exfalso. apply Hex. intros (r & Hin & Hr).
        apply not_true_iff_false in Hb. apply Hb, existsb_exists. eauto.
    + intros (r & Hin & Hkr & Hpk & Hcol) Hno. apply Hno.
      exists r. split; [by apply list_elem_of_In|]. unfold clashes.
      rewrite !bool_decide_true by done. cbn.
      rewrite bool_decide_false by done. cbn.
      destruct Hcol as [H|H]; rewrite (bool_decide_true _ H); [done|].
      apply orb_true_r.
Qed.

(** ** Reports and reconciliation *)

Lemma filter_ext_elem {A} (P Q : A → bool) l :
  (∀ x, x ∈ l → P x = Q x) → List.filter P l = List.filter Q l.
Proof.
  intros H. apply List.filter_ext_in. intros x Hx. apply H.
  by apply list_elem_of_In.
Qed.

Lemma missing_in_db_run E c w R :
  listing E = Some R →
  missing_in_db E (c, w)
  = (Ok (to_insert c (db w) R),
     (c, {| db := db w; trace := trace w ++ [GetInstances] |})).
Proof.
  intros HR. unfold missing_in_db.
  step_with ltac:(by apply instances_ok). reflexivity.
Qed.

Lemma missing_in_ganeti_run E c w R :
  listing E = Some R →
  missing_in_ganeti E (c, w)
  = (Ok (to_delete c (db w) R),
     (c, {| db := db w; trace := trace w ++ [GetInstances] |})).
Proof.
  intros HR. unfold missing_in_ganeti.
  step_with ltac:(by apply instances_ok). reflexivity.
Qed.

(** X7. The two reports of a cluster only read: [missing_in_db] returns,
    in the order of the remote listing, the listed hostnames that no
    machine of the cluster in the store has, and [missing_in_ganeti]
    returns, in the order of the store, the hostnames of the cluster's
    machines that are not listed; each makes one listing call and leaves
    the store as it is. When the listing fails with the API's error the
    first report is empty and the second names every machine of the
    cluster. *)
Theorem missing_reports E c w :
  (∀ R, listing E = Some R →
     missing_in_db E (c, w)
     = (Ok (to_insert c (db w) R),
        (c, {| db := db w; trace := trace w ++ [GetInstances] |}))
     ∧ missing_in_ganeti E (c, w)
       = (Ok (to_delete c (db w) R),
          (c, {| db := db w; trace := trace w ++ [GetInstances] |}))
     ∧ (∀ h, h ∈ to_insert c (db w) R ↔ h ∈ R ∧ h ∉ local_hostnames c (db w))
     ∧ (∀ h, h ∈ to_delete c (db w) R ↔ h ∈ local_hostnames c (db w) ∧ h ∉ R))
  ∧ (∀ msg, remote_instances E = Raise (GanetiApiError msg) →
       (missing_in_db E (c, w)).1 = Ok []
       ∧ (missing_in_ganeti E (c, w)).1 = Ok (local_hostnames c (db w))).
Proof.
  split.
  - intros R HR. split_and!.
    + by apply missing_in_db_run.
    + by apply missing_in_ganeti_run.
    + apply elem_of_to_insert.
    + apply elem_of_to_delete.
  - intros msg Hfail.
    assert (listing E = Some []) as HR by (unfold listing; by rewrite Hfail).
    rewrite (missing_in_db_run E c w [] HR), (missing_in_ganeti_run E c w [] HR).
    split; [done|]. cbn [fst]. f_equal. unfold to_delete. by apply filter_all.
Qed.

Lemma to_insert_synced_true c n w R :
  id c = Some n → to_insert c (db (synced c w R true)) R = [].
Proof.
  intros Hid. unfold to_insert. apply filter_nil. intros h Hh.
  apply negb_false_iff, member_true. by apply (local_hostnames_synced c n).
Qed.

Lemma to_delete_synced_true c n w R :
  id c = Some n → to_delete c (db (synced c w R true)) R = [].
Proof.
  intros Hid. unfold to_delete. apply filter_nil. intros h Hh.
  apply negb_false_iff, member_true. by apply (local_hostnames_synced c n w).
Qed.

(** X8. After a synchronisation the reports are empty: run after
    [sync_virtual_machines], with or without removal, [missing_in_db]
    returns the empty list, and run after a synchronisation with removal
    [missing_in_ganeti] returns the empty list too. *)
Theorem sync_then_reports_empty E c w n R :
  id c = Some n → listing E = Some R →
  (∀ remove,
     ((sync_virtual_machines E remove ;; missing_in_db E) (c, w)).1 = Ok [])
  ∧ ((sync_virtual_machines E true ;; missing_in_ganeti E) (c, w)).1 = Ok [].
Proof.
  intros Hid HR. split.
  - intros remove.
    erewrite bind_ok; [|by apply sync_virtual_machines_run].
    rewrite (missing_in_db_run E _ _ R HR). cbn [fst]. f_equal.
    destruct remove.
    + by apply (to_insert_synced_true c n).
    + by apply (to_insert_synced c n).
  - erewrite bind_ok; [|by apply sync_virtual_machines_run].
    rewrite (missing_in_ganeti_run E _ _ R HR). cbn [fst]. f_equal.
    by apply (to_delete_synced_true c n).
Qed.

Lemma synced_db c w R remove :
  db (synced c w R remove)
  = if remove
    then List.filter (kept c (to_delete c (db w) R))
           (db w ++ inserted c (to_insert c (db w) R) (db w))
    else db w ++ inserted c (to_insert c (db w) R) (db w).
Proof.
  unfold synced. destruct remove; [|done].
  destruct (to_delete c (db w) R) eqn:Hd; [|done].
  cbn [db]. symmetry. apply filter_all. intros r _. unfold kept.
  by rewrite andb_false_r.
Qed.

(** X9. What a synchronisation leaves alone. [sync_virtual_machines]
    never changes a row: every row after it was there before or is one of
    the ownerless machines inserted for a listed hostname the cluster did
    not have. Rows that are not machines of this cluster, and machines of
    the cluster whose hostname is listed, are all still there afterwards,
    and without removal so is every row. *)
Theorem sync_leaves_other_rows E c w R remove :
  listing E = Some R →
  ∃ w',
    sync_virtual_machines E remove (c, w) = (Ok (), (c, w'))
    ∧ (∀ r, r ∈ db w → is_vm_of c r = false → r ∈ db w')
    ∧ (∀ r, r ∈ db w → hostname r ∈ R → r ∈ db w')
    ∧ (remove = false → ∀ r, r ∈ db w → r ∈ db w')
    ∧ (∀ r, r ∈ db w' →
         r ∈ db w
         ∨ (ownerless_vm_of c r ∧ hostname r ∈ R
            ∧ hostname r ∉ local_hostnames c (db w))).
Proof.
  intros HR. exists (synced c w R remove).
  split; [by apply sync_virtual_machines_run|].
  rewrite synced_db. split_and!.
  - intros r Hin Hvm. destruct remove.
    + apply elem_of_filter_bool. split; [apply elem_of_app; by left|].
      unfold kept. by rewrite Hvm.
    + apply elem_of_app. by left.
  - intros r Hin Hh. destruct remove.
    + apply elem_of_filter_bool. split; [apply elem_of_app; by left|].
      unfold kept. apply negb_true_iff, andb_false_iff. right.
      apply member_false. intros [_ Hnot]%elem_of_to_delete. done.
    + apply elem_of_app. by left.
  - intros -> r Hin. apply elem_of_app. by left.
  - intros r Hr.
    assert (r ∈ db w ++ inserted c (to_insert c (db w) R) (db w)) as Hr'.
    { destruct remove; [|done]. by apply elem_of_filter_bool in Hr as [? _]. }
    apply elem_of_app in Hr' as [?|Hins]; [by left|]. right.
    pose proof (inserted_ownerless c (to_insert c (db w) R) (db w)) as Hall.
    rewrite Forall_forall in Hall. split; [by apply Hall|].
    apply elem_of_to_insert. rewrite <- (inserted_hostnames c _ (db w)).
    apply list_elem_of_fmap. eauto.
Qed.

(** X10. A failing listing empties the inventory. [Cluster.instances]
    answers a failure of the remote API with the empty list, so a
    synchronisation with removal run while the API fails deletes every
    machine of the cluster from the store and keeps all other rows;
    without removal it changes nothing. *)
Theorem sync_remove_after_api_failure E c w msg :
  remote_instances E = Raise (GanetiApiError msg) →
  (∃ w',
     sync_virtual_machines E true (c, w) = (Ok (), (c, w'))
     ∧ db w' = List.filter (λ r, negb (is_vm_of c r)) (db w)
     ∧ local_hostnames c (db w') = [])
  ∧ sync_virtual_machines E false (c, w)
    = (Ok (), (c, {| db := db w; trace := trace w ++ [GetInstances] |})).
Proof.
  intros Hfail.
  assert (listing E = Some []) as HR by (unfold listing; by rewrite Hfail).
  assert (to_delete c (db w) [] = local_hostnames c (db w)) as Hdel.
  { unfold to_delete. by apply filter_all. }
  split.
  - exists (synced c w [] true). split; [by apply sync_virtual_machines_run|].
    assert (db (synced c w [] true) = List.filter (λ r, negb (is_vm_of c r)) (db w))
      as Hdb.
    { rewrite synced_db, Hdel. cbn [to_insert List.filter inserted].
      rewrite app_nil_r. apply filter_ext_elem. intros r Hin. unfold kept.
      destruct (is_vm_of c r) eqn:Hvm; [|done]. cbn.
      apply negb_false_iff, member_true, elem_of_local_hostnames. eauto. }
    split; [exact Hdb|]. rewrite Hdb. unfold local_hostnames, virtual_machines.
    rewrite filter_nil; [done|].
    intros r [_ Hr]%elem_of_filter_bool. by apply negb_true_iff in Hr.
  - rewrite (sync_virtual_machines_run E c w [] false HR). unfold synced.
    cbn [to_insert List.filter inserted save_events flat_map].
    by rewrite app_nil_r.
Qed.

(** ** The registry: clearing and failing *)

Module RegistryEdges.
Import Registry RegistryFacts.

(** X11. [clear_rapi_cache] forgets every handle: the next [get_rapi]
    for a known cluster, whatever fingerprint the caller passes,
    constructs a client that is none of the clients cached before, from
    the credentials the store holds now (an empty user name or password
    becoming [None]), and leaves it as the only cached handle. *)
Theorem get_rapi_after_clear clusters hash cluster n creds st :
  reachable st → resolve cluster = Some n → clusters !! n = Some creds →
  ∃ rapi st',
    get_rapi clusters hash cluster (clear_rapi_cache st) = (Ok rapi, st')
    ∧ (∀ h r, RAPI_CACHE st !! h = Some r → serial r ≠ serial rapi)
    ∧ host rapi = c_hostname creds ∧ rapi_port rapi = c_port creds
    ∧ user rapi = or_none (c_username creds)
    ∧ client_password rapi = or_none (c_password creds)
    ∧ RAPI_CACHE st' = {[ c_hash creds := rapi ]}
    ∧ RAPI_CACHE_HASHES st' = {[ n := c_hash creds ]}.
Proof.
  intros Hst%reachable_consistent Hn Hc.
  unfold get_rapi, clear_rapi_cache. cbn [RAPI_CACHE RAPI_CACHE_HASHES constructed].
  rewrite !lookup_empty, Hn, Hc, !lookup_empty.
  eexists _, _. split; [reflexivity|]. cbn.
  split_and!; try reflexivity.
  intros h r Hr Heq. pose proof (serial_below st Hst h r Hr). lia.
Qed.

(** X12. How [get_rapi] fails. In a state the registry can reach, a
    call raises exactly when the fingerprint passed is not cached and the
    cluster is unknown to the store (or is an unsaved object); the error
    is the [ValueError] of unpacking the empty result, not
    [DoesNotExist], and the registry is left as it was. The deletion of
    the superseded handle never fails. *)
Theorem get_rapi_fails_only_for_unknown_cluster clusters hash cluster st :
  reachable st →
  ∀ e st',
    get_rapi clusters hash cluster st = (Raise e, st')
    ↔ (e = ValueError ∧ st' = st ∧ RAPI_CACHE st !! hash = None
       ∧ match resolve cluster with
         | Some n => clusters !! n = None
         | None => True
         end).
Proof.
  intros Hst%reachable_consistent e st'. unfold get_rapi. split.
  - destruct (RAPI_CACHE st !! hash) eqn:Hh; [done|].
    destruct (resolve cluster) as [n|]; [|by intros [= <- <-]].
    destruct (clusters !! n) as [creds|]; [|by intros [= <- <-]].
    destruct (RAPI_CACHE st !! c_hash creds); [done|].
    destruct (RAPI_CACHE_HASHES st !! n) as [old|] eqn:Hold; [|done].
    destruct (recorded_live st Hst n old Hold) as [r ->]. done.
  - intros (-> & -> & -> & Hc).
    destruct (resolve cluster) as [n|]; [|done]. by rewrite Hc.
Qed.

End RegistryEdges.

(** ** Decimal numerals *)

Lemma append_cons c s t : String c s +:+ t = String c (s +:+ t).
Proof. reflexivity. Qed.

Lemma append_nil_r s : s +:+ "" = s.
Proof. induction s as [|c s IH]; [done|]. by rewrite append_cons, IH. Qed.

Lemma prefix_app p x : String.prefix p (p +:+ x) = true.
Proof.
  induction p as [|a p IH]; simpl; [by destruct x|].
  destruct (ascii_dec a a); [exact IH|congruence].
Qed.

Lemma string_drop_app p x : string_drop (String.length p) (p +:+ x) = x.
Proof. induction p as [|a p IH]; simpl; [by destruct x|exact IH]. Qed.

Lemma all_chars_rev_app P s : ∀ t,
  all_chars P (String.rev_app s t) = all_chars P s && all_chars P t.
Proof.
  induction s as [|c s IH]; intros t; cbn; [done|].
  rewrite IH. cbn. by destruct (P c), (all_chars P s).
Qed.

Lemma rev_app_rev_app s : ∀ t u,
  String.rev_app (String.rev_app s t) u = String.rev_app t (s +:+ u).
Proof.
  induction s as [|c s IH]; intros t u; [done|].
  by rewrite append_cons; simpl; rewrite IH.
Qed.

Lemma lstrip_no_space s : all_chars (λ c, negb (is_space c)) s = true → lstrip s = s.
Proof. destruct s as [|c s]; cbn; [done|]. by destruct (is_space c). Qed.

Lemma strip_no_space s : all_chars (λ c, negb (is_space c)) s = true → strip s = s.
Proof.
  intros Hs. unfold strip, String.rev. rewrite (lstrip_no_space s Hs).
  rewrite lstrip_no_space.
  - rewrite rev_app_rev_app. simpl. apply append_nil_r.
  - by rewrite all_chars_rev_app, Hs.
Qed.

Lemma all_chars_impl (P Q : ascii → bool) s :
  (∀ c, P c = true → Q c = true) → all_chars P s = true → all_chars Q s = true.
Proof.
  intros H. induction s as [|c s IH]; cbn; [done|].
  intros [? ?]%andb_true_iff. apply andb_true_iff. auto.
Qed.

Lemma digit_no_space c : is_digit c = true → negb (is_space c) = true.
Proof.
  unfold is_digit, digit_of, is_space.
  destruct (Nat.leb_spec 48 (nat_of_ascii c)); [|done].
  destruct (Nat.leb_spec (nat_of_ascii c) 57); [|done]. intros _. cbn.
  apply negb_true_iff, orb_false_iff. split.
  - apply Nat.eqb_neq. lia.
  - apply andb_false_iff. right. apply Nat.leb_gt. lia.
Qed.

Lemma digit_of_pretty_N_char m :
  (m < 10)%N → digit_of (pretty_N_char m) = Some (Z.of_N m).
Proof.
  intros Hm.
  assert (m = 0 ∨ m = 1 ∨ m = 2 ∨ m = 3 ∨ m = 4 ∨ m = 5 ∨ m = 6 ∨ m = 7
          ∨ m = 8 ∨ m = 9)%N as H by lia.
  destruct_or!; by subst.
Qed.

Lemma pretty_N_go_digits x : ∀ s,
  all_chars is_digit s = true →
  all_chars is_digit (pretty_N_go x s) = true
  ∧ ∃ k, 0 ≤ k ∧ ∀ a, digits a (pretty_N_go x s) = digits (a * 10 ^ k + Z.of_N x) s.
Proof.
  induction (N.lt_wf_0 x) as [x _ IH]. intros s Hs.
  destruct (decide (x = 0)%N) as [->|Hx].
  - rewrite pretty_N_go_0. split; [done|]. exists 0. split; [done|].
    intros a. f_equal. lia.
  - rewrite pretty_N_go_step by lia.
    assert (x `mod` 10 < 10)%N as Hm by (apply N.mod_lt; lia).
    pose proof (digit_of_pretty_N_char _ Hm) as Hd.
    destruct (IH (x `div` 10)%N) with (s := String (pretty_N_char (x `mod` 10)) s)
      as [Hall (k & Hk0 & Hk)].
    + apply N.div_lt; lia.
    + cbn. unfold is_digit at 1. by rewrite Hd.
    + split; [done|]. exists (Z.succ k)%Z. split; [lia|].
      intros a. rewrite Hk. cbn. rewrite Hd. f_equal.
      rewrite Z.pow_succ_r by done.
      rewrite N2Z.inj_div, N2Z.inj_mod.
      pose proof (Z.div_mod (Z.of_N x) 10 ltac:(done)). change (Z.of_N 10) with 10.
      lia.
Qed.

Lemma digits1_pretty_N_go x :
  (0 < x)%N →
  digits1 (pretty_N_go x "") = Some (Z.of_N x)
  ∧ all_chars is_digit (pretty_N_go x "") = true
  ∧ pretty_N_go x "" ≠ "".
Proof.
  intros Hx. destruct (pretty_N_go_digits x "" eq_refl) as [Hall (k & Hk0 & Hk)].
  assert (pretty_N_go x "" ≠ "") as Hne.
  { intros Heq. specialize (Hk 1). rewrite Heq in Hk. cbn in Hk.
    pose proof (Z.pow_pos_nonneg 10 k ltac:(done) Hk0). injection Hk. lia. }
  split_and!; [|done|done].
  unfold digits1. destruct (pretty_N_go x "") eqn:Heq; [done|].
  rewrite Hk. cbn. f_equal.
Qed.

Lemma digit_head_cases c s (A B C : string → option Z) :
  is_digit c = true →
  match String c s with
  | String "+" r => A r
  | String "-" r => B r
  | r => C r
  end = C (String c s).
Proof.
  intros Hc. destruct c as [[] [] [] [] [] [] [] []]; try done.
Qed.

Lemma py_int_digits s :
  s ≠ "" → all_chars is_digit s = true → py_int s = digits1 s.
Proof.
  intros Hne Hall. unfold py_int.
  rewrite strip_no_space by (eapply all_chars_impl; [apply digit_no_space|done]).
  destruct s as [|c s]; [done|].
  apply (digit_head_cases c s digits1 (λ r, Z.opp <$> digits1 r) digits1).
  cbn in Hall. by apply andb_true_iff in Hall as [? _].
Qed.

Lemma pretty_positive_parts (p : positive) :
  digits1 (pretty p) = Some (Z.pos p)
  ∧ all_chars is_digit (pretty p) = true ∧ pretty p ≠ "".
Proof.
  assert (pretty p = pretty_N_go (N.pos p) "") as -> by reflexivity.
  apply (digits1_pretty_N_go (N.pos p)). lia.
Qed.

(** [int(str(n))] is [n]. *)
Lemma py_int_pretty (n : Z) : py_int (pretty n) = Some n.
Proof.
  destruct n as [|p|p].
  - reflexivity.
  - change (pretty (Z.pos p)) with (pretty p).
    destruct (pretty_positive_parts p) as (Hd & Hall & Hne).
    by rewrite py_int_digits.
  - change (pretty (Z.neg p)) with ("-" +:+ pretty p).
    destruct (pretty_positive_parts p) as (Hd & Hall & Hne).
    unfold py_int. rewrite strip_no_space.
    + rewrite append_cons. cbn. change ("" +:+ pretty p) with (pretty p).
      by rewrite Hd.
    + rewrite append_cons. cbn. change ("" +:+ pretty p) with (pretty p).
      eapply all_chars_impl; [apply digit_no_space|done].
Qed.

(** ** The owner tag, written and read *)

Lemma tag_owner_owner_tag E n : tag_owner E (owner_tag E n) = Some (Some n).
Proof.
  unfold tag_owner, owner_tag. by rewrite prefix_app, string_drop_app, py_int_pretty.
Qed.

Lemma stale_owner_tag E n o : stale_tag E o (owner_tag E n) = negb (bool_decide (Some n = o)).
Proof. unfold stale_tag. by rewrite tag_owner_owner_tag. Qed.

Lemma current_owner_tag E n o : current_tag E o (owner_tag E n) = bool_decide (Some n = o).
Proof. unfold current_tag. by rewrite tag_owner_owner_tag. Qed.

Lemma current_not_stale E o t : current_tag E o t = true → stale_tag E o t = false.
Proof.
  unfold current_tag, stale_tag. destruct (tag_owner E t) as [[i|]|]; try done.
  by intros ->.
Qed.

Lemma truthy_id_default o : truthy_id o = true → Some (default 0 o) = o.
Proof. by destruct o. Qed.

Lemma filter_filter_negb {A} (P : A → bool) l :
  List.filter P (List.filter (λ x, negb (P x)) l) = [].
Proof.
  apply filter_nil. intros x [_ Hx]%elem_of_filter_bool. by apply negb_true_iff.
Qed.

Lemma filter_app_bool {A} (P : A → bool) l k :
  List.filter P (l ++ k) = List.filter P l ++ List.filter P k.
Proof. apply List.filter_app. Qed.

Lemma existsb_filter_current E o tags :
  existsb (current_tag E o) (List.filter (λ t, negb (stale_tag E o t)) tags)
  = existsb (current_tag E o) tags.
Proof.
  induction tags as [|t tags IH]; [done|]. cbn.
  destruct (stale_tag E o t) eqn:Hs; cbn; rewrite IH.
  - destruct (current_tag E o t) eqn:Hc; [|done].
    by rewrite (current_not_stale _ _ _ Hc) in Hs.
  - done.
Qed.

(** The tags [VirtualMachine.save] leaves need no further change. *)
Lemma tags_after_settled E s s1 tags :
  owner_id s1 = owner_id s → hostname s1 = hostname s →
  tag_calls E s1 (tags_after E s tags) = []
  ∧ tags_after E s1 (tags_after E s tags) = tags_after E s tags.
Proof.
  intros Ho Hh.
  assert (tags_to_delete E s1 (tags_after E s tags) = []) as Hdel.
  { unfold tags_to_delete, tags_after. rewrite Ho, filter_app_bool, filter_filter_negb.
    destruct (adds_tag E s tags) eqn:Ha; [|done]. cbn.
    apply andb_true_iff in Ha as [Ht _].
    by rewrite stale_owner_tag, (truthy_id_default _ Ht), bool_decide_eq_true_2. }
  assert (adds_tag E s1 (tags_after E s tags) = false) as Hadd.
  { unfold adds_tag at 1, tags_after. rewrite Ho.
    destruct (truthy_id (owner_id s)) eqn:Ht; [|done]. cbn.
    apply negb_false_iff. rewrite existsb_app, existsb_filter_current.
    unfold adds_tag. rewrite Ht. cbn.
    destruct (existsb (current_tag E (owner_id s)) tags); [done|]. cbn.
    by rewrite current_owner_tag, (truthy_id_default _ Ht), bool_decide_eq_true_2. }
  split.
  - unfold tag_calls. by rewrite Hdel, Hadd.
  - unfold tags_after at 1. rewrite Hadd, app_nil_r.
    apply filter_none_negb. exact Hdel.
Qed.

Lemma Forall_tags_after E s tags :
  Forall (λ t, is_Some (tag_owner E t)) tags →
  Forall (λ t, is_Some (tag_owner E t)) (tags_after E s tags).
Proof.
  intros Hf. unfold tags_after. apply Forall_app. split.
  - rewrite Forall_forall in Hf |- *. intros t [Ht _]%elem_of_filter_bool. auto.
  - destruct (adds_tag E s tags); [|done]. apply Forall_singleton.
    by rewrite tag_owner_owner_tag.
Qed.

(** X13. The owner tag that [VirtualMachine.save] writes is the one
    its loop reads back as the owner's, so the reconciliation settles after
    one save: a second save of the same machine makes no remote tag call
    and leaves the tag list as the first save left it. *)
Theorem virtual_machine_save_twice E s w n d tags :
  cls s = VirtualMachine → id s = Some n →
  __info s = VDict d → d !! "tags" = Some (VList (VStr <$> tags)) →
  Forall (λ t, is_Some (tag_owner E t)) tags →
  delete_tags_error E = None → add_tags_error E = None →
  ∃ s1 w1 s2 w2,
    save E (s, w) = (Ok (), (s1, w1))
    ∧ save E (s1, w1) = (Ok (), (s2, w2))
    ∧ __info s2 = __info s1
    ∧ List.filter is_tag_call (trace w2) = List.filter is_tag_call (trace w1)
    ∧ (∀ i, tag_owner E (owner_tag E i) = Some (Some i)).
Proof.
  intros Hk Hid Hi Ht Hf Hd Ha.
  rewrite (VirtualMachine_save_run E s w n d tags) by assumption.
  rewrite CachedClusterObject_save_run by (destruct s; cbn in *; congruence).
  set (d1 := <["tags" := VList (VStr <$> tags_after E s tags)]> d).
  set (s0 := set_info (VDict d1) s).
  set (s1 := set_id (Some (pk_of s0 _)) (encoded s0)).
  assert (cls s1 = VirtualMachine ∧ id s1 = Some n ∧ __info s1 = VDict d1
          ∧ owner_id s1 = owner_id s ∧ hostname s1 = hostname s)
    as (Hk1 & Hid1 & Hi1 & Ho1 & Hh1).
  { subst s1. destruct (encoded_cases s0) as [-> | ->]; subst s0; unfold pk_of;
      destruct s; cbn in *; by rewrite Hid. }
  destruct (tags_after_settled E s s1 tags Ho1 Hh1) as [Hcalls Hsame].
  eexists s1, _, _, _. split; [reflexivity|].
  rewrite (VirtualMachine_save_run E s1 _ n d1 (tags_after E s tags));
    [|done|done|done|by apply lookup_insert_eq|by apply Forall_tags_after|done|done].
  rewrite Hcalls, Hsame, app_nil_r.
  assert (set_info (VDict (<["tags" := VList (VStr <$> tags_after E s tags)]> d1)) s1 = s1)
    as ->.
  { assert (<["tags" := VList (VStr <$> tags_after E s tags)]> d1 = d1) as ->
      by (unfold d1; apply insert_insert_eq).
    rewrite <- Hi1. apply set_info_same. }
  rewrite CachedClusterObject_save_run by congruence.
  split; [reflexivity|]. cbn [trace]. split_and!.
  - destruct (encoded_cases s1) as [-> | ->]; by destruct s1.
  - etrans; [apply filter_app_bool|].
    rewrite (filter_nil is_tag_call (_ ++ [_])); [apply app_nil_r|].
    intros ev [Hev | ->%list_elem_of_singleton]%elem_of_app; [|done].
    unfold pickled in Hev. destruct (serialized_info s1).
    + by apply elem_of_nil in Hev.
    + by apply list_elem_of_singleton in Hev as ->.
  - intros i. apply tag_owner_owner_tag.
Qed.

Module QuotaFacts.
Import Quotas.

Lemma fresh_id_above rows q i :
  q ∈ rows → Quota.id q = Some i → i < fresh_id rows.
Proof.
  unfold fresh_id. induction rows as [|r rows IH]; intros Hin Hi.
  - by apply elem_of_nil in Hin.
  - cbn. apply elem_of_cons in Hin as [<- | Hin].
    + rewrite Hi. cbn. lia.
    + specialize (IH Hin Hi). lia.
Qed.

Lemma matches_inv c u q :
  matches c u q = true ↔ Quota.cluster_id q = Some c ∧ Quota.user_id q = Some u.
Proof.
  unfold matches. rewrite andb_true_iff, !bool_decide_eq_true. done.
Qed.

Lemma matches_other c u c' u' q :
  matches c u q = true → (c', u') ≠ (c, u) → matches c' u' q = false.
Proof.
  intros [Hc Hu]%matches_inv Hne. apply not_true_iff_false.
  intros [Hc' Hu']%matches_inv. congruence.
Qed.

Lemma filter_singleton_elem (P : Quota.row → bool) rows q :
  List.filter P rows = [q] → q ∈ rows ∧ P q = true.
Proof.
  intros H. apply elem_of_filter_bool. rewrite H. by apply list_elem_of_singleton.
Qed.

Lemma same_id_same_row rows q r :
  NoDup (Quota.id <$> rows) → q ∈ rows → r ∈ rows → Quota.id r = Quota.id q → r = q.
Proof.
  intros Hnd [i Hi]%list_elem_of_lookup [j Hj]%list_elem_of_lookup Heq.
  assert (i = j) as ->; [|congruence].
  eapply NoDup_lookup; [exact Hnd| |]; rewrite list_lookup_fmap.
  - by rewrite Hi.
  - rewrite Hj. cbn. congruence.
Qed.

(** Replacing rows by a row that passes a filter exactly when they do
    commutes with the filter. *)
Lemma filter_replace c u k q' rows :
  (∀ r, r ∈ rows → has_id k r = true → matches c u q' = matches c u r) →
  List.filter (matches c u) ((λ r, if has_id k r then q' else r) <$> rows)
  = (λ r, if has_id k r then q' else r) <$> List.filter (matches c u) rows.
Proof.
  induction rows as [|r rows IH]; intros H; [done|].
  cbn [fmap list_fmap List.filter].
  rewrite IH by (intros x Hx; apply H; by right).
  destruct (has_id k r) eqn:Hr.
  - rewrite (H r) by (done || by left).
    destruct (matches c u r); [|done]. cbn. by rewrite Hr.
  - destruct (matches c u r); [|done]. cbn. by rewrite Hr.
Qed.

Lemma replace_absent k q' (l : list Quota.row) :
  (∀ x, x ∈ l → has_id k x = false) →
  (λ r, if has_id k r then q' else r) <$> l = l.
Proof.
  intros H. induction l as [|x l IH]; [done|]. cbn.
  rewrite IH by (intros y Hy; apply H; by right).
  by rewrite (H x) by (by left).
Qed.

Lemma ids_replace k q' (rows : list Quota.row) :
  Quota.id q' = Some k →
  Quota.id <$> ((λ r, if has_id k r then q' else r) <$> rows) = Quota.id <$> rows.
Proof.
  intros Hk. rewrite <- list_fmap_compose. apply list_fmap_ext. intros i r _. cbn.
  unfold has_id. destruct (bool_decide_reflect (Quota.id r = Some k)); congruence.
Qed.

(** Saving an edited copy of a stored row. *)
Lemma save_stored c u k q q' rows :
  well_formed rows → List.filter (matches c u) rows = [q] →
  Quota.id q = Some k → Quota.id q' = Some k →
  Quota.user_id q' = Quota.user_id q → Quota.cluster_id q' = Quota.cluster_id q →
  ∃ rows',
    Quota_save q' rows = (Done q', rows')
    ∧ well_formed rows'
    ∧ List.filter (matches c u) rows' = [q']
    ∧ (∀ c' u', (c', u') ≠ (c, u) →
         List.filter (matches c' u') rows' = List.filter (matches c' u') rows).
Proof.
  intros (Hnd & Hall & Huniq) Hf Hk Hk' Hu Hc.
  destruct (filter_singleton_elem _ _ _ Hf) as [Hin Hm].
  pose proof Hm as [Hcq Huq]%matches_inv.
  assert (∀ c' u', matches c' u' q' = matches c' u' q) as Hsame.
  { intros c' u'. unfold matches. by rewrite Hu, Hc. }
  assert (existsb (has_id k) rows = true) as Hex.
  { apply existsb_exists. exists q. split; [by apply list_elem_of_In|].
    unfold has_id. by apply bool_decide_eq_true. }
  unfold Quota_save. rewrite Hu, Hc, Huq, Hcq, Hk', Hex.
  eexists. split; [reflexivity|].
  assert (∀ r, r ∈ rows → has_id k r = true → r = q) as Hrow.
  { intros r Hr Hid%bool_decide_eq_true.
    apply (same_id_same_row rows); [done..|congruence]. }
  assert (∀ c' u',
            List.filter (matches c' u') ((λ r, if has_id k r then q' else r) <$> rows)
            = (λ r, if has_id k r then q' else r) <$> List.filter (matches c' u') rows)
    as Hfilter.
  { intros c' u'. apply filter_replace. intros r Hr Hid.
    by rewrite (Hrow r Hr Hid). }
  split_and!.
  - split_and!.
    + by rewrite ids_replace.
    + apply Forall_fmap. eapply Forall_impl; [exact Hall|]. intros r Hr. cbn.
      destruct (has_id k r); [|done]. rewrite Hk', Hu, Hc, Huq, Hcq. eauto.
    + intros c' u'. rewrite Hfilter, length_fmap. apply Huniq.
  - rewrite Hfilter, Hf. cbn. unfold has_id. by rewrite bool_decide_eq_true_2.
  - intros c' u' Hne. rewrite Hfilter. apply replace_absent.
    intros x [Hx Hmx]%elem_of_filter_bool. apply not_true_iff_false. intros Hid.
    rewrite (Hrow x Hx Hid) in Hmx.
    by rewrite (matches_other c u c' u' q Hm Hne) in Hmx.
Qed.

(** [get_or_create] on a well-formed table. *)
Lemma get_or_create_ok c u rows :
  well_formed rows →
  ∃ q rows1 k,
    get_or_create c u rows = (Done q, rows1)
    ∧ well_formed rows1
    ∧ List.filter (matches c u) rows1 = [q]
    ∧ Quota.id q = Some k
    ∧ Quota.ram q = Quota.ram (current c u rows)
    ∧ Quota.disk q = Quota.disk (current c u rows)
    ∧ Quota.virtual_cpus q = Quota.virtual_cpus (current c u rows)
    ∧ (∀ c' u', (c', u') ≠ (c, u) →
         List.filter (matches c' u') rows1 = List.filter (matches c' u') rows).
Proof.
  intros (Hnd & Hall & Huniq). unfold get_or_create, current.
  pose proof (Huniq c u) as Hlen.
  destruct (List.filter (matches c u) rows) as [|q [|q2 rest]] eqn:Hf.
  - set (q := with_id (fresh_id rows) (new_quota c u)).
    assert (matches c u q = true) as Hm.
    { apply matches_inv. done. }
    exists q, (rows ++ [q]), (fresh_id rows). split; [reflexivity|]. split_and!; try done.
    + split_and!.
      * rewrite fmap_app. apply NoDup_app. split; [done|]. split.
        -- intros i (r & -> & Hr)%list_elem_of_fmap Hi.
           apply list_elem_of_singleton in Hi.
           destruct (proj1 (Forall_forall _ _) Hall r Hr) as [[j Hj] _].
           pose proof (fresh_id_above rows r j Hr Hj). cbn in Hi. rewrite Hj in Hi.
           injection Hi. lia.
        -- apply NoDup_singleton.
      * apply Forall_app. split; [done|]. apply Forall_singleton. cbn. eauto.
      * intros c' u'. rewrite filter_app_bool, length_app. cbn.
        destruct (decide ((c', u') = (c, u))) as [[= -> ->]|Hne].
        -- rewrite Hf, Hm. cbn. lia.
        -- rewrite (matches_other c u c' u' q Hm Hne). cbn.
           pose proof (Huniq c' u'). lia.
    + by rewrite filter_app_bool, Hf; cbn; rewrite Hm.
    + intros c' u' Hne. rewrite filter_app_bool. cbn.
      rewrite (matches_other c u c' u' q Hm Hne). by rewrite app_nil_r.
  - destruct (filter_singleton_elem _ _ _ Hf) as [Hin _].
    destruct (proj1 (Forall_forall _ _) Hall q Hin) as [[k Hk] _].
    exists q, rows, k. split_and!; done.
  - cbn in Hlen. lia.
Qed.

(** [set_quota] with values, on a well-formed table. *)
Lemma set_quota_some_run self user vals rows :
  well_formed rows → limits_only vals →
  ∃ rows',
    set_quota self user (Some vals) rows = (Done (), rows')
    ∧ well_formed rows'
    ∧ (∃ q, List.filter (matches (Cluster.id self) user) rows' = [q]
            ∧ values q = values (update vals (current (Cluster.id self) user rows)))
    ∧ (∀ c' u', (c', u') ≠ (Cluster.id self, user) →
         List.filter (matches c' u') rows' = List.filter (matches c' u') rows).
Proof.
  intros Hwf (Hid & Hu & Hc).
  destruct (get_or_create_ok (Cluster.id self) user rows Hwf)
    as (q & rows1 & k & Hgc & Hwf1 & Hf1 & Hk & Hram & Hdisk & Hcpu & Hother1).
  destruct (save_stored (Cluster.id self) user k q (update vals q) rows1 Hwf1 Hf1 Hk)
    as (rows2 & Hsave & Hwf2 & Hf2 & Hother2).
  { cbn. by rewrite Hid. }
  { cbn. by rewrite Hu. }
  { cbn. by rewrite Hc. }
  exists rows2. unfold set_quota. rewrite Hgc, Hsave. split_and!; try done.
  - exists (update vals q). split; [done|]. unfold values, update. cbn.
    by rewrite Hram, Hdisk, Hcpu.
  - intros c' u' Hne. by rewrite (Hother2 _ _ Hne), (Hother1 _ _ Hne).
Qed.

(** X14. Setting a quota and reading it back. On a table that
    [set_quota] has kept well formed, [set_quota] with values naming only
    limits returns, and [get_quota] for the same user then returns the
    dictionary with [default] at [0] and each limit at the value given,
    or, for a limit not given, at the value the user had (and [0] for a
    user without a quota). What [get_quota] returns for any other user or
    cluster is as before. *)
Theorem set_quota_then_get_quota self user vals rows :
  well_formed rows → limits_only vals →
  ∃ rows',
    set_quota self user (Some vals) rows = (Done (), rows')
    ∧ get_quota self (Some user) rows'
      = Done (<["default" := Some 0]>
                (values (update vals (current (Cluster.id self) user rows))))
    ∧ (∀ key, key = "ram" ∨ key = "disk" ∨ key = "virtual_cpus" →
         ∀ v, vals !! key = Some v →
           ∃ d, get_quota self (Some user) rows' = Done d ∧ d !! key = Some v)
    ∧ (∀ other user', (Cluster.id other, user') ≠ (Cluster.id self, user) →
         get_quota other (Some user') rows' = get_quota other (Some user') rows).
Proof.
  intros Hwf Hvals.
  destruct (set_quota_some_run self user vals rows Hwf Hvals)
    as (rows' & Hrun & _ & (q & Hq & Hvalues) & Hother).
  assert (get_quota self (Some user) rows'
          = Done (<["default" := Some 0]>
                    (values (update vals (current (Cluster.id self) user rows)))))
    as Hget.
  { unfold get_quota. by rewrite Hq, Hvalues. }
  exists rows'. split_and!; [done|done| |].
  - intros key Hkey v Hv. eexists. split; [exact Hget|].
    unfold values, update. cbn [Quota.ram Quota.disk Quota.virtual_cpus].
    destruct Hkey as [-> | [-> | ->]]; rewrite Hv; cbn [default from_option];
      cbn [Datatypes.id];
      repeat (rewrite lookup_insert_ne by discriminate);
      first [apply lookup_insert_eq | apply lookup_singleton_eq].
  - intros other user' Hne. unfold get_quota. by rewrite (Hother _ _ Hne).
Qed.

Lemma filter_filter_swap {A} (P Q : A → bool) l :
  List.filter P (List.filter Q l) = List.filter Q (List.filter P l).
Proof.
  induction l as [|x l IH]; [done|]. cbn.
  destruct (P x) eqn:HP, (Q x) eqn:HQ; cbn; rewrite ?HP, ?HQ, IH; done.
Qed.

Lemma NoDup_fmap_filter {A B} (f : A → B) (P : A → bool) l :
  NoDup (f <$> l) → NoDup (f <$> List.filter P l).
Proof.
  induction l as [|x l IH]; [done|]. cbn. intros [Hx Hl]%NoDup_cons.
  destruct (P x); cbn; [|by apply IH]. apply NoDup_cons. split; [|by apply IH].
  intros (y & Hy & [Hin _]%elem_of_filter_bool)%list_elem_of_fmap.
  apply Hx. apply list_elem_of_fmap. eauto.
Qed.

Lemma set_quota_none_well_formed self user rows :
  well_formed rows → well_formed (set_quota self user None rows).2.
Proof.
  intros (Hnd & Hall & Huniq). cbn. split_and!.
  - by apply NoDup_fmap_filter.
  - rewrite Forall_forall in Hall |- *. intros q [Hq _]%elem_of_filter_bool. auto.
  - intros c u. rewrite filter_filter_swap.
    etrans; [|apply (Huniq c u)].
    clear. induction (List.filter (matches c u) rows) as [|x l IH]; [done|].
    cbn. destruct (negb _); cbn; lia.
Qed.

(** X15. Deleting a quota. [set_quota] with [None] for the values
    deletes every row of the user on the cluster, whatever the table holds:
    it never fails, [get_quota] for the user then returns the cluster's own
    limits with [default] at [1], and the rows of other users and clusters
    are untouched. *)
Theorem set_quota_none_restores_default self user rows :
  ∃ rows',
    set_quota self user None rows = (Done (), rows')
    ∧ get_quota self (Some user) rows' = Done (default_quota self)
    ∧ (∀ q, q ∈ rows' ↔ q ∈ rows ∧ matches (Cluster.id self) user q = false)
    ∧ (∀ other user', (Cluster.id other, user') ≠ (Cluster.id self, user) →
         get_quota other (Some user') rows' = get_quota other (Some user') rows).
Proof.
  eexists. split; [reflexivity|]. split_and!.
  - unfold get_quota. rewrite filter_nil; [done|].
    intros q [_ Hq]%elem_of_filter_bool. by apply negb_true_iff.
  - intros q. rewrite elem_of_filter_bool. by rewrite negb_true_iff.
  - intros other user' Hne. unfold get_quota. rewrite filter_filter_swap.
    rewrite (filter_all (λ q, negb (matches (Cluster.id self) user q))); [done|].
    intros q [_ Hq]%elem_of_filter_bool. apply negb_true_iff.
    apply (matches_other (Cluster.id other) user'); [done|congruence].
Qed.

Lemma well_formed_nil : well_formed [].
Proof. split_and!; [apply NoDup_nil_2|done|intros; cbn; lia]. Qed.

Lemma built_well_formed rows : built rows → well_formed rows.
Proof.
  induction 1 as [|self user vals rows r rows' _ IH Hv Hs
                  |self user rows r rows' _ IH Hs].
  - apply well_formed_nil.
  - destruct (set_quota_some_run self user vals rows IH Hv)
      as (rows2 & Hs2 & Hwf & _). congruence.
  - pose proof (set_quota_none_well_formed self user rows IH) as Hwf.
    by rewrite Hs in Hwf.
Qed.

(** X16. A user never has two quotas on a cluster. On every table
    built from the empty one by calls of [set_quota] (with values naming
    only limits, or [None]), at most one row matches a user and a cluster,
    so neither the unpacking in [get_quota] nor [get_or_create] in
    [set_quota] fails: [get_quota] returns the cluster's own limits with
    [default] at [1] when no user is given or the user has no row, and
    the limits of the user's row with [default] at [0] otherwise, and
    [set_quota] returns. *)
Theorem quota_calls_never_fail rows :
  built rows →
  (∀ cluster user, (length (List.filter (matches cluster user) rows) ≤ 1)%nat)
  ∧ (∀ self, get_quota self None rows = Done (default_quota self))
  ∧ (∀ self user,
       (List.filter (matches (Cluster.id self) user) rows = []
        ∧ get_quota self (Some user) rows = Done (default_quota self))
       ∨ (∃ q, q ∈ rows ∧ Quota.cluster_id q = Some (Cluster.id self)
               ∧ Quota.user_id q = Some user
               ∧ get_quota self (Some user) rows
                 = Done (<["default" := Some 0]> (values q))))
  ∧ (∀ self user vals, limits_only vals →
       (set_quota self user (Some vals) rows).1 = Done ())
  ∧ (∀ self user, (set_quota self user None rows).1 = Done ()).
Proof.
  intros Hwf%built_well_formed. pose proof Hwf as (_ & _ & Huniq). split_and!.
  - exact Huniq.
  - done.
  - intros self user. unfold get_quota. specialize (Huniq (Cluster.id self) user).
    destruct (List.filter (matches (Cluster.id self) user) rows)
      as [|q [|q2 rest]] eqn:Hf.
    + by left.
    + right. exists q.
      destruct (filter_singleton_elem _ _ _ Hf) as [Hin [? ?]%matches_inv].
      done.
    + cbn in Huniq. lia.
  - intros self user vals Hvals.
    destruct (set_quota_some_run self user vals rows Hwf Hvals) as (rows' & -> & _).
    done.
  - done.
Qed.

End QuotaFacts.

(** ** Resources in use *)



Module AccountFacts.
Import Accounts.

Lemma account_fresh_key_above rs r i :
  r ∈ rs → id r = Some i → i < fresh_key rs.
Proof.
  unfold fresh_key. induction rs as [|x rs IH]; intros Hin Hi.
  - by apply elem_of_nil in Hin.
  - cbn. apply elem_of_cons in Hin as [<- | Hin].
    + rewrite Hi. cbn. lia.
    + specialize (IH Hin Hi). lia.
Qed.

Lemma fresh_id_positive rs : 0 < fresh_key rs.
Proof.
  unfold fresh_key.
  assert (0 ≤ foldr (λ r m, Z.max (default 0 (id r)) m) 0 rs); [|lia].
  induction rs as [|x rs IH]; cbn; lia.
Qed.

Lemma owned_inv c owner r :
  owned c owner r = true ↔ class r = c ∧ owner_id r = owner.
Proof. unfold owned. by rewrite andb_true_iff, !bool_decide_eq_true. Qed.

Lemma owned_other c owner c' owner' r :
  owned c owner r = true → (c', owner') ≠ (c, owner) → owned c' owner' r = false.
Proof.
  intros [Hc Ho]%owned_inv Hne. apply not_true_iff_false.
  intros [Hc' Ho']%owned_inv. congruence.
Qed.

Lemma account_same_id rs q r :
  NoDup (id <$> rs) → q ∈ rs → r ∈ rs → id r = id q → r = q.
Proof.
  intros Hnd [i Hi]%list_elem_of_lookup [j Hj]%list_elem_of_lookup Heq.
  assert (i = j) as ->; [|congruence].
  eapply NoDup_lookup; [exact Hnd| |]; rewrite list_lookup_fmap.
  - by rewrite Hi.
  - rewrite Hj. cbn. congruence.
Qed.

Lemma account_filter_replace (P : cluster_user → bool) k o (rs : list cluster_user) :
  (∀ r, r ∈ rs → has_key k r = true → P o = P r) →
  List.filter P ((λ r, if has_key k r then o else r) <$> rs)
  = (λ r, if has_key k r then o else r) <$> List.filter P rs.
Proof.
  induction rs as [|r rs IH]; intros H; [done|].
  cbn [fmap list_fmap List.filter].
  rewrite IH by (intros x Hx; apply H; by right).
  destruct (has_key k r) eqn:Hr.
  - rewrite (H r) by (done || by left).
    destruct (P r); [|done]. cbn. by rewrite Hr.
  - destruct (P r); [|done]. cbn. by rewrite Hr.
Qed.

Lemma account_replace_absent k o (l : list cluster_user) :
  (∀ x, x ∈ l → has_key k x = false) →
  (λ r, if has_key k r then o else r) <$> l = l.
Proof.
  intros H. induction l as [|x l IH]; [done|]. cbn.
  rewrite IH by (intros y Hy; apply H; by right).
  by rewrite (H x) by (by left).
Qed.

Lemma account_ids_replace k o (rs : list cluster_user) :
  id o = Some k →
  id <$> ((λ r, if has_key k r then o else r) <$> rs) = id <$> rs.
Proof.
  intros Hk. rewrite <- list_fmap_compose. apply list_fmap_ext. intros i r _. cbn.
  unfold has_key. destruct (bool_decide_reflect (id r = Some k)); congruence.
Qed.

Lemma account_replace_same k o (l : list cluster_user) :
  (∀ x, x ∈ l → has_key k x = true → x = o) →
  (λ r, if has_key k r then o else r) <$> l = l.
Proof.
  intros H. induction l as [|x l IH]; [done|]. cbn.
  rewrite IH by (intros y Hy; apply H; by right). f_equal.
  destruct (has_key k x) eqn:Hx; [|done]. symmetry. apply H; [by left|done].
Qed.

(** Saving a stored row under a new name. *)
Lemma save_renamed c owner o n st :
  coherent (rows st) → List.filter (owned c owner) (rows st) = [o] →
  ∃ st',
    ClusterUser_save (set_name n o) st = (set_name n o, st')
    ∧ saves st' = S (saves st)
    ∧ coherent (rows st')
    ∧ List.filter (owned c owner) (rows st') = [set_name n o]
    ∧ (∀ c' owner', (c', owner') ≠ (c, owner) →
         List.filter (owned c' owner') (rows st')
         = List.filter (owned c' owner') (rows st))
    ∧ (name o = n → rows st' = rows st).
Proof.
  intros (Hnd & Hall & Huniq) Hf.
  assert (o ∈ rows st ∧ owned c owner o = true) as [Hin Hm].
  { apply elem_of_filter_bool. rewrite Hf. by apply list_elem_of_singleton. }
  destruct (proj1 (Forall_forall _ _) Hall o Hin) as [(k & Hk & Hk0) Hrt].
  assert (existsb (has_key k) (rows st) = true) as Hex.
  { apply existsb_exists. exists o. split; [by apply list_elem_of_In|].
    unfold has_key. by apply bool_decide_eq_true. }
  assert (∀ r, r ∈ rows st → has_key k r = true → r = o) as Hrow.
  { intros r Hr Hid%bool_decide_eq_true.
    apply (account_same_id (rows st)); [done..|congruence]. }
  assert (truthy_id (id o) = true) as Ht.
  { rewrite Hk. cbn. apply negb_true_iff. by apply Z.eqb_neq. }
  unfold ClusterUser_save. cbn [id set_name]. rewrite Ht. unfold insert_or_update.
  cbn [id set_name]. rewrite Hk, Hex.
  eexists. split; [reflexivity|]. cbn [rows saves].
  assert (∀ c' owner',
            List.filter (owned c' owner')
              ((λ r, if has_key k r then set_name n o else r) <$> rows st)
            = (λ r, if has_key k r then set_name n o else r)
                <$> List.filter (owned c' owner') (rows st)) as Hfilter.
  { intros c' owner'. apply account_filter_replace. intros r Hr Hid.
    by rewrite (Hrow r Hr Hid). }
  split_and!.
  - done.
  - split_and!.
    + by rewrite account_ids_replace.
    + apply Forall_fmap. eapply Forall_impl; [exact Hall|]. intros r Hr. cbn.
      destruct (has_key k r); [|done]. cbn. eauto.
    + intros c' owner'. rewrite Hfilter, length_fmap. apply Huniq.
  - rewrite Hfilter, Hf. cbn. unfold has_key. by rewrite bool_decide_eq_true_2.
  - intros c' owner' Hne. rewrite Hfilter. apply account_replace_absent.
    intros x [Hx Hmx]%elem_of_filter_bool. apply not_true_iff_false. intros Hid.
    rewrite (Hrow x Hx Hid) in Hmx.
    by rewrite (owned_other c owner c' owner' o Hm Hne) in Hmx.
  - intros <-. clear Hfilter.
    assert (set_name (name o) o = o) as -> by (by destruct o).
    by apply account_replace_same.
Qed.

Lemma account_filter_app {A} (P : A → bool) l k :
  List.filter P (l ++ k) = List.filter P l ++ List.filter P k.
Proof. apply List.filter_app. Qed.

(** [get_or_create] on a coherent table. *)
Lemma account_get_or_create c owner st :
  coherent (rows st) →
  ∃ o st1,
    get_or_create_for c owner st = (Done o, st1)
    ∧ coherent (rows st1)
    ∧ List.filter (owned c owner) (rows st1) = [o]
    ∧ (∀ c' owner', (c', owner') ≠ (c, owner) →
         List.filter (owned c' owner') (rows st1)
         = List.filter (owned c' owner') (rows st))
    ∧ (List.filter (owned c owner) (rows st) = [o] ∧ st1 = st
       ∨ List.filter (owned c owner) (rows st) = [] ∧ name o = ""
         ∧ rows st1 = rows st ++ [o] ∧ saves st1 = S (saves st)).
Proof.
  intros (Hnd & Hall & Huniq). unfold get_or_create_for.
  pose proof (Huniq c owner) as Hlen.
  destruct (List.filter (owned c owner) (rows st)) as [|o [|o2 rest]] eqn:Hf.
  - unfold ClusterUser_save, insert_or_update, _get_real_type. cbn [id truthy_id set_real_type class].
    set (o := with_key _ _).
    assert (owned c owner o = true) as Hm by (by apply owned_inv).
    exists o, {| rows := rows st ++ [o]; saves := S (saves st) |}.
    split; [reflexivity|]. cbn [rows saves]. split_and!.
    + split_and!.
      * rewrite fmap_app. apply NoDup_app. split; [done|]. split.
        -- intros i (r & -> & Hr)%list_elem_of_fmap Hi.
           apply list_elem_of_singleton in Hi.
           destruct (proj1 (Forall_forall _ _) Hall r Hr) as [(j & Hj & _) _].
           pose proof (account_fresh_key_above (rows st) r j Hr Hj).
           cbn in Hi. rewrite Hj in Hi. injection Hi. lia.
        -- apply NoDup_singleton.
      * apply Forall_app. split; [done|]. apply Forall_singleton. cbn.
        split; [|done]. eexists. split; [done|].
        pose proof (fresh_id_positive (rows st)). lia.
      * intros c' owner'. rewrite account_filter_app, length_app. cbn.
        destruct (decide ((c', owner') = (c, owner))) as [[= -> ->]|Hne].
        -- rewrite Hf, Hm. cbn. lia.
        -- rewrite (owned_other c owner c' owner' o Hm Hne). cbn.
           pose proof (Huniq c' owner'). lia.
    + by rewrite account_filter_app, Hf; cbn; rewrite Hm.
    + intros c' owner' Hne. rewrite account_filter_app. cbn.
      rewrite (owned_other c owner c' owner' o Hm Hne). by rewrite app_nil_r.
    + right. done.
  - exists o, st. split_and!; try done. by left.
  - cbn in Hlen. lia.
Qed.

(** X18. [create_profile] keeps one profile per user, named after the
    user. On a coherent table the handler returns, after it the user has
    exactly one profile, whose name is the user name and whose
    [real_type] is the content type of [Profile], the rows of other users
    and of groups are as before, and the table is coherent again. Run a
    second time for the same user it saves nothing and changes nothing. *)
Theorem create_profile_synchronises_name instance st :
  coherent (rows st) →
  ∃ st' profile,
    create_profile instance st = (Done (), st')
    ∧ coherent (rows st')
    ∧ List.filter (owned ProfileType (pk instance)) (rows st') = [profile]
    ∧ name profile = label instance
    ∧ real_type profile = Some ProfileType
    ∧ (∀ c owner, (c, owner) ≠ (ProfileType, pk instance) →
         List.filter (owned c owner) (rows st')
         = List.filter (owned c owner) (rows st))
    ∧ create_profile instance st' = (Done (), st').
Proof.
  intros Hwf.
  destruct (account_get_or_create ProfileType (pk instance) st Hwf)
    as (o & st1 & Hgc & Hwf1 & Hf1 & Hother1 & _).
  assert (∀ st2 p, coherent (rows st2) →
            List.filter (owned ProfileType (pk instance)) (rows st2) = [p] →
            name p = label instance →
            real_type p = Some ProfileType
            ∧ create_profile instance st2 = (Done (), st2)) as Hsettled.
  { intros st2 p Hwf2 Hf2 Hn. split.
    - destruct Hwf2 as (_ & Hall & _).
      assert (p ∈ rows st2 ∧ owned ProfileType (pk instance) p = true) as [Hin Hm].
      { apply elem_of_filter_bool. rewrite Hf2. by apply list_elem_of_singleton. }
      destruct (proj1 (Forall_forall _ _) Hall p Hin) as [_ ->].
      by apply owned_inv in Hm as [-> _].
    - unfold create_profile, get_or_create_for. rewrite Hf2, Hn.
      by rewrite String.eqb_refl. }
  unfold create_profile. rewrite Hgc.
  destruct (String.eqb_spec (name o) (label instance)) as [Hn|Hn].
  - exists st1, o. destruct (Hsettled st1 o Hwf1 Hf1 Hn) as [Hrt Hagain].
    split_and!; done.
  - destruct (save_renamed ProfileType (pk instance) o (label instance) st1 Hwf1 Hf1)
      as (st2 & Hsave & _ & Hwf2 & Hf2 & Hother2 & _).
    rewrite Hsave. cbn [snd].
    destruct (Hsettled st2 (set_name (label instance) o) Hwf2 Hf2 eq_refl)
      as [Hrt Hagain].
    exists st2, (set_name (label instance) o). split_and!; try done.
    intros c owner Hne. by rewrite (Hother2 _ _ Hne), (Hother1 _ _ Hne).
Qed.

(** X19. [update_organization] keeps one organization per group, named
    after the group, and saves on every run. On a coherent table the
    handler returns, after it the group has exactly one organization,
    with the name of the group, the rows of users and of other groups are
    as before, and the table is coherent again. A second run leaves the
    rows as they are and still performs one save. *)
Theorem update_organization_synchronises_name instance st :
  coherent (rows st) →
  ∃ st' org,
    update_organization instance st = (Done (), st')
    ∧ coherent (rows st')
    ∧ List.filter (owned OrganizationType (pk instance)) (rows st') = [org]
    ∧ name org = label instance
    ∧ (∀ c owner, (c, owner) ≠ (OrganizationType, pk instance) →
         List.filter (owned c owner) (rows st')
         = List.filter (owned c owner) (rows st))
    ∧ ∃ st'',
        update_organization instance st' = (Done (), st'')
        ∧ rows st'' = rows st' ∧ saves st'' = S (saves st').
Proof.
  intros Hwf.
  destruct (account_get_or_create OrganizationType (pk instance) st Hwf)
    as (o & st1 & Hgc & Hwf1 & Hf1 & Hother1 & _).
  destruct (save_renamed OrganizationType (pk instance) o (label instance) st1 Hwf1 Hf1)
    as (st2 & Hsave & _ & Hwf2 & Hf2 & Hother2 & _).
  exists st2, (set_name (label instance) o).
  unfold update_organization at 1. rewrite Hgc, Hsave. cbn [snd].
  split_and!; try done.
  - intros c owner Hne. by rewrite (Hother2 _ _ Hne), (Hother1 _ _ Hne).
  - destruct (save_renamed OrganizationType (pk instance)
                (set_name (label instance) o) (label instance) st2 Hwf2 Hf2)
      as (st3 & Hsave3 & Hsaves & _ & _ & _ & Hrows).
    exists st3. unfold update_organization, get_or_create_for. rewrite Hf2, Hsave3.
    split_and!; [done| |done]. by apply Hrows.
Qed.

(** X20. [cast] finds the row of the subclass. Every row of a coherent
    table casts to itself: its [real_type] was set by the first save to
    the content type of its class, and no other row has its key. An
    object whose [real_type] was never set cannot be cast. *)
Theorem cast_returns_the_row st :
  (coherent (rows st) → ∀ r, r ∈ rows st → cast r st = Done r)
  ∧ (∀ o, real_type o = None → cast o st = Failed (Python AttributeError)).
Proof.
  split.
  - intros (Hnd & Hall & _) r Hin.
    destruct (proj1 (Forall_forall _ _) Hall r Hin) as [_ Hrt].
    unfold cast. rewrite Hrt.
    assert (List.filter (λ x, bool_decide (class x = class r)
                              && bool_decide (id x = id r)) (rows st) = [r]) as ->;
      [|done].
    clear Hall. induction (rows st) as [|x l IH]; [by apply elem_of_nil in Hin|].
    apply NoDup_cons in Hnd as [Hx Hl]. cbn.
    apply elem_of_cons in Hin as [->|Hin].
    + rewrite !bool_decide_eq_true_2 by done. cbn. f_equal.
      apply filter_nil. intros y Hy. apply andb_false_iff. right.
      apply bool_decide_eq_false. intros Heq. apply Hx.
      apply list_elem_of_fmap. exists y. split; [congruence|done].
    + assert (id x ≠ id r) as Hne.
      { intros Heq. apply Hx. apply list_elem_of_fmap. exists r.
        split; [congruence|done]. }
      rewrite (bool_decide_eq_false_2 (id x = id r)) by done.
      rewrite andb_false_r. by apply IH.
  - intros o Ho. unfold cast. by rewrite Ho.
Qed.

End AccountFacts.

(** ** The further theorems at sample inputs *)

Module MoreWitness.
Import Sample MoreSample.

Lemma save_then_info_reads_back_witness :
  let st' := (save (env_with (Ok VNone)) (model_seen, world0)).2 in
  row_of st'.1 ∈ db st'.2
  ∧ (info (row_of st'.1, st'.2)).1 = Ok (payload 900).
Proof.
  intros st'.
  destruct (proj1 (save_then_info_reads_back (env_with (Ok VNone)))
              (model_seen, world0) st')
    as (_ & Hin & _ & _ & _ & Hinfo);
    [vm_compute; reflexivity | reflexivity |].
  split; [exact Hin|]. rewrite Hinfo. vm_compute; reflexivity.
Defined.

Lemma virtual_machine_save_keeps_old_blob_witness :
  ∃ s' w',
    save (env_with (Ok VNone)) (vm_from_store, world0) = (Ok (), (s', w'))
    ∧ getitem (__info s') "tags" = Ok (VList [VStr "gwm:owner:2"])
    ∧ serialized_info (row_of s') = Some (vm_payload 900 ["gwm:owner:1"]).
Proof.
  destruct (virtual_machine_save_keeps_old_blob (env_with (Ok VNone))
              vm_from_store world0 5 (vm_dict ["gwm:owner:1"]) ["gwm:owner:1"]
              (vm_payload 900 ["gwm:owner:1"]))
    as (s' & w' & Hrun & Hinfo & _ & _ & _ & Hblob).
  - reflexivity.
  - reflexivity.
  - reflexivity.
  - vm_compute; reflexivity.
  - repeat constructor; vm_compute; eauto.
  - reflexivity.
  - reflexivity.
  - reflexivity.
  - exists s', w'. split_and!; [done| |done].
    rewrite Hinfo. vm_compute; reflexivity.
Defined.

Lemma refresh_missing_ctime_stops_half_way_witness :
  let E := env_with (Ok (VDict payload_without_ctime)) in
  refresh E (model_seen, world0)
  = (Raise (KeyError "ctime"),
     (set_info (VDict payload_without_ctime)
        (set_cached (Some 1000000000) model_seen),
      fetched model_seen world0)).
Proof.
  intros E.
  apply (refresh_missing_ctime_stops_half_way E model_seen world0
           payload_without_ctime (VNum 950) 950000000).
  - done.
  - reflexivity.
  - vm_compute; reflexivity.
  - reflexivity.
  - intros old [= <-]. lia.
  - vm_compute; reflexivity.
Defined.

Lemma virtual_machine_info_fills_columns_witness :
  ∃ s',
    set_info_property (vm_payload 900 ["web"]) (vm_with 2 VNone, world0)
      = (Ok (), (s', world0))
    ∧ ram s' = VNum 512 ∧ virtual_cpus s' = VNum 2
    ∧ disk_size s' = VNum 3072 ∧ operating_system s' = VStr "debian".
Proof.
  destruct (virtual_machine_info_fills_columns (vm_with 2 VNone) world0
              (vm_dict ["web"]) (VNum 900) 900000000 VNone 0
              (list_to_map [("memory", VNum 512); ("vcpus", VNum 2)])
              (VNum 512) (VNum 2) [1024; 2048] (VStr "debian"))
    as (s' & Hrun & _ & _ & Hram & Hcpu & Hdisk & Hos & _).
  - reflexivity.
  - vm_compute; reflexivity.
  - reflexivity.
  - vm_compute; reflexivity.
  - by left.
  - vm_compute; reflexivity.
  - vm_compute; reflexivity.
  - vm_compute; reflexivity.
  - vm_compute; reflexivity.
  - vm_compute; reflexivity.
  - exists s'. split_and!; done.
Defined.

Lemma cluster_save_propagates_hash_witness :
  ∃ c' w',
    save (env_with (Ok VNone)) (cluster1, one_machine) = (Ok (), (c', w'))
    ∧ hash c' = "NoneNone5080"
    ∧ ∀ r, r ∈ db w' → cls r = VirtualMachine ∨ cls r = Job →
        cluster_id r = Some 1 → cluster_hash r = "NoneNone5080".
Proof.
  destruct (cluster_save_propagates_hash (env_with (Ok VNone)) cluster1 one_machine)
    as [Hsaved _]; [reflexivity|].
  destruct Hsaved as (c' & w' & Hrun & Hh & Hid & Hrows & _); [reflexivity|].
  exists c', w'. split; [exact Hrun|].
  assert (hash c' = "NoneNone5080") as Hh' by (rewrite Hh; vm_compute; reflexivity).
  split; [exact Hh'|]. intros r Hr Hk Hc. rewrite <- Hh'. apply Hrows; [done..|].
  by rewrite Hid.
Defined.

Lemma missing_reports_witness :
  missing_in_db (env_with (Ok VNone)) (cluster1, one_machine)
  = (Ok ["b"; "c"], (cluster1, {| db := db one_machine; trace := [GetInstances] |}))
  ∧ (missing_in_ganeti env_listing_fails (cluster1, one_machine)).1 = Ok ["a"].
Proof.
  destruct (missing_reports (env_with (Ok VNone)) cluster1 one_machine) as [H _].
  destruct (H ["a"; "b"; "c"] eq_refl) as (Hdb & _).
  destruct (missing_reports env_listing_fails cluster1 one_machine) as [_ H'].
  destruct (H' "unreachable" eq_refl) as (_ & Hganeti).
  split.
  - rewrite Hdb. vm_compute; reflexivity.
  - rewrite Hganeti. vm_compute; reflexivity.
Defined.

Lemma sync_then_reports_empty_witness :
  ((sync_virtual_machines (env_with (Ok VNone)) true
      ;; missing_in_ganeti (env_with (Ok VNone))) (cluster1, one_machine)).1
  = Ok [].
Proof.
  exact (proj2 (sync_then_reports_empty (env_with (Ok VNone)) cluster1 one_machine
                  1 ["a"; "b"; "c"] eq_refl eq_refl)).
Defined.

Lemma sync_leaves_other_rows_witness :
  ∃ w',
    sync_virtual_machines (env_with (Ok VNone)) true (cluster1, one_machine)
      = (Ok (), (cluster1, w'))
    ∧ vm_row cluster1 "a" 1 ∈ db w'.
Proof.
  destruct (sync_leaves_other_rows (env_with (Ok VNone)) cluster1 one_machine
              ["a"; "b"; "c"] true eq_refl)
    as (w' & Hrun & _ & Hkept & _).
  exists w'. split; [exact Hrun|]. apply Hkept.
  - left.
  - apply (bool_decide_unpack _). vm_compute; reflexivity.
Defined.

Lemma sync_remove_after_api_failure_witness :
  ∃ w',
    sync_virtual_machines env_listing_fails true (cluster1, one_machine)
      = (Ok (), (cluster1, w'))
    ∧ db w' = [].
Proof.
  destruct (sync_remove_after_api_failure env_listing_fails cluster1 one_machine
              "unreachable" eq_refl) as [(w' & Hrun & Hdb & _) _].
  exists w'. split; [exact Hrun|]. rewrite Hdb. vm_compute; reflexivity.
Defined.

Lemma virtual_machine_save_twice_witness :
  ∃ s1 w1 s2 w2,
    save (env_with (Ok VNone)) (vm_of 2 ["web"; "gwm:owner:1"], world0)
      = (Ok (), (s1, w1))
    ∧ save (env_with (Ok VNone)) (s1, w1) = (Ok (), (s2, w2))
    ∧ List.filter is_tag_call (trace w2) = List.filter is_tag_call (trace w1).
Proof.
  destruct (virtual_machine_save_twice (env_with (Ok VNone))
              (vm_of 2 ["web"; "gwm:owner:1"]) world0 5
              (vm_dict ["web"; "gwm:owner:1"]) ["web"; "gwm:owner:1"])
    as (s1 & w1 & s2 & w2 & H1 & H2 & _ & Hcalls & _).
  - reflexivity.
  - reflexivity.
  - reflexivity.
  - vm_compute; reflexivity.
  - repeat constructor; vm_compute; eauto.
  - reflexivity.
  - reflexivity.
  - exists s1, w1, s2, w2. split_and!; done.
Defined.

End MoreWitness.

Module RegistryEdgesWitness.
Import Registry RegistryFacts RegistrySample RegistryEdges.

Lemma after_first_call_reachable : reachable after_first_call.
Proof.
  apply (reach_get_rapi {[ 1 := credentials_v1 ]} "fingerprint-1"
           (ClusterId 1) empty
           (get_rapi {[ 1 := credentials_v1 ]} "fingerprint-1" (ClusterId 1)
              empty).1);
    [apply reach_empty | reflexivity].
Defined.

Lemma get_rapi_after_clear_witness :
  ∃ rapi st',
    get_rapi {[ 1 := credentials_v1 ]} "fingerprint-1" (ClusterId 1)
      (clear_rapi_cache after_first_call) = (Ok rapi, st')
    ∧ ∀ h r, RAPI_CACHE after_first_call !! h = Some r → serial r ≠ serial rapi.
Proof.
  destruct (get_rapi_after_clear {[ 1 := credentials_v1 ]} "fingerprint-1"
              (ClusterId 1) 1 credentials_v1 after_first_call)
    as (rapi & st' & Hrun & Hfresh & _).
  - exact after_first_call_reachable.
  - reflexivity.
  - by vm_compute.
  - eauto.
Defined.

Lemma get_rapi_fails_only_for_unknown_cluster_witness :
  get_rapi {[ 1 := credentials_v1 ]} "fingerprint-9" (ClusterId 2) after_first_call
  = (Raise ValueError, after_first_call).
Proof.
  apply (get_rapi_fails_only_for_unknown_cluster {[ 1 := credentials_v1 ]}
           "fingerprint-9" (ClusterId 2) after_first_call
           after_first_call_reachable).
  split_and!; [reflexivity | reflexivity | by vm_compute | by vm_compute].
Defined.

End RegistryEdgesWitness.

Module QuotaWitness.
Import Quotas QuotaFacts QuotaSample.

Lemma set_quota_then_get_quota_witness :
  ∃ rows',
    set_quota cluster 7 (Some {[ "ram" := Some 512 ]}) [] = (Done (), rows')
    ∧ get_quota cluster (Some 7) rows'
      = Done {[ "default" := Some 0; "ram" := Some 512; "disk" := Some 0;
                "virtual_cpus" := Some 0 ]}.
Proof.
  destruct (set_quota_then_get_quota cluster 7 {[ "ram" := Some 512 ]} [])
    as (rows' & Hrun & Hget & _).
  - split_and!; [apply NoDup_nil_2 | apply Forall_nil_2 | intros; cbn; lia].
  - split_and!; by vm_compute.
  - exists rows'. split; [exact Hrun|]. rewrite Hget. vm_compute; reflexivity.
Defined.

Lemma set_quota_none_restores_default_witness :
  ∃ rows',
    set_quota cluster 7 None [new_quota 1 7; new_quota 1 8] = (Done (), rows')
    ∧ get_quota cluster (Some 7) rows' = Done (default_quota cluster)
    ∧ new_quota 1 8 ∈ rows'.
Proof.
  destruct (set_quota_none_restores_default cluster 7 [new_quota 1 7; new_quota 1 8])
    as (rows' & Hrun & Hget & Hrows & _).
  exists rows'. split_and!; [done|done|]. apply Hrows. split; [|reflexivity].
  right. left.
Defined.

Lemma quota_calls_never_fail_witness :
  get_quota cluster (Some 7) [] = Done (default_quota cluster)
  ∧ (set_quota cluster 7 (Some {[ "ram" := Some 512 ]}) []).1 = Done ().
Proof.
  destruct (quota_calls_never_fail [] built_nil) as (_ & _ & Hget & Hset & _).
  split.
  - destruct (Hget cluster 7) as [[_ H] | (q & Hq & _)]; [exact H|].
    by apply elem_of_nil in Hq.
  - apply Hset. split_and!; by vm_compute.
Defined.

End QuotaWitness.

Module AccountWitness.
Import Accounts AccountFacts AccountSample.

Lemma coherent_no_rows : coherent (rows no_rows).
Proof. split_and!; [apply NoDup_nil_2 | apply Forall_nil_2 | intros; cbn; lia]. Defined.

Lemma create_profile_synchronises_name_witness :
  ∃ st' profile,
    create_profile alice no_rows = (Done (), st')
    ∧ rows st' = [profile] ∧ name profile = "alice"
    ∧ create_profile alice st' = (Done (), st').
Proof.
  destruct (create_profile_synchronises_name alice no_rows coherent_no_rows)
    as (st' & profile & Hrun & _ & _ & Hname & _ & _ & Hagain).
  exists st', (set_name "alice" (with_key 1 {| id := None; name := "";
                 real_type := Some ProfileType; class := ProfileType;
                 owner_id := 3 |})).
  vm_compute in Hrun. injection Hrun as <-. split_and!; reflexivity.
Defined.

Lemma update_organization_synchronises_name_witness :
  ∃ st' st'',
    update_organization alice no_rows = (Done (), st')
    ∧ update_organization alice st' = (Done (), st'')
    ∧ rows st'' = rows st' ∧ saves st'' = S (saves st').
Proof.
  destruct (update_organization_synchronises_name alice no_rows coherent_no_rows)
    as (st' & org & Hrun & _ & _ & _ & _ & st'' & Hagain & Hrows & Hsaves).
  exists st', st''. split_and!; done.
Defined.

Lemma cast_returns_the_row_witness :
  let st := (create_profile alice no_rows).2 in
  ∃ r, rows st = [r] ∧ cast r st = Done r.
Proof.
  intros st. eexists. split; [reflexivity|].
  apply (proj1 (cast_returns_the_row st)); [|left]. split_and!.
  - apply NoDup_singleton.
  - apply Forall_singleton. split; [by exists 1|reflexivity].
  - intros c owner. vm_compute. repeat case_match; lia.
Defined.

End AccountWitness.

